(** * S4C Clic extractor: a shallow embedding of [s4c_clic.py]

    The development follows the source file top to bottom: the Welsh
    date helpers, the regular-expression heuristics of [S4CClicBaseIE],
    the streaming-format loop, the episode record builder and the three
    resolvers.  The properties come after the definitions.

    Modelling conventions.
    - Text is a [string] of 8-bit characters; the character classes
      [\d], [\s], [\w] and case folding are those of the ASCII range,
      where they are Python's.  Beyond it Python's classes are those of
      Unicode, so a property that reads a text by these classes is
      stated for text of the ASCII range ([Plain.plain]).
    - [int] of a run of digits is total here; CPython refuses a run of
      more than 4300 digits, so a property that says a number is
      returned is stated for texts of at most 4300 characters.
    - Python's [re] is embedded as a backtracking matcher over a small
      regular-expression syntax, with the priorities of the original
      (greedy repetition, leftmost alternative first, leftmost start).
      The matcher is proved sound and complete for a relational reading
      of the patterns.
    - Upstream payloads are records whose optional keys are [option]
      fields ([None]: the key is absent); dictionaries read by key only
      are finite maps.
    - The methods inherited from the framework's [InfoExtractor] are the
      fields of a class; transport failures that the framework raises by
      itself are outside the model.
    - [datetime] is embedded by its proleptic Gregorian ordinals; the
      local time zone of the process is a function giving the UTC offset
      in force at a local wall-clock reading.
    - Exceptions are values of [exn] carried by the [result] monad. *)

From Stdlib Require Import ZArith Ascii String List Bool Lia.
From stdpp Require Import gmap strings.
Import ListNotations.

Local Open Scope Z_scope.

(** ** Characters *)

Module Char.

Definition code (a : ascii) : N := N_of_ascii a.

Definition between (lo hi : N) (a : ascii) : bool :=
  ((lo <=? code a) && (code a <=? hi))%N.

(** [\d] *)
Definition is_digit (a : ascii) : bool := between 48 57 a.

(** [\s], and the characters removed by [str.strip()] and [str.split()] *)
Definition is_space (a : ascii) : bool :=
  between 9 13 a || between 28 32 a.

Definition is_upper (a : ascii) : bool := between 65 90 a.
Definition is_lower (a : ascii) : bool := between 97 122 a.

(** [\w] *)
Definition is_word (a : ascii) : bool :=
  is_digit a || is_upper a || is_lower a || (code a =? 95)%N.

Definition lower (a : ascii) : ascii :=
  if is_upper a then ascii_of_N (code a + 32) else a.

(** Equality of characters, under [re.IGNORECASE] when [ic] is set. *)
Definition eqc (ic : bool) (a b : ascii) : bool :=
  if ic then Ascii.eqb (lower a) (lower b) else Ascii.eqb a b.

Definition digit_val (a : ascii) : Z := Z.of_N (code a) - 48.

End Char.

(** ** Text primitives: [int], [str.strip], [str.split], [str.replace] *)

Module Text.

Definition text := list ascii.

Definition of_string (s : string) : text := list_ascii_of_string s.
Definition to_string (t : text) : string := string_of_list_ascii t.

(** [int(s)] for a run of decimal digits. *)
Definition int_of_digits (t : text) : Z :=
  fold_left (fun acc a => acc * 10 + Char.digit_val a) t 0.

Fixpoint lstrip (t : text) : text :=
  match t with
  | a :: t' => if Char.is_space a then lstrip t' else t
  | [] => []
  end.

(** [s.strip()] *)
Definition strip (t : text) : text := rev (lstrip (rev (lstrip t))).

(** [s.split()]: maximal runs of non-blank characters. *)
Fixpoint split_from (cur : text) (t : text) : list text :=
  match t with
  | [] => match cur with [] => [] | _ => [rev cur] end
  | a :: t' =>
      if Char.is_space a
      then match cur with
           | [] => split_from [] t'
           | _ => rev cur :: split_from [] t'
           end
      else split_from (a :: cur) t'
  end.

Definition split (t : text) : list text := split_from [] t.

Fixpoint starts_with (p t : text) : bool :=
  match p, t with
  | [], _ => true
  | a :: p', b :: t' => Ascii.eqb a b && starts_with p' t'
  | _ :: _, [] => false
  end.

(** [s.replace(old, '')]: every non-overlapping occurrence of [old],
    scanning from the left, is removed.  [skip] counts the characters of
    an occurrence still to be dropped. *)
Fixpoint remove_from (old : text) (skip : nat) (t : text) : text :=
  match t with
  | [] => []
  | a :: t' =>
      match skip with
      | S n => remove_from old n t'
      | O => if starts_with old t
             then remove_from old (Nat.pred (length old)) t'
             else a :: remove_from old O t'
      end
  end.

Definition remove_all (old t : text) : text :=
  match old with
  | [] => t
  | _ => remove_from old O t
  end.

End Text.

(** ** Regular expressions with Python's matching priorities *)

Module Re.

Import Text.

Inductive regex : Type :=
| Eps
| Chr (a : ascii)                (* a literal character *)
| Cls (p : ascii -> bool)        (* a character class *)
| Cat (r1 r2 : regex)
| Alt (r1 r2 : regex)            (* r1|r2 *)
| Star (r : regex)               (* r*, greedy *)
| Plus (r : regex)               (* r+, greedy *)
| Opt (r : regex)                (* r?, greedy *)
| Grp (n : nat) (r : regex)      (* capturing group number n *)
| Bol                            (* ^ *)
| Wordb.                         (* \b *)

(** A literal word. *)
Definition Lit (s : string) : regex :=
  fold_right (fun a r => Cat (Chr a) r) Eps (of_string s).

(** The pieces of a pattern, in sequence. *)
Definition seq (l : list regex) : regex := fold_right Cat Eps l.

(** A bracketed set of characters, as in [[_-]]. *)
Definition one_of (s : string) (a : ascii) : bool :=
  existsb (Ascii.eqb a) (of_string s).

Definition caps := list (nat * text).

Definition set_group (n : nat) (t : text) (c : caps) : caps := (n, t) :: c.

Fixpoint get_group (n : nat) (c : caps) : text :=
  match c with
  | [] => []
  | (m, t) :: c' => if Nat.eqb n m then t else get_group n c'
  end.

(** The part of [s] consumed when [s'] remains. *)
Definition consumed (s s' : text) : text :=
  firstn (length s - length s')%nat s.

Definition word_at (o : option ascii) : bool :=
  match o with Some a => Char.is_word a | None => false end.

Definition outcome := (text * caps)%type.

(** A continuation receives the character before the cursor, the
    remaining input and the groups captured so far. *)
Definition cont := option ascii -> text -> caps -> option outcome.

Definition orelse (x y : option outcome) : option outcome :=
  match x with Some _ => x | None => y end.

(** Greedy iteration: take one more [step] that consumes input, or
    else leave the loop. *)
Fixpoint star_loop
    (step : option ascii -> text -> caps -> cont -> option outcome)
    (fuel : nat) (prev : option ascii) (s : text) (c : caps) (k : cont)
    : option outcome :=
  match fuel with
  | O => k prev s c
  | S fuel' =>
      orelse
        (step prev s c (fun p' s' c' =>
           if (length s' <? length s)%nat
           then star_loop step fuel' p' s' c' k
           else None))
        (k prev s c)
  end.

Fixpoint rmatch (ic : bool) (r : regex)
    (prev : option ascii) (s : text) (c : caps) (k : cont)
    : option outcome :=
  match r with
  | Eps => k prev s c
  | Chr a =>
      match s with
      | b :: s' => if Char.eqc ic a b then k (Some b) s' c else None
      | [] => None
      end
  | Cls p =>
      match s with
      | b :: s' => if p b then k (Some b) s' c else None
      | [] => None
      end
  | Cat r1 r2 =>
      rmatch ic r1 prev s c (fun p' s' c' => rmatch ic r2 p' s' c' k)
  | Alt r1 r2 =>
      orelse (rmatch ic r1 prev s c k) (rmatch ic r2 prev s c k)
  | Star r1 => star_loop (rmatch ic r1) (length s) prev s c k
  | Plus r1 =>
      rmatch ic r1 prev s c (fun p' s' c' =>
        star_loop (rmatch ic r1) (length s') p' s' c' k)
  | Opt r1 => orelse (rmatch ic r1 prev s c k) (k prev s c)
  | Grp n r1 =>
      rmatch ic r1 prev s c (fun p' s' c' =>
        k p' s' (set_group n (consumed s s') c'))
  | Bol => match prev with None => k prev s c | Some _ => None end
  | Wordb =>
      if xorb (word_at prev) (word_at (head s)) then k prev s c else None
  end.

(** A match object: [group(0)] and the numbered groups. *)
Record match_object := MatchObject {
  group0 : text;
  groups : caps
}.

Definition group (n : nat) (m : match_object) : text :=
  match n with
  | O => group0 m
  | _ => get_group n (groups m)
  end.

Definition match_at (ic : bool) (r : regex) (prev : option ascii)
    (s : text) : option match_object :=
  match rmatch ic r prev s [] (fun _ s' c' => Some (s', c')) with
  | Some (s', c') => Some (MatchObject (consumed s s') c')
  | None => None
  end.

(** [re.match(r, s)] *)
Definition re_match (ic : bool) (r : regex) (s : text) : option match_object :=
  match_at ic r None s.

(** [re.search(r, s)]: the first start position, from the left, at
    which the pattern matches. *)
Fixpoint search_from (ic : bool) (r : regex) (prev : option ascii)
    (s : text) : option match_object :=
  match match_at ic r prev s with
  | Some m => Some m
  | None =>
      match s with
      | [] => None
      | a :: s' => search_from ic r (Some a) s'
      end
  end.

Definition re_search (ic : bool) (r : regex) (s : text) : option match_object :=
  search_from ic r None s.

(** [re.sub(r, '', s)]: the matches found from left to right are
    deleted; [skip] counts the characters of a match still to drop. *)
Fixpoint sub_from (ic : bool) (r : regex) (prev : option ascii)
    (skip : nat) (s : text) : text :=
  match s with
  | [] => []
  | a :: s' =>
      match skip with
      | S n => sub_from ic r (Some a) n s'
      | O =>
          match match_at ic r prev s with
          | Some m =>
              match length (group0 m) with
              | O => a :: sub_from ic r (Some a) O s'
              | S n => sub_from ic r (Some a) n s'
              end
          | None => a :: sub_from ic r (Some a) O s'
          end
      end
  end.

Definition re_sub_empty (ic : bool) (r : regex) (s : text) : text :=
  sub_from ic r None O s.

End Re.

(** ** Exceptions and the error monad *)

Inductive exn : Type :=
| ExtractorError (msg : string)
| ValueError (msg : string)
| KeyError (key : string)
| IndexError (msg : string).

Inductive result (A : Type) : Type :=
| Ok (a : A)
| Raise (e : exn).

Arguments Ok {A} a.
Arguments Raise {A} e.

Definition bind {A B : Type} (x : result A) (f : A -> result B) : result B :=
  match x with
  | Ok a => f a
  | Raise e => Raise e
  end.

Notation "'let*' x ':=' e 'in' k" := (bind e (fun x => k))
  (at level 10, x name, e at level 100, k at level 200).

(** ** The calendar arithmetic behind [datetime] *)

Module Datetime.

Import Text.

Definition _is_leap (year : Z) : bool :=
  (year mod 4 =? 0) && (negb (year mod 100 =? 0) || (year mod 400 =? 0)).

Definition _DAYS_IN_MONTH : list Z :=
  [-1; 31; 28; 31; 30; 31; 30; 31; 31; 30; 31; 30; 31].

Definition _DAYS_BEFORE_MONTH : list Z :=
  [-1; 0; 31; 59; 90; 120; 151; 181; 212; 243; 273; 304; 334].

Definition at_index (l : list Z) (i : Z) : Z := nth (Z.to_nat i) l 0.

Definition b2z (b : bool) : Z := if b then 1 else 0.

Definition _days_before_year (year : Z) : Z :=
  let y := year - 1 in
  y * 365 + y / 4 - y / 100 + y / 400.

Definition _days_in_month (year month : Z) : Z :=
  if (month =? 2) && _is_leap year then 29 else at_index _DAYS_IN_MONTH month.

Definition _days_before_month (year month : Z) : Z :=
  at_index _DAYS_BEFORE_MONTH month + b2z ((2 <? month) && _is_leap year).

Definition _ymd2ord (year month day : Z) : Z :=
  _days_before_year year + _days_before_month year month + day.

Definition _DI400Y : Z := 146097.
Definition _DI100Y : Z := 36524.
Definition _DI4Y : Z := 1461.

Definition _ord2ymd (n0 : Z) : Z * Z * Z :=
  let n := n0 - 1 in
  let n400 := n / _DI400Y in
  let n := n mod _DI400Y in
  let year := n400 * 400 + 1 in
  let n100 := n / _DI100Y in
  let n := n mod _DI100Y in
  let n4 := n / _DI4Y in
  let n := n mod _DI4Y in
  let n1 := n / 365 in
  let n := n mod 365 in
  let year := year + (n100 * 100 + n4 * 4 + n1) in
  if (n1 =? 4) || (n100 =? 4) then (year - 1, 12, 31)
  else
    let leapyear := (n1 =? 3) && (negb (n4 =? 24) || (n100 =? 3)) in
    let month := Z.shiftr (n + 50) 5 in
    let preceding :=
      at_index _DAYS_BEFORE_MONTH month + b2z ((2 <? month) && leapyear) in
    let '(month, preceding) :=
      if n <? preceding
      then (month - 1,
            preceding
            - (at_index _DAYS_IN_MONTH (month - 1)
               + b2z ((month - 1 =? 2) && leapyear)))
      else (month, preceding) in
    (year, month, n - preceding + 1).

(** The last part of [_ord2ymd]: month and day from the day of the year. *)
Definition month_and_day (year : Z) (leapyear : bool) (n : Z) : Z * Z * Z :=
  let month := Z.shiftr (n + 50) 5 in
  let preceding :=
    at_index _DAYS_BEFORE_MONTH month + b2z ((2 <? month) && leapyear) in
  let '(month, preceding) :=
    if n <? preceding
    then (month - 1,
          preceding
          - (at_index _DAYS_IN_MONTH (month - 1)
             + b2z ((month - 1 =? 2) && leapyear)))
    else (month, preceding) in
  (year, month, n - preceding + 1).

Definition MINYEAR : Z := 1.
Definition MAXYEAR : Z := 9999.

(** The ordinal of 1970-01-01. *)
Definition EPOCH_ORDINAL : Z := 719163.

(** [%Y-%m-%d], as [_strptime] compiles it. *)
Definition digit : Re.regex := Re.Cls Char.is_digit.
Definition range (lo hi : N) : Re.regex := Re.Cls (Char.between lo hi).

Definition fmt_Y : Re.regex :=
  Re.Cat digit (Re.Cat digit (Re.Cat digit digit)).

Definition fmt_m : Re.regex :=
  Re.Alt (Re.Cat (Re.Chr "1") (range 48 50))
    (Re.Alt (Re.Cat (Re.Chr "0") (range 49 57)) (range 49 57)).

Definition fmt_d : Re.regex :=
  Re.Alt (Re.Cat (Re.Chr "3") (range 48 49))
    (Re.Alt (Re.Cat (range 49 50) digit)
       (Re.Alt (Re.Cat (Re.Chr "0") (range 49 57))
          (Re.Alt (range 49 57) (Re.Cat (Re.Chr " ") (range 49 57))))).

Definition fmt_Y_m_d : Re.regex :=
  Re.Cat (Re.Grp 1 fmt_Y)
    (Re.Cat (Re.Chr "-")
       (Re.Cat (Re.Grp 2 fmt_m)
          (Re.Cat (Re.Chr "-") (Re.Grp 3 fmt_d)))).

(** [datetime.datetime.strptime(s, "%Y-%m-%d")]: the date fields of the
    naive datetime, at midnight. *)
Definition strptime_Y_m_d (s : string) : result (Z * Z * Z) :=
  let t := of_string s in
  match Re.re_match true fmt_Y_m_d t with
  | None => Raise (ValueError "time data does not match format")
  | Some m =>
      if negb (length (Re.group 0 m) =? length t)%nat
      then Raise (ValueError "unconverted data remains")
      else
        let year := int_of_digits (Re.group 1 m) in
        let month := int_of_digits (Re.group 2 m) in
        let day := int_of_digits (lstrip (Re.group 3 m)) in
        if negb ((MINYEAR <=? year) && (year <=? MAXYEAR))
        then Raise (ValueError "year is out of range")
        else if negb ((1 <=? day) && (day <=? _days_in_month year month))
        then Raise (ValueError "day is out of range for month")
        else Ok (year, month, day)
  end.

(** Seconds between 1970-01-01T00:00:00 and midnight of the given date,
    both read on the same clock. *)
Definition naive_seconds (ymd : Z * Z * Z) : Z :=
  let '(y, m, d) := ymd in
  (_ymd2ord y m d - EPOCH_ORDINAL) * 86400.

(** A fixed-width decimal rendering, most significant digit first. *)
Fixpoint zero_pad (width : nat) (n : Z) : text :=
  match width with
  | O => []
  | S w => ascii_of_N (Z.to_N (48 + (n / 10 ^ Z.of_nat w) mod 10))
             :: zero_pad w n
  end.

End Datetime.

(** ** Module-level helpers of the source *)

Import Text.

(** Map Welsh months to numbers *)
Definition WELSH_MONTHS : list (string * string) :=
  [ ("Ionawr", "01"); ("Chwefror", "02"); ("Mawrth", "03");
    ("Ebrill", "04"); ("Mai", "05"); ("Mehefin", "06");
    ("Gorffennaf", "07"); ("Awst", "08"); ("Medi", "09");
    ("Hydref", "10"); ("Tachwedd", "11"); ("Rhagfyr", "12") ]%string.

Fixpoint dict_get (d : list (string * string)) (key : string) : option string :=
  match d with
  | [] => None
  | (k, v) :: d' => if String.eqb k key then Some v else dict_get d' key
  end.

Definition convert_welsh_date (welsh_date : string) : result string :=
  match split (of_string welsh_date) with
  | [day; month_welsh; year] =>
      match dict_get WELSH_MONTHS (to_string month_welsh) with
      | None => Raise (KeyError (to_string month_welsh))
      | Some month =>
          Ok (to_string (year ++ of_string "-" ++ of_string month
                           ++ of_string "-" ++ day))
      end
  | _ => Raise (ValueError "wrong number of values to unpack")
  end.

Section LocalClock.

(** The UTC offset, in seconds east of Greenwich, that the process's
    local time zone applies at a given local wall-clock reading (itself
    in seconds since 1970-01-01T00:00:00 on the local clock).
    [datetime.timestamp()] of a naive datetime reads it on that clock. *)
Variable utcoffset : Z -> Z.

(** [int(d.timestamp())] for a naive midnight.  The search for the
    offset also reads the clock a day earlier, which the first day of
    year 1 does not have: there it raises. *)
Definition datetime_timestamp (ymd : Z * Z * Z) : result Z :=
  let '(y, m, d) := ymd in
  if Datetime._ymd2ord y m d =? 1
  then Raise (ValueError "year 0 is out of range")
  else
    let t := Datetime.naive_seconds ymd in
    Ok (t - utcoffset t).

Definition parse_welsh_date (welsh_date : string) : result Z :=
  let* iso := convert_welsh_date welsh_date in
  let* ymd := Datetime.strptime_Y_m_d iso in
  datetime_timestamp ymd.

End LocalClock.

(** [datetime.datetime.utcfromtimestamp(timestamp)], date fields. *)
Definition utcfromtimestamp (timestamp : Z) : result (Z * Z * Z) :=
  let '(y, m, d) :=
    Datetime._ord2ymd (timestamp / 86400 + Datetime.EPOCH_ORDINAL) in
  if (Datetime.MINYEAR <=? y) && (y <=? Datetime.MAXYEAR)
  then Ok (y, m, d)
  else Raise (ValueError "year is out of range").

(** The digits [%Y] writes for a year from 1 to 9999: the C library
    formats it, and glibc does not pad a year below 1000. *)
Definition year_width (y : Z) : nat :=
  if y <? 10 then 1%nat
  else if y <? 100 then 2%nat
  else if y <? 1000 then 3%nat
  else 4%nat.

(** [d.strftime('%Y%m%d')] *)
Definition strftime_Ymd (ymd : Z * Z * Z) : string :=
  let '(y, m, d) := ymd in
  to_string (Datetime.zero_pad (year_width y) y ++ Datetime.zero_pad 2 m
               ++ Datetime.zero_pad 2 d).

Definition format_date (timestamp : Z) : result string :=
  let* ymd := utcfromtimestamp timestamp in
  Ok (strftime_Ymd ymd).

(** ** Payloads *)

(** One programme of the catalogue.  Every listed programme carries
    its identifier; the other keys may be absent. *)
Record UpstreamEpisode := {
  ep_id : string;
  ep_series_title : option string;
  ep_programme_title : option string;
  ep_full_billing : option string;
  ep_duration : option Z;
  ep_mpg : option string;
  ep_thumbnail_url : option string;
  ep_series_id : option string;
  ep_last_tx : option string;
  ep_clic_aired : option string
}.

(** A subtitle descriptor is a dictionary keyed positionally:
    ["0"] holds the VTT address and ["3"] the language code. *)
Abbreviation SubtitleDescriptor := (gmap string string).

(** The keys read from a player configuration. *)
Record PlayerConfiguration := {
  cfg_filename : option string;
  cfg_poster : option string;
  cfg_subtitles : option (list SubtitleDescriptor)
}.

(** The manifest addresses of one region, by kind
    (["hls"], ["dash"], ["fvp"], ["dvb"]). *)
Abbreviation StreamingUrls := (gmap string string).

Record SeriesData := {
  full_prog_details : option (list UpstreamEpisode);
  other_progs_in_series : option (list UpstreamEpisode)
}.

Record Format := {
  format_id : string;
  format_url : string
}.

Record SubtitleTrack := {
  url : string;
  ext : string
}.

Record CanonicalRecord := {
  id : string;
  title : string;
  description : string;
  thumbnail : option string;
  duration : Z;
  formats : list Format;
  subtitles : gmap string (list SubtitleTrack);
  series : string;
  series_id : option string;
  season_number : Z;
  episode : string;
  episode_number : option Z;
  episode_id : string;
  timestamp : option Z;
  upload_date : option string;
  release_timestamp : option Z;
  release_date : option string;
  release_year : option Z;
  modified_timestamp : option Z;
  modified_date : option string
}.

Record UrlResult := {
  ur_url : string;
  ur_ie_key : string;
  ur_video_id : string
}.

(** What a resolver hands back to the framework. *)
Inductive Info : Type :=
| Video (r : CanonicalRecord)
| Playlist (entries : list UrlResult) (playlist_id : option string)
    (playlist_title : option string).

(** Python truthiness of an optional string: present and non-empty. *)
Definition truthy (o : option string) : bool :=
  match o with
  | Some s => negb (String.eqb s "")
  | None => false
  end.

(** ** The services inherited from the framework's [InfoExtractor] *)

Class InfoExtractor := {
  (** [_download_json] on the player-configuration endpoint;
      [None]: no data, or an empty object *)
  download_player_configuration : string -> option PlayerConfiguration;
  (** [_download_json(..., fatal=False)] on the streaming-urls endpoint,
      by region, filename and programme id; [None]: the fetch failed *)
  download_streaming_urls : string -> string -> string -> option StreamingUrls;
  (** [_download_json] on the series_details endpoint *)
  download_series_details : string -> SeriesData;
  (** [_download_json] on the full_prog_details endpoint *)
  download_full_prog_details : string -> SeriesData;
  (** [_extract_m3u8_formats(url, video_id, 'mp4', 'm3u8_native',
      m3u8_id=..., fatal=False)] *)
  _extract_m3u8_formats : option string -> string -> string -> list Format;
  (** [_extract_mpd_formats(url, video_id, mpd_id=..., fatal=False)] *)
  _extract_mpd_formats : option string -> string -> string -> list Format
}.

(** ** [S4CClicBaseIE] *)

Module S4CClicBaseIE.

Import Re.

Definition _BASE_URL : string := "https://www.s4c.cymru/clic/".

Definition digit : regex := Cls Char.is_digit.
Definition space : regex := Cls Char.is_space.

(** [[;:,\-_\.\s]] *)
Definition separator (a : ascii) : bool :=
  one_of ";:,-_." a || Char.is_space a.

(** [^(?:Pennod|Episode)\s*(\d+)] *)
Definition re_episode_title : regex :=
  seq [Bol; Alt (Lit "Pennod") (Lit "Episode"); Star space; Grp 1 (Plus digit)].

Definition _extract_episode_number_from_title (title : string) : option Z :=
  match re_match false re_episode_title (of_string title) with
  | Some mobj => Some (int_of_digits (group 1 mobj))
  | None => None
  end.

(** [^(\d+)[;:,\-_\.\s]*] *)
Definition re_leading_number : regex :=
  seq [Bol; Grp 1 (Plus digit); Star (Cls separator)].

(** [^\d+[;:,\-_\.\s]*] *)
Definition re_leading_number_sub : regex :=
  seq [Bol; Plus digit; Star (Cls separator)].

Definition _extract_episode_number_from_text (text : string)
    : option Z * string :=
  match re_match false re_leading_number (of_string text) with
  | Some mobj =>
      (Some (int_of_digits (group 1 mobj)),
       to_string (strip (re_sub_empty false re_leading_number_sub
                           (of_string text))))
  | None => (None, text)
  end.

(** [\s*[-:;,_\.\s]*\s*(Cyfres|Season)\s*X?(\d+)] *)
Definition re_season_with_separators : regex :=
  seq [Star space; Star (Cls separator); Star space;
       Grp 1 (Alt (Lit "Cyfres") (Lit "Season"));
       Star space; Opt (Chr "X"); Grp 2 (Plus digit)].

(** [(Cyfres|Season)\s*X?(\d+)] *)
Definition re_season : regex :=
  seq [Grp 1 (Alt (Lit "Cyfres") (Lit "Season"));
       Star space; Opt (Chr "X"); Grp 2 (Plus digit)].

Definition _extract_season_number_from_title (title : string)
    : option Z * string :=
  (* First, try to match with separators *)
  match re_search true re_season_with_separators (of_string title) with
  | Some mobj =>
      let season_number := int_of_digits (group 2 mobj) in
      let title := to_string (strip (remove_all (group 0 mobj) (of_string title))) in
      (Some season_number, title)
  | None =>
      (* Fallback to match without separators *)
      match re_search true re_season (of_string title) with
      | Some mobj =>
          let season_number := int_of_digits (group 2 mobj) in
          let title := to_string (strip (remove_all (group 0 mobj) (of_string title))) in
          (Some season_number, title)
      | None => (None, title)
      end
  end.

(** [\bE(\d+)\b] *)
Definition re_episode : regex :=
  seq [Wordb; Chr "E"; Grp 1 (Plus digit); Wordb].

Definition _extract_episode_number (text : string) : option Z :=
  match re_search false re_episode (of_string text) with
  | Some mobj => Some (int_of_digits (group 1 mobj))
  | None => None
  end.

(** [[_-](?:pennod|episode)_?(\d+)] *)
Definition re_filename : regex :=
  seq [Cls (one_of "_-"); Alt (Lit "pennod") (Lit "episode");
       Opt (Chr "_"); Grp 1 (Plus digit)].

Definition _extract_episode_number_from_filename (filename : string)
    : option Z :=
  match re_search true re_filename (of_string filename) with
  | Some mobj => Some (int_of_digits (group 1 mobj))
  | None => None
  end.

(** [_P(\d+)] *)
Definition re_thumbnail : regex :=
  seq [Chr "_"; Chr "P"; Grp 1 (Plus digit)].

Definition _extract_episode_number_from_thumbnail (thumbnail_url : string)
    : option Z :=
  match re_search false re_thumbnail (of_string thumbnail_url) with
  | Some mobj => Some (int_of_digits (group 1 mobj))
  | None => None
  end.






Section Extraction.

Context `{InfoExtractor}.
Variable utcoffset : Z -> Z.

(** [if not streaming_urls] *)
Definition no_data (o : option StreamingUrls) : bool :=
  match o with
  | None => true
  | Some streaming_urls => bool_decide (streaming_urls = ∅)
  end.

(** One turn of the loop over the regions: what it appends. *)
Definition region_formats (filename programme_id region : string)
    : list Format :=
  let streaming_urls := download_streaming_urls region filename programme_id in
  if no_data streaming_urls then []
  else
    let streaming_urls := default ∅ streaming_urls in
    _extract_m3u8_formats (streaming_urls !! "hls") filename ("hls-" +:+ region)
    ++ _extract_mpd_formats (streaming_urls !! "dash") filename ("dash-" +:+ region)
    ++ _extract_mpd_formats (streaming_urls !! "fvp") filename ("fvp-" +:+ region)
    ++ _extract_mpd_formats (streaming_urls !! "dvb") filename ("dvb-" +:+ region).

Definition REGIONS : list string := ["WW"; "UK"]%string.

Definition _fetch_and_validate_streaming_urls (filename programme_id : string)
    : list Format :=
  fold_left
    (fun formats region => formats ++ region_formats filename programme_id region)
    REGIONS [].

(** [subtitles.setdefault(lang_code, []).append(track)] *)
Definition setdefault_append (lang_code : string) (track : SubtitleTrack)
    (subtitles : gmap string (list SubtitleTrack))
    : gmap string (list SubtitleTrack) :=
  <[lang_code := default [] (subtitles !! lang_code) ++ [track]]> subtitles.

(** The body of the loop over the subtitle descriptors. *)
Definition add_subtitle (subtitles : gmap string (list SubtitleTrack))
    (subtitle : SubtitleDescriptor) : gmap string (list SubtitleTrack) :=
  let lang_code := subtitle !! "3"%string in
  let vtt_url := subtitle !! "0"%string in
  if truthy lang_code && truthy vtt_url
  then setdefault_append (default "" lang_code)
         {| url := default "" vtt_url; ext := "vtt" |} subtitles
  else subtitles.

Definition collect_subtitles (subtitles_list : list SubtitleDescriptor)
    : gmap string (list SubtitleTrack) :=
  fold_left add_subtitle subtitles_list ∅.

Definition _extract_episode_info (episode : UpstreamEpisode)
    (programme_id : string) : result CanonicalRecord :=
  let series_title :=
    if truthy (ep_series_title episode)
    then default "" (ep_series_title episode)
    else default "No Title" (ep_programme_title episode) in
  let description := default "No Description" (ep_full_billing episode) in
  let duration := default 0 (ep_duration episode) * 60 in

  (* Parse the title and extract season number if available *)
  let '(season_number, title) := _extract_season_number_from_title series_title in
  let programme_title := default "" (ep_programme_title episode) in
  let episode_number := _extract_episode_number_from_title programme_title in
  let '(episode_number, programme_title) :=
    match episode_number with
    | None => _extract_episode_number_from_text programme_title
    | Some _ => (episode_number, programme_title)
    end in
  let episode_title := programme_title in

  (* Use series title if no specific episode title *)
  let episode_title :=
    if String.eqb episode_title "" then title else episode_title in

  (* Extract episode number from filename and thumbnail URL if not found *)
  let mpg_filename := default "" (ep_mpg episode) in
  let episode_number :=
    match episode_number with
    | None => _extract_episode_number mpg_filename
    | Some _ => episode_number
    end in

  let thumbnail_url := default "" (ep_thumbnail_url episode) in
  let episode_number :=
    match episode_number with
    | None => _extract_episode_number_from_thumbnail thumbnail_url
    | Some _ => episode_number
    end in

  (* Extract episode number from filename *)
  let episode_number :=
    match episode_number with
    | None =>
        if negb (String.eqb mpg_filename "")
        then _extract_episode_number_from_filename mpg_filename
        else None
    | Some _ => episode_number
    end in

  (* Fetch additional data including filename and poster *)
  match download_player_configuration programme_id with
  | None => Raise (ExtractorError "Unable to fetch player configuration")
  | Some config_data =>
      if negb (truthy (cfg_filename config_data))
      then Raise (ExtractorError "Filename is missing in the player configuration")
      else
        let mpg_filename := default "" (cfg_filename config_data) in
        let thumbnail := cfg_poster config_data in

        let formats := _fetch_and_validate_streaming_urls mpg_filename programme_id in

        match formats with
        | [] => Raise (ExtractorError "Unable to fetch valid streaming URLs")
        | _ :: _ =>
            (* Handle subtitles *)
            let subtitles :=
              collect_subtitles (default [] (cfg_subtitles config_data)) in

            (* Extract dates *)
            let last_tx := ep_last_tx episode in
            let clic_aired := ep_clic_aired episode in
            let* release :=
              if truthy last_tx
              then
                let* release_timestamp :=
                  parse_welsh_date utcoffset (default "" last_tx) in
                let* release_date := format_date release_timestamp in
                Ok (Some release_timestamp, Some release_date,
                    Some (int_of_digits (firstn 4 (of_string release_date))))
              else Ok (None, None, None) in
            let '(release_timestamp, release_date, release_year) := release in
            let* modified :=
              if truthy clic_aired
              then
                let* modified_timestamp :=
                  parse_welsh_date utcoffset (default "" clic_aired) in
                let* modified_date := format_date modified_timestamp in
                Ok (Some modified_timestamp, Some modified_date)
              else Ok (None, None) in
            let '(modified_timestamp, modified_date) := modified in

            (* Default season number to 0 if not set *)
            let season_number := default 0 season_number in

            Ok {| id := programme_id;
                  title := title;
                  description := description;
                  thumbnail := thumbnail;
                  duration := duration;
                  formats := formats;
                  subtitles := subtitles;
                  series := title;
                  series_id := ep_series_id episode;
                  season_number := season_number;
                  episode := episode_title;
                  episode_number := episode_number;
                  episode_id := programme_id;
                  timestamp := release_timestamp;
                  upload_date := release_date;
                  release_timestamp := release_timestamp;
                  release_date := release_date;
                  release_year := release_year;
                  modified_timestamp := modified_timestamp;
                  modified_date := modified_date |}
        end
  end.

End Extraction.

End S4CClicBaseIE.

(** ** The three resolvers *)

(** [S4CClicProgrammeIndividualIE.ie_key()] *)
Definition S4CClicProgrammeIndividualIE_ie_key : string :=
  "S4CClicProgrammeIndividual".

(** [not payload.get(key)] for a key holding a list. *)
Definition falsy_list {A : Type} (o : option (list A)) : bool :=
  match o with
  | None | Some [] => true
  | Some (_ :: _) => false
  end.

(** [payload['full_prog_details'][0]] *)
Definition first_programme (payload : SeriesData) : result UpstreamEpisode :=
  match full_prog_details payload with
  | None => Raise (KeyError "full_prog_details")
  | Some [] => Raise (IndexError "list index out of range")
  | Some (episode :: _) => Ok episode
  end.

(** One child reference per programme of both lists, as built by the
    list comprehension shared by the two expanding resolvers. *)
Definition playlist_entries (series_data : SeriesData) : list UrlResult :=
  map
    (fun episode =>
       {| ur_url := S4CClicBaseIE._BASE_URL +:+ "programme/" +:+ ep_id episode;
          ur_ie_key := S4CClicProgrammeIndividualIE_ie_key;
          ur_video_id := ep_id episode |})
    (default [] (full_prog_details series_data)
     ++ default [] (other_progs_in_series series_data)).

(** What [playlist_result] keeps of an identifier or a title handed to
    it: a falsy one is left out of the result. *)
Definition kept (o : option string) : option string :=
  if truthy o then o else None.

(** [try_get(series_data, lambda x: x['full_prog_details'][0]['series_title'], str)],
    as [playlist_result] keeps it. *)
Definition playlist_title_of (series_data : SeriesData) : option string :=
  match full_prog_details series_data with
  | Some (episode :: _) => kept (ep_series_title episode)
  | _ => None
  end.

(** [str(x)] inside an f-string, for an optional identifier. *)
Definition str_of_optional (o : option string) : string := default "None" o.

Module S4CClicSeriesIE.

(** [https?://(?:www\.)?s4c\.cymru/clic/series/(?P<id>\d+)] *)
Definition _VALID_URL : Re.regex :=
  Re.seq [Re.Lit "http"; Re.Opt (Re.Chr "s"); Re.Lit "://";
          Re.Opt (Re.Lit "www."); Re.Lit "s4c.cymru/clic/series/";
          Re.Grp 1 (Re.Plus S4CClicBaseIE.digit)].

Section Resolver.

Context `{InfoExtractor}.
Variable utcoffset : Z -> Z.

Definition _extract_video_info (series_id : string) : result Info :=
  let series_data := download_series_details series_id in
  if falsy_list (other_progs_in_series series_data)
  then
    let* episode := first_programme series_data in
    let* record := S4CClicBaseIE._extract_episode_info utcoffset episode series_id in
    Ok (Video record)
  else
    (* series_id is the identifier matched in the address: never empty,
       so playlist_result keeps it *)
    Ok (Playlist (playlist_entries series_data) (Some series_id)
          (playlist_title_of series_data)).

End Resolver.

End S4CClicSeriesIE.

Module S4CClicProgrammeIE.

(** [https?://(?:www\.)?s4c\.cymru/clic/programme/(?P<id>\d+)] *)
Definition _VALID_URL : Re.regex :=
  Re.seq [Re.Lit "http"; Re.Opt (Re.Chr "s"); Re.Lit "://";
          Re.Opt (Re.Lit "www."); Re.Lit "s4c.cymru/clic/programme/";
          Re.Grp 1 (Re.Plus S4CClicBaseIE.digit)].

Section Resolver.

Context `{InfoExtractor}.
Variable utcoffset : Z -> Z.

Definition _extract_video_info (programme_id : string) : result Info :=
  let programme_data := download_full_prog_details programme_id in
  let* programme := first_programme programme_data in
  let series_id := ep_series_id programme in
  if falsy_list (other_progs_in_series programme_data)
  then
    let* record :=
      S4CClicBaseIE._extract_episode_info utcoffset programme programme_id in
    Ok (Video record)
  else
    (* Get the series data to fetch all episodes in the series *)
    let series_data := download_series_details (str_of_optional series_id) in
    Ok (Playlist (playlist_entries series_data) (kept series_id)
          (playlist_title_of series_data)).

End Resolver.

End S4CClicProgrammeIE.

Module S4CClicProgrammeIndividualIE.

(** [https?://(?:www\.)?s4c\.cymru/clic/programme/(?P<id>\d+)] *)
Definition _VALID_URL : Re.regex :=
  Re.seq [Re.Lit "http"; Re.Opt (Re.Chr "s"); Re.Lit "://";
          Re.Opt (Re.Lit "www."); Re.Lit "s4c.cymru/clic/programme/";
          Re.Grp 1 (Re.Plus S4CClicBaseIE.digit)].

Section Resolver.

Context `{InfoExtractor}.
Variable utcoffset : Z -> Z.

Definition _extract_video_info (programme_id : string) : result Info :=
  let programme_data := download_full_prog_details programme_id in
  let* programme := first_programme programme_data in
  let* record :=
    S4CClicBaseIE._extract_episode_info utcoffset programme programme_id in
  Ok (Video record).

End Resolver.

End S4CClicProgrammeIndividualIE.

(** ** From an address to a resolver *)

(** [InfoExtractor._match_id]: the group [id] of
    [re.match(_VALID_URL, url)]; [None] when the address is not one of
    the extractor's. *)
Definition _match_id (valid_url : Re.regex) (url : string) : option string :=
  match Re.re_match false valid_url (Text.of_string url) with
  | Some mobj => Some (Text.to_string (Re.group 1 mobj))
  | None => None
  end.

(** [S4CClicBaseIE._real_extract], inherited by the three resolvers;
    [extract_video_info] stands for the subclass's [_extract_video_info].
    An address that is not the extractor's is not handed to it. *)
Definition _real_extract (valid_url : Re.regex)
    (extract_video_info : string -> result Info) (url : string)
    : option (result Info) :=
  match _match_id valid_url url with
  | Some video_id => Some (extract_video_info video_id)
  | None => None
  end.

(** The addresses, spelled out. *)
Module Routing.

(** A non-empty run of decimal digits. *)
Definition numeric (s : string) : bool :=
  match Text.of_string s with
  | [] => false
  | a :: run => forallb Char.is_digit (a :: run)
  end.

Definition begins_with_digit (s : string) : bool :=
  match Text.of_string s with
  | a :: _ => Char.is_digit a
  | [] => false
  end.

(** [http(s)://(www.)s4c.cymru/clic/<kind>/<id><rest>] *)
Definition address (secure www : bool) (kind id rest : string) : string :=
  "http" +:+ (if secure then "s" else "") +:+ "://"
  +:+ (if www then "www." else "") +:+ "s4c.cymru/clic/" +:+ kind +:+ "/"
  +:+ id +:+ rest.

(** The same address as a text, up to what follows the last slash. *)
Definition address_text (secure www : bool) (kind : string)
    (tail : Text.text) : Text.text :=
  Text.of_string "http" ++ (if secure then ["s"%char] else [])
  ++ Text.of_string "://" ++ (if www then Text.of_string "www." else [])
  ++ Text.of_string ("s4c.cymru/clic/" +:+ kind +:+ "/") ++ tail.

(** The shape shared by the three [_VALID_URL] patterns. *)
Definition pattern (kind : string) : Re.regex :=
  Re.seq [Re.Lit "http"; Re.Opt (Re.Chr "s"); Re.Lit "://";
          Re.Opt (Re.Lit "www."); Re.Lit ("s4c.cymru/clic/" +:+ kind +:+ "/");
          Re.Grp 1 (Re.Plus S4CClicBaseIE.digit)].

End Routing.

(** ** What the patterns denote *)

Module ReSpec.

Import Re.

(** [matches ic r p s p' s']: starting after character [p] with [s]
    ahead, pattern [r] can consume input up to the point where [p'] is
    behind the cursor and [s'] is ahead. *)
Inductive matches (ic : bool)
    : regex -> option ascii -> text -> option ascii -> text -> Prop :=
| M_Eps p s : matches ic Eps p s p s
| M_Chr a b p s :
    Char.eqc ic a b = true -> matches ic (Chr a) p (b :: s) (Some b) s
| M_Cls (f : ascii -> bool) b p s :
    f b = true -> matches ic (Cls f) p (b :: s) (Some b) s
| M_Cat r1 r2 p s p1 s1 p2 s2 :
    matches ic r1 p s p1 s1 -> matches ic r2 p1 s1 p2 s2 ->
    matches ic (Cat r1 r2) p s p2 s2
| M_AltL r1 r2 p s p' s' :
    matches ic r1 p s p' s' -> matches ic (Alt r1 r2) p s p' s'
| M_AltR r1 r2 p s p' s' :
    matches ic r2 p s p' s' -> matches ic (Alt r1 r2) p s p' s'
| M_StarStop r p s : matches ic (Star r) p s p s
| M_StarStep r p s p1 s1 p2 s2 :
    matches ic r p s p1 s1 -> matches ic (Star r) p1 s1 p2 s2 ->
    matches ic (Star r) p s p2 s2
| M_Plus r p s p1 s1 p2 s2 :
    matches ic r p s p1 s1 -> matches ic (Star r) p1 s1 p2 s2 ->
    matches ic (Plus r) p s p2 s2
| M_OptSome r p s p' s' :
    matches ic r p s p' s' -> matches ic (Opt r) p s p' s'
| M_OptNone r p s : matches ic (Opt r) p s p s
| M_Grp n r p s p' s' :
    matches ic r p s p' s' -> matches ic (Grp n r) p s p' s'
| M_Bol s : matches ic Bol None s None s
| M_Wordb p s :
    xorb (word_at p) (word_at (head s)) = true -> matches ic Wordb p s p s.

(** The numbers of the capturing groups of a pattern. *)
Fixpoint group_numbers (r : regex) : list nat :=
  match r with
  | Eps | Chr _ | Cls _ | Bol | Wordb => []
  | Cat r1 r2 | Alt r1 r2 => group_numbers r1 ++ group_numbers r2
  | Star r1 | Plus r1 | Opt r1 => group_numbers r1
  | Grp n r1 => n :: group_numbers r1
  end.

End ReSpec.

(** ** Markers, stated without the matcher *)

Module Marker.

Import Text.

(** [t] begins with the word [w], letter case apart; what follows it. *)
Fixpoint after_word (w t : text) : option text :=
  match w, t with
  | [], _ => Some t
  | a :: w', b :: t' => if Char.eqc true a b then after_word w' t' else None
  | _ :: _, [] => None
  end.

Definition starts_with_digit (t : text) : bool :=
  match t with
  | a :: _ => Char.is_digit a
  | [] => false
  end.

(** An optional letter [x], then a digit. *)
Definition x_then_digit (ic : bool) (x : ascii) (t : text) : bool :=
  starts_with_digit t
  || match t with
     | a :: t' => Char.eqc ic x a && starts_with_digit t'
     | [] => false
     end.

(** The word [w] is here, letter case apart, and [tail] accepts what
    follows it. *)
Definition word_then (w : string) (tail : text -> bool) (t : text) : bool :=
  match after_word (of_string w) t with
  | Some rest => tail rest
  | None => false
  end.

(** [here] holds at some position of the text; it is shown the
    character before the position and the text from it. *)
Fixpoint scan (here : option ascii -> text -> bool) (prev : option ascii)
    (t : text) : bool :=
  here prev t
  || match t with
     | [] => false
     | a :: t' => scan here (Some a) t'
     end.

(** A season marker begins here: "Cyfres" or "Season" in any letter
    case, optional blanks, an optional "X", a digit. *)
Definition season_tail (rest : text) : bool :=
  x_then_digit true "X" (lstrip rest).

Definition season_marker_here (t : text) : bool :=
  word_then "Cyfres" season_tail t || word_then "Season" season_tail t.

Definition has_season_marker (title : string) : bool :=
  scan (fun _ => season_marker_here) None (of_string title).

(** The characters at the front of [t] that satisfy [f], and what
    follows them. *)
Fixpoint span (f : ascii -> bool) (t : text) : text * text :=
  match t with
  | a :: t' =>
      if f a then let '(run, rest) := span f t' in (a :: run, rest)
      else ([], t)
  | [] => ([], [])
  end.

(** "E", a run of digits, and no word character on either side. *)
Definition episode_token_here (prev : option ascii) (t : text) : bool :=
  match t with
  | a :: t' =>
      negb (Re.word_at prev)
      && Ascii.eqb a "E"
      && starts_with_digit t'
      && negb (Re.word_at (head (snd (span Char.is_digit t'))))
  | [] => false
  end.

Definition has_episode_token (text : string) : bool :=
  scan episode_token_here None (of_string text).

(** "_P" and a digit. *)
Definition thumbnail_marker_here (t : text) : bool :=
  match t with
  | a :: b :: t' => Ascii.eqb a "_" && Ascii.eqb b "P" && starts_with_digit t'
  | _ => false
  end.

Definition has_thumbnail_marker (thumbnail_url : string) : bool :=
  scan (fun _ => thumbnail_marker_here) None (of_string thumbnail_url).

(** A hyphen or underscore, "pennod" or "episode" in any letter case,
    an optional underscore, a digit. *)
Definition filename_marker_here (t : text) : bool :=
  match t with
  | a :: t' =>
      Re.one_of "_-" a
      && (word_then "pennod" (x_then_digit true "_") t'
          || word_then "episode" (x_then_digit true "_") t')
  | [] => false
  end.

Definition has_filename_marker (filename : string) : bool :=
  scan (fun _ => filename_marker_here) None (of_string filename).


End Marker.

(** ** Text of the ASCII range *)

Module Plain.

Definition is_ascii (a : ascii) : bool := (Char.code a <? 128)%N.

Definition text_is_ascii (t : Text.text) : bool := forallb is_ascii t.

Definition plain (s : string) : bool := text_is_ascii (Text.of_string s).

End Plain.

(** ** The numbers behind the markers, read without the matcher *)

Module Reading.

Import Text Marker.

(** The number written by the digits at the front of [t]. *)
Definition number_at (t : text) : Z :=
  int_of_digits (fst (span Char.is_digit t)).

(** The number at [digits_from t], for the first position [t] of the
    text, from the left, at which [here] holds. *)
Fixpoint first_number (here : option ascii -> text -> bool)
    (digits_from : text -> text) (prev : option ascii) (t : text)
    : option Z :=
  if here prev t then Some (number_at (digits_from t))
  else match t with
       | [] => None
       | a :: t' => first_number here digits_from (Some a) t'
       end.

(** What follows the word [w], or else the word [w'], letter case
    apart. *)
Definition after_either (w w' : string) (t : text) : text :=
  match after_word (of_string w) t with
  | Some rest => rest
  | None => default [] (after_word (of_string w') t)
  end.

(** [t] without the letter [x] at its front, if it is there. *)
Definition without (x : ascii) (t : text) : text :=
  match t with
  | a :: t' => if Char.eqc true x a then t' else t
  | [] => []
  end.

(** After the first "_P" that a digit follows. *)
Definition thumbnail_number (thumbnail_url : string) : option Z :=
  first_number (fun _ => thumbnail_marker_here) (skipn 2) None
    (of_string thumbnail_url).

(** After the first free-standing "E<digits>". *)
Definition episode_token_number (text : string) : option Z :=
  first_number episode_token_here (skipn 1) None (of_string text).

(** After the first "-pennod", "_episode" and the like, and an optional
    underscore. *)
Definition filename_number (filename : string) : option Z :=
  first_number (fun _ => filename_marker_here)
    (fun t => without "_" (after_either "pennod" "episode" (skipn 1 t)))
    None (of_string filename).

(** A season marker, possibly behind separators. *)
Definition season_here (t : text) : bool :=
  season_marker_here (snd (span S4CClicBaseIE.separator t)).

Definition season_digits (t : text) : text :=
  without "X"
    (lstrip (after_either "Cyfres" "Season"
               (snd (span S4CClicBaseIE.separator t)))).

(** After the first "Cyfres"/"Season", blanks and an optional "X". *)
Definition season_number_of (title : string) : option Z :=
  first_number (fun _ => season_here) season_digits None (of_string title).

(** The text from the first position, from the left, at which [here]
    holds. *)
Fixpoint first_place (here : option ascii -> text -> bool)
    (prev : option ascii) (t : text) : option text :=
  if here prev t then Some t
  else match t with
       | [] => None
       | a :: t' => first_place here (Some a) t'
       end.

(** The season of a title and the title without it: the first season
    marker, with the separators in front of it and up to its last digit,
    is deleted wherever it occurs in the title, and the rest is
    trimmed. *)
Definition season_of (title : string) : option Z * string :=
  match first_place (fun _ => season_here) None (of_string title) with
  | Some t =>
      let '(digits, rest) := span Char.is_digit (season_digits t) in
      let marker := firstn (length t - length rest) t in
      (Some (int_of_digits digits),
       to_string (strip (remove_all marker (of_string title))))
  | None => (None, title)
  end.

(** After "Pennod" or "Episode", spelled so, at the very front, and
    blanks. *)
Definition title_marker_number (title : string) : option Z :=
  let t := of_string title in
  let rest :=
    if starts_with (of_string "Pennod") t then Some (skipn 6 t)
    else if starts_with (of_string "Episode") t then Some (skipn 7 t)
    else None in
  match rest with
  | Some rest =>
      if starts_with_digit (lstrip rest) then Some (number_at (lstrip rest))
      else None
  | None => None
  end.

End Reading.

(** ** The written specification of two steps, for comparison *)

Module Written.

Import Text Marker.

(** The first source of a list that yields a number. *)
Fixpoint first_some (sources : list (option Z)) : option Z :=
  match sources with
  | [] => None
  | Some n :: _ => Some n
  | None :: sources' => first_some sources'
  end.

(** The leading numeric prefix as the specification words it: a run of
    digits followed by a separator character. *)
Definition digits_then_separator (text : string) : option Z * string :=
  let '(digits, rest) := span Char.is_digit (of_string text) in
  match digits, rest with
  | _ :: _, a :: _ =>
      if S4CClicBaseIE.separator a
      then (Some (int_of_digits digits),
            to_string (strip (snd (span S4CClicBaseIE.separator rest))))
      else (None, text)
  | _, _ => (None, text)
  end.


(** Subtitle normalisation as worded: a descriptor is kept when both of
    its keys are there. *)
Definition written_add_subtitle (subtitles : gmap string (list SubtitleTrack))
    (subtitle : SubtitleDescriptor) : gmap string (list SubtitleTrack) :=
  match subtitle !! "3"%string, subtitle !! "0"%string with
  | Some lang_code, Some vtt_url =>
      S4CClicBaseIE.setdefault_append lang_code
        {| url := vtt_url; ext := "vtt" |} subtitles
  | _, _ => subtitles
  end.

Definition written_collect_subtitles (subtitles_list : list SubtitleDescriptor)
    : gmap string (list SubtitleTrack) :=
  fold_left written_add_subtitle subtitles_list ∅.

(** The tracks of one language, in input order, among the descriptors
    whose language code and address are both present and non-empty. *)
Definition tracks_for (lang_code : string)
    (subtitles_list : list SubtitleDescriptor) : list SubtitleTrack :=
  flat_map
    (fun subtitle : SubtitleDescriptor =>
       if truthy (subtitle !! "3"%string) && truthy (subtitle !! "0"%string)
          && String.eqb (default "" (subtitle !! "3"%string)) lang_code
       then [ {| url := default "" (subtitle !! "0"%string); ext := "vtt" |} ]
       else [])
    subtitles_list.

(** What one language holds after more tracks were appended. *)
Definition extended (held : option (list SubtitleTrack))
    (more : list SubtitleTrack) : option (list SubtitleTrack) :=
  match more with
  | [] => held
  | _ :: _ => Some (default [] held ++ more)
  end.

(** The spec's error kinds, read off the messages raised. *)
Definition UpstreamFetchError (e : exn) : Prop :=
  e = ExtractorError "Unable to fetch player configuration"
  \/ e = ExtractorError "Filename is missing in the player configuration".

Definition StreamingUnavailableError (e : exn) : Prop :=
  e = ExtractorError "Unable to fetch valid streaming URLs".

Definition fails_with {A : Type} (kind : exn -> Prop) (r : result A) : Prop :=
  exists e, r = Raise e /\ kind e.

Section Regions.

Context `{InfoExtractor}.

(** What the answer of one region yields: the formats resolved from
    its manifest addresses, kind by kind. *)
Definition resolved_formats (filename region : string)
    (streaming_urls : StreamingUrls) : list Format :=
  _extract_m3u8_formats (streaming_urls !! "hls"%string) filename
    ("hls-" +:+ region)
  ++ _extract_mpd_formats (streaming_urls !! "dash"%string) filename
       ("dash-" +:+ region)
  ++ _extract_mpd_formats (streaming_urls !! "fvp"%string) filename
       ("fvp-" +:+ region)
  ++ _extract_mpd_formats (streaming_urls !! "dvb"%string) filename
       ("dvb-" +:+ region).

(** What one region adds to the formats: nothing when its fetch fails
    or answers with nothing, else the formats its answer yields. *)
Definition region_yield (filename programme_id region : string)
    : list Format :=
  match download_streaming_urls region filename programme_id with
  | None => []
  | Some streaming_urls =>
      if bool_decide (streaming_urls = ∅) then []
      else resolved_formats filename region streaming_urls
  end.

End Regions.

End Written.

(** ** The builder's intermediate values, by name *)

Module Stages.

Import S4CClicBaseIE Written.

(** [series_title], as first assigned *)
Definition resolved_series_title (episode : UpstreamEpisode) : string :=
  if truthy (ep_series_title episode)
  then default "" (ep_series_title episode)
  else default "No Title" (ep_programme_title episode).

(** [episode_number], as finally assigned: the five sources in the
    order of the source text *)
Definition resolved_episode_number (episode : UpstreamEpisode) : option Z :=
  let programme_title := default "" (ep_programme_title episode) in
  let mpg_filename := default "" (ep_mpg episode) in
  let thumbnail_url := default "" (ep_thumbnail_url episode) in
  first_some
    [ _extract_episode_number_from_title programme_title;
      fst (_extract_episode_number_from_text programme_title);
      _extract_episode_number mpg_filename;
      _extract_episode_number_from_thumbnail thumbnail_url;
      _extract_episode_number_from_filename mpg_filename ].

(** [programme_title], after the first two sources were tried *)
Definition working_title (episode : UpstreamEpisode) : string :=
  let programme_title := default "" (ep_programme_title episode) in
  match _extract_episode_number_from_title programme_title with
  | Some _ => programme_title
  | None => snd (_extract_episode_number_from_text programme_title)
  end.

Definition not_extractor_error (e : exn) : Prop :=
  match e with
  | ExtractorError _ => False
  | _ => True
  end.

End Stages.

(** ** The builder's last stages, by name *)

Module Assembly.

Import Text S4CClicBaseIE Stages.

(** The timestamp and compact date of an optional Welsh date:
    [if field: ts = parse_welsh_date(field); d = format_date(ts)]. *)
Definition date_stage (utcoffset : Z -> Z) (field : option string)
    : result (option (Z * string)) :=
  if truthy field
  then
    let* stamp := parse_welsh_date utcoffset (default "" field) in
    let* compact := format_date stamp in
    Ok (Some (stamp, compact))
  else Ok None.

(** [int(release_date[:4])] *)
Definition year_of (compact : string) : Z :=
  int_of_digits (firstn 4 (of_string compact)).

(** The dictionary returned at the end of [_extract_episode_info]. *)
Definition assembled (episode : UpstreamEpisode) (programme_id : string)
    (config_data : PlayerConfiguration) (formats : list Format)
    (release modified : option (Z * string)) : CanonicalRecord :=
  let series_title :=
    snd (_extract_season_number_from_title (resolved_series_title episode)) in
  {| id := programme_id;
     title := series_title;
     description := default "No Description" (ep_full_billing episode);
     thumbnail := cfg_poster config_data;
     duration := default 0 (ep_duration episode) * 60;
     formats := formats;
     subtitles := collect_subtitles (default [] (cfg_subtitles config_data));
     series := series_title;
     series_id := ep_series_id episode;
     season_number :=
       default 0 (fst (_extract_season_number_from_title
                         (resolved_series_title episode)));
     episode :=
       if String.eqb (working_title episode) "" then series_title
       else working_title episode;
     episode_number := resolved_episode_number episode;
     episode_id := programme_id;
     timestamp := option_map fst release;
     upload_date := option_map snd release;
     release_timestamp := option_map fst release;
     release_date := option_map snd release;
     release_year := option_map (fun r => year_of (snd r)) release;
     modified_timestamp := option_map fst modified;
     modified_date := option_map snd modified |}.

End Assembly.

(** ** Welsh dates as text *)

Module Rendering.

Import Text.

(** The number of a Welsh month name, read off [WELSH_MONTHS]. *)
Definition month_number (name : string) : option Z :=
  option_map (fun value => int_of_digits (of_string value))
    (dict_get WELSH_MONTHS name).

(** A day of the month as the catalogue may write it: two digits, or a
    single digit below ten when not padded. *)
Definition day_text (padded : bool) (day : Z) : text :=
  if padded || (10 <=? day) then Datetime.zero_pad 2 day
  else Datetime.zero_pad 1 day.

(** "day month-name year", the year in four digits. *)
Definition welsh_date_text (padded : bool) (day : Z) (name : string)
    (year : Z) : string :=
  to_string (day_text padded day ++ " "%char :: of_string name
               ++ " "%char :: Datetime.zero_pad 4 year).

Definition blank_free (t : text) : bool :=
  forallb (fun a => negb (Char.is_space a)) t.

End Rendering.

(** ** A sample catalogue *)

Module Sample.

Definition plain_episode : UpstreamEpisode :=
  {| ep_id := "101"; ep_series_title := Some "Pobol y Cwm";
     ep_programme_title := Some ""; ep_full_billing := Some "Drama";
     ep_duration := Some 20; ep_mpg := Some "pobol_y_cwm_hd.mpg";
     ep_thumbnail_url := Some "https://www.s4c.cymru/amg/pobol.jpg";
     ep_series_id := Some "7"; ep_last_tx := None; ep_clic_aired := None |}.


Definition dated_episode : UpstreamEpisode :=
  {| ep_id := "103"; ep_series_title := Some "Rownd a Rownd - Cyfres 23";
     ep_programme_title := Some "Pennod 5"; ep_full_billing := None;
     ep_duration := Some 25; ep_mpg := Some "rownd-E7-hd.mpg";
     ep_thumbnail_url := None; ep_series_id := Some "9";
     ep_last_tx := Some "15 Ionawr 2021";
     ep_clic_aired := Some "1 Chwefror 2021" |}.

Definition misdated_episode : UpstreamEpisode :=
  {| ep_id := "104"; ep_series_title := Some "Newyddion";
     ep_programme_title := None; ep_full_billing := None;
     ep_duration := None; ep_mpg := None; ep_thumbnail_url := None;
     ep_series_id := None; ep_last_tx := Some "15 January 2021";
     ep_clic_aired := None |}.

Definition untitled_episode : UpstreamEpisode :=
  {| ep_id := "105"; ep_series_title := Some ""; ep_programme_title := None;
     ep_full_billing := None; ep_duration := None; ep_mpg := None;
     ep_thumbnail_url := None; ep_series_id := None; ep_last_tx := None;
     ep_clic_aired := None |}.

Definition listed (n : string) : UpstreamEpisode :=
  {| ep_id := n; ep_series_title := Some "Pobol y Cwm";
     ep_programme_title := None; ep_full_billing := None;
     ep_duration := None; ep_mpg := None; ep_thumbnail_url := None;
     ep_series_id := Some "7"; ep_last_tx := None; ep_clic_aired := None |}.

Definition welsh_track : SubtitleDescriptor :=
  {[ "0"%string := "https://www.s4c.cymru/sub/cy.vtt"%string;
     "3"%string := "cym"%string ]}.

Definition english_track : SubtitleDescriptor :=
  {[ "0"%string := "https://www.s4c.cymru/sub/en.vtt"%string;
     "3"%string := "eng"%string ]}.

(** Both keys are there, but the address is the empty string. *)
Definition empty_address_track : SubtitleDescriptor :=
  {[ "0"%string := ""%string; "3"%string := "cym"%string ]}.

Definition one_format (manifest : option string) (kind : string) : list Format :=
  match manifest with
  | Some address => [ {| format_id := kind; format_url := address |} ]
  | None => []
  end.

(** Programme ["404"] has no player configuration and ["405"] one
    without a filename; only the UK region answers, except for the
    asset ["blocked.mp4"], which no region serves.  Series ["7"] lists
    one programme and no siblings, any other series two and a sibling. *)
Definition catalogue : InfoExtractor :=
  {| download_player_configuration := fun programme_id =>
       if String.eqb programme_id "404" then None
       else if String.eqb programme_id "405"
       then Some {| cfg_filename := None; cfg_poster := None;
                    cfg_subtitles := None |}
       else if String.eqb programme_id "406"
       then Some {| cfg_filename := Some "blocked.mp4"; cfg_poster := None;
                    cfg_subtitles := None |}
       else Some {| cfg_filename := Some "asset.mp4";
                    cfg_poster := Some "https://www.s4c.cymru/amg/poster.jpg";
                    cfg_subtitles := Some [welsh_track; english_track] |};
     download_streaming_urls := fun region filename _ =>
       if String.eqb region "UK" && negb (String.eqb filename "blocked.mp4")
       then Some {[ "hls"%string := "https://cdn.s4c.cymru/uk.m3u8"%string ]}
       else None;
     download_series_details := fun series_id =>
       if String.eqb series_id "7"
       then {| full_prog_details := Some [plain_episode];
               other_progs_in_series := Some [] |}
       else {| full_prog_details := Some [listed "201"; listed "202"];
               other_progs_in_series := Some [listed "203"] |};
     download_full_prog_details := fun programme_id =>
       {| full_prog_details := Some [plain_episode];
          other_progs_in_series := None |};
     _extract_m3u8_formats := fun manifest _ kind => one_format manifest kind;
     _extract_mpd_formats := fun manifest _ kind => one_format manifest kind |}.

(** The same catalogue, where programme ["301"] comes with a sibling
    and belongs to series ["9"], the answer for ["302"] lacks the
    programme list and the one for ["303"] has it empty; series ["10"]
    lists a sibling and no programme of its own. *)
Definition box_set : InfoExtractor :=
  {| download_player_configuration :=
       download_player_configuration (InfoExtractor := catalogue);
     download_streaming_urls :=
       download_streaming_urls (InfoExtractor := catalogue);
     download_series_details := fun series_id =>
       if String.eqb series_id "10"
       then {| full_prog_details := None;
               other_progs_in_series := Some [listed "204"] |}
       else download_series_details (InfoExtractor := catalogue) series_id;
     download_full_prog_details := fun programme_id =>
       if String.eqb programme_id "301"
       then {| full_prog_details := Some [dated_episode];
               other_progs_in_series := Some [listed "302"] |}
       else if String.eqb programme_id "302"
       then {| full_prog_details := None; other_progs_in_series := None |}
       else if String.eqb programme_id "303"
       then {| full_prog_details := Some []; other_progs_in_series := None |}
       else download_full_prog_details (InfoExtractor := catalogue)
              programme_id;
     _extract_m3u8_formats := _extract_m3u8_formats (InfoExtractor := catalogue);
     _extract_mpd_formats := _extract_mpd_formats (InfoExtractor := catalogue) |}.

(** A process running on UTC, and one an hour east of it. *)
Definition utc : Z -> Z := fun _ => 0.
Definition utc_plus_1 : Z -> Z := fun _ => 3600.

End Sample.

(** * Properties *)

(** ** Ordinals and calendar dates are inverse to each other *)

Module DatetimeFacts.

Import Datetime.

Ltac dlia := Z.div_mod_to_equations; lia.

Lemma leap_by_digits y :
  1 <= y ->
  _is_leap y
  = (((y - 1) mod 400 mod 100 mod 4 =? 3)
     && (negb ((y - 1) mod 400 mod 100 / 4 =? 24)
         || ((y - 1) mod 400 / 100 =? 3))).
Proof.
  intros Hy. unfold _is_leap.
  destruct (Z.eqb_spec (y mod 4) 0), (Z.eqb_spec (y mod 100) 0),
    (Z.eqb_spec (y mod 400) 0),
    (Z.eqb_spec ((y - 1) mod 400 mod 100 mod 4) 3),
    (Z.eqb_spec ((y - 1) mod 400 mod 100 / 4) 24),
    (Z.eqb_spec ((y - 1) mod 400 / 100) 3); cbn; try reflexivity; exfalso; dlia.
Qed.

Lemma days_before_year_by_digits y :
  1 <= y ->
  _days_before_year y
  = 146097 * ((y - 1) / 400) + 36524 * ((y - 1) mod 400 / 100)
    + 1461 * ((y - 1) mod 400 mod 100 / 4) + 365 * ((y - 1) mod 400 mod 100 mod 4).
Proof. intros Hy. unfold _days_before_year. cbv zeta. dlia. Qed.

Lemma ord2ymd_regular q b c e n :
  0 <= q -> 0 <= b <= 3 -> 0 <= c <= 24 -> 0 <= e <= 3 -> 0 <= n <= 364 ->
  _ord2ymd (146097 * q + 36524 * b + 1461 * c + 365 * e + n + 1)
  = month_and_day (400 * q + 100 * b + 4 * c + e + 1)
      ((e =? 3) && (negb (c =? 24) || (b =? 3))) n.
Proof.
  intros Hq Hb Hc He Hn. unfold _ord2ymd, _DI400Y, _DI100Y, _DI4Y.
  set (N := 146097 * q + 36524 * b + 1461 * c + 365 * e + n + 1 - 1).
  assert (E1 : N / 146097 = q) by (subst N; dlia).
  assert (E2 : N mod 146097 = 36524 * b + 1461 * c + 365 * e + n)
    by (subst N; dlia).
  cbv zeta. rewrite E1, E2.
  assert (E3 : (36524 * b + 1461 * c + 365 * e + n) / 36524 = b) by dlia.
  assert (E4 : (36524 * b + 1461 * c + 365 * e + n) mod 36524
               = 1461 * c + 365 * e + n) by dlia.
  rewrite E3, E4.
  assert (E5 : (1461 * c + 365 * e + n) / 1461 = c) by dlia.
  assert (E6 : (1461 * c + 365 * e + n) mod 1461 = 365 * e + n) by dlia.
  rewrite E5, E6.
  assert (E7 : (365 * e + n) / 365 = e) by dlia.
  assert (E8 : (365 * e + n) mod 365 = n) by dlia.
  rewrite E7, E8.
  assert (E9 : (e =? 4) || (b =? 4) = false).
  { destruct (Z.eqb_spec e 4), (Z.eqb_spec b 4); dlia. }
  rewrite E9. unfold month_and_day. cbv zeta.
  replace (q * 400 + 1 + (b * 100 + c * 4 + e))
    with (400 * q + 100 * b + 4 * c + e + 1) by dlia.
  reflexivity.
Qed.

Lemma ord2ymd_last_day q b c :
  0 <= q -> 0 <= b <= 3 -> 0 <= c <= 24 -> (c <> 24 \/ b = 3) ->
  _ord2ymd (146097 * q + 36524 * b + 1461 * c + 365 * 3 + 365 + 1)
  = (400 * q + 100 * b + 4 * c + 3 + 1, 12, 31).
Proof.
  intros Hq Hb Hc Hleap. unfold _ord2ymd, _DI400Y, _DI100Y, _DI4Y.
  set (N := 146097 * q + 36524 * b + 1461 * c + 365 * 3 + 365 + 1 - 1).
  assert (E1 : N / 146097 = q) by (subst N; dlia).
  assert (E2 : N mod 146097 = 36524 * b + 1461 * c + 1460)
    by (subst N; dlia).
  cbv zeta. rewrite E1, E2.
  destruct (Z.eq_dec c 24) as [-> | Hc24].
  - assert (b = 3) by dlia. subst b.
    change ((36524 * 3 + 1461 * 24 + 1460) / 36524) with 4.
    change ((36524 * 3 + 1461 * 24 + 1460) mod 36524) with 0.
    change (0 / 1461) with 0. change (0 mod 1461) with 0.
    change (0 / 365) with 0. change (0 mod 365) with 0.
    change ((0 =? 4) || (4 =? 4)) with true. cbv iota.
    f_equal. f_equal. dlia.
  - assert (E3 : (36524 * b + 1461 * c + 1460) / 36524 = b) by dlia.
    assert (E4 : (36524 * b + 1461 * c + 1460) mod 36524 = 1461 * c + 1460)
      by dlia.
    rewrite E3, E4.
    assert (E5 : (1461 * c + 1460) / 1461 = c) by dlia.
    assert (E6 : (1461 * c + 1460) mod 1461 = 1460) by dlia.
    rewrite E5, E6.
    change (1460 / 365) with 4. cbn [Z.eqb orb Pos.eqb].
    f_equal. f_equal. dlia.
Qed.

Ltac tables :=
  repeat match goal with
         | |- context [at_index ?l ?k] =>
             let v := eval vm_compute in (at_index l k) in
             lazymatch v with
             | Z0 => idtac | Zpos _ => idtac | Zneg _ => idtac
             end;
             change (at_index l k) with v
         | H : context [at_index ?l ?k] |- _ =>
             let v := eval vm_compute in (at_index l k) in
             lazymatch v with
             | Z0 => idtac | Zpos _ => idtac | Zneg _ => idtac
             end;
             change (at_index l k) with v in H
         end.

Ltac flags :=
  repeat match goal with
         | |- context [Z.sub (Zpos ?a) (Zpos ?b)] =>
             let v := eval vm_compute in (Z.sub (Zpos a) (Zpos b)) in
             change (Z.sub (Zpos a) (Zpos b)) with v
         end;
  cbn [b2z andb Z.ltb Z.eqb Z.compare Pos.compare Pos.compare_cont Pos.eqb] in *.

Lemma month_and_day_of year (L : bool) m d n :
  1 <= m <= 12 ->
  1 <= d <= (if (m =? 2) && L then 29 else at_index _DAYS_IN_MONTH m) ->
  n = at_index _DAYS_BEFORE_MONTH m + b2z ((2 <? m) && L) + d - 1 ->
  month_and_day year L n = (year, m, d).
Proof.
  intros Hm Hd Hn. unfold month_and_day.
  rewrite Z.shiftr_div_pow2 by dlia. change (2 ^ 5) with 32.
  assert (Hcases : m = 1 \/ m = 2 \/ m = 3 \/ m = 4 \/ m = 5 \/ m = 6 \/ m = 7
                   \/ m = 8 \/ m = 9 \/ m = 10 \/ m = 11 \/ m = 12) by dlia.
  repeat (destruct Hcases as [-> | Hcases]); [.. | subst m];
    destruct L; tables; flags; subst n;
    match goal with
    | |- context [(?a + 50) / 32] =>
        let E := fresh "E" in
        assert (E : (a + 50) / 32 = 1 \/ (a + 50) / 32 = 2 \/ (a + 50) / 32 = 3
                    \/ (a + 50) / 32 = 4 \/ (a + 50) / 32 = 5
                    \/ (a + 50) / 32 = 6 \/ (a + 50) / 32 = 7
                    \/ (a + 50) / 32 = 8 \/ (a + 50) / 32 = 9
                    \/ (a + 50) / 32 = 10 \/ (a + 50) / 32 = 11
                    \/ (a + 50) / 32 = 12) by dlia;
        repeat (destruct E as [E | E]); rewrite E in *; cbv zeta;
        tables; flags;
        match goal with
        | |- context [?x <? ?y] => destruct (Z.ltb_spec x y)
        end; cbv beta iota; flags; tables; flags;
        first [exfalso; dlia | f_equal; dlia]
    end.
Qed.

Lemma ord2ymd_ymd2ord y m d :
  1 <= y -> 1 <= m <= 12 -> 1 <= d <= _days_in_month y m ->
  _ord2ymd (_ymd2ord y m d) = (y, m, d).
Proof.
  intros Hy Hm Hd.
  unfold _ymd2ord, _days_before_month. unfold _days_in_month in Hd.
  rewrite (days_before_year_by_digits y Hy).
  pose proof (leap_by_digits y Hy) as HL.
  set (q := (y - 1) / 400) in *.
  set (b := (y - 1) mod 400 / 100) in *.
  set (c := (y - 1) mod 400 mod 100 / 4) in *.
  set (e := (y - 1) mod 400 mod 100 mod 4) in *.
  assert (Hq : 0 <= q) by (subst q; dlia).
  assert (Hb : 0 <= b <= 3) by (subst b; dlia).
  assert (Hc : 0 <= c <= 24) by (subst c; dlia).
  assert (He : 0 <= e <= 3) by (subst e; dlia).
  assert (Ey : y = 400 * q + 100 * b + 4 * c + e + 1) by (subst q b c e; dlia).
  clearbody q b c e.
  set (L := _is_leap y) in *.
  set (n := at_index _DAYS_BEFORE_MONTH m + b2z ((2 <? m) && L) + d - 1).
  assert (Hn : 0 <= n <= 364 + b2z L).
  { subst n.
    assert (Hcases : m = 1 \/ m = 2 \/ m = 3 \/ m = 4 \/ m = 5 \/ m = 6
                     \/ m = 7 \/ m = 8 \/ m = 9 \/ m = 10 \/ m = 11
                     \/ m = 12) by dlia.
    repeat (destruct Hcases as [-> | Hcases]); [.. | subst m];
      destruct L; tables; flags; dlia. }
  replace (146097 * q + 36524 * b + 1461 * c + 365 * e
           + (at_index _DAYS_BEFORE_MONTH m + b2z ((2 <? m) && L)) + d)
    with (146097 * q + 36524 * b + 1461 * c + 365 * e + n + 1)
    by (subst n; dlia).
  destruct (Z.eq_dec n 365) as [E365 | N365].
  - assert (HLt : L = true) by (destruct L; [reflexivity | cbn in Hn; dlia]).
    rewrite HLt in HL. symmetry in HL.
    apply andb_true_iff in HL as [He3 Hcb].
    apply Z.eqb_eq in He3. subst e.
    assert (Hcb' : c <> 24 \/ b = 3).
    { apply orb_true_iff in Hcb as [Hc24 | Hb3].
      - left. apply negb_true_iff, Z.eqb_neq in Hc24. exact Hc24.
      - right. apply Z.eqb_eq. exact Hb3. }
    rewrite E365, (ord2ymd_last_day q b c Hq Hb Hc Hcb').
    rewrite <- Ey.
    rewrite <- (month_and_day_of y L m d n Hm Hd eq_refl).
    rewrite E365, HLt. reflexivity.
  - rewrite (ord2ymd_regular q b c e n Hq Hb Hc He).
    + rewrite <- HL, <- Ey. apply month_and_day_of; [exact Hm | exact Hd |].
      reflexivity.
    + destruct L; cbn in Hn; dlia.
Qed.

End DatetimeFacts.

(** ** The matcher finds only what the pattern denotes *)

Module ReFacts.

Import Text Re ReSpec.

Lemma orelse_Some x y o : orelse x y = Some o -> x = Some o \/ y = Some o.
Proof. destruct x; simpl; auto. Qed.

Lemma star_loop_sound ic r
    (IH : forall p s c k o, rmatch ic r p s c k = Some o ->
          exists p' s' c', matches ic r p s p' s' /\ k p' s' c' = Some o) :
  forall fuel p s c k o,
    star_loop (rmatch ic r) fuel p s c k = Some o ->
    exists p' s' c', matches ic (Star r) p s p' s' /\ k p' s' c' = Some o.
Proof.
  induction fuel as [|fuel IHf]; intros p s c k o Hm; simpl in Hm.
  - exists p, s, c. split; [constructor | exact Hm].
  - apply orelse_Some in Hm as [Hm | Hm].
    + apply IH in Hm as (p1 & s1 & c1 & Hr & Hk).
      destruct (length s1 <? length s)%nat; [| discriminate].
      apply IHf in Hk as (p2 & s2 & c2 & Hs & Hk).
      exists p2, s2, c2. split; [| exact Hk].
      eapply M_StarStep; eassumption.
    + exists p, s, c. split; [constructor | exact Hm].
Qed.

Theorem rmatch_sound ic r :
  forall p s c k o,
    rmatch ic r p s c k = Some o ->
    exists p' s' c', matches ic r p s p' s' /\ k p' s' c' = Some o.
Proof.
  induction r as [| a | f | r1 IH1 r2 IH2 | r1 IH1 r2 IH2 | r IH | r IH | r IH
                 | n r IH | |]; intros p s c k o Hm; simpl in Hm.
  - exists p, s, c. split; [constructor | exact Hm].
  - destruct s as [|b s]; [discriminate |].
    destruct (Char.eqc ic a b) eqn:E; [| discriminate].
    exists (Some b), s, c. split; [constructor; exact E | exact Hm].
  - destruct s as [|b s]; [discriminate |].
    destruct (f b) eqn:E; [| discriminate].
    exists (Some b), s, c. split; [constructor; exact E | exact Hm].
  - apply IH1 in Hm as (p1 & s1 & c1 & H1 & Hm).
    apply IH2 in Hm as (p2 & s2 & c2 & H2 & Hm).
    exists p2, s2, c2. split; [econstructor; eassumption | exact Hm].
  - apply orelse_Some in Hm as [Hm | Hm].
    + apply IH1 in Hm as (p1 & s1 & c1 & H1 & Hm).
      exists p1, s1, c1. split; [apply M_AltL; exact H1 | exact Hm].
    + apply IH2 in Hm as (p1 & s1 & c1 & H1 & Hm).
      exists p1, s1, c1. split; [apply M_AltR; exact H1 | exact Hm].
  - eapply star_loop_sound; eassumption.
  - apply IH in Hm as (p1 & s1 & c1 & H1 & Hm).
    apply (star_loop_sound ic r IH) in Hm as (p2 & s2 & c2 & H2 & Hm).
    exists p2, s2, c2. split; [econstructor; eassumption | exact Hm].
  - apply orelse_Some in Hm as [Hm | Hm].
    + apply IH in Hm as (p1 & s1 & c1 & H1 & Hm).
      exists p1, s1, c1. split; [apply M_OptSome; exact H1 | exact Hm].
    + exists p, s, c. split; [apply M_OptNone | exact Hm].
  - apply IH in Hm as (p1 & s1 & c1 & H1 & Hm).
    eexists p1, s1, _. split; [constructor; exact H1 | exact Hm].
  - destruct p; [discriminate |].
    exists None, s, c. split; [constructor | exact Hm].
  - destruct (xorb (word_at p) (word_at (head s))) eqn:E; [| discriminate].
    exists p, s, c. split; [constructor; exact E | exact Hm].
Qed.

Lemma match_at_sound ic r p s m :
  match_at ic r p s = Some m -> exists p' s', matches ic r p s p' s'.
Proof.
  unfold match_at. intros Hm.
  destruct (rmatch ic r p s [] _) as [[s' c']|] eqn:E; [| discriminate].
  apply rmatch_sound in E as (p1 & s1 & c1 & H1 & _).
  exists p1, s1. exact H1.
Qed.

(** A successful search points at a place of the text where the
    pattern matches; [here] is any test that accepts such places. *)
Lemma search_from_sound ic r (here : option ascii -> text -> bool)
    (Hhere : forall p s p' s', matches ic r p s p' s' -> here p s = true) :
  forall s p m,
    search_from ic r p s = Some m -> Marker.scan here p s = true.
Proof.
  induction s as [|a s IH]; intros p m Hs; simpl in Hs.
  - destruct (match_at ic r p []) eqn:E; [| discriminate].
    apply match_at_sound in E as (p' & s' & E).
    simpl. rewrite (Hhere _ _ _ _ E). reflexivity.
  - destruct (match_at ic r p (a :: s)) eqn:E.
    + apply match_at_sound in E as (p' & s' & E).
      simpl. rewrite (Hhere _ _ _ _ E). reflexivity.
    + apply IH in Hs. simpl. rewrite Hs. apply orb_true_r.
Qed.

Lemma search_none ic r (here : option ascii -> text -> bool)
    (Hhere : forall p s p' s', matches ic r p s p' s' -> here p s = true) s :
  Marker.scan here None s = false -> re_search ic r s = None.
Proof.
  intros Hscan. unfold re_search.
  destruct (search_from ic r None s) eqn:E; [| reflexivity].
  apply (search_from_sound ic r here Hhere) in E. congruence.
Qed.

(** Inversion, one pattern former at a time. *)

Lemma eps_inv ic p s p' s' :
  matches ic Eps p s p' s' -> p' = p /\ s' = s.
Proof. inversion 1; subst; auto. Qed.

Lemma chr_inv ic a p s p' s' :
  matches ic (Chr a) p s p' s' ->
  exists b, s = b :: s' /\ p' = Some b /\ Char.eqc ic a b = true.
Proof. inversion 1; subst; eauto. Qed.

Lemma cls_inv ic f p s p' s' :
  matches ic (Cls f) p s p' s' ->
  exists b, s = b :: s' /\ p' = Some b /\ f b = true.
Proof. inversion 1; subst; eauto. Qed.

Lemma cat_inv ic r1 r2 p s p' s' :
  matches ic (Cat r1 r2) p s p' s' ->
  exists p1 s1, matches ic r1 p s p1 s1 /\ matches ic r2 p1 s1 p' s'.
Proof. inversion 1; subst; eauto. Qed.

Lemma alt_inv ic r1 r2 p s p' s' :
  matches ic (Alt r1 r2) p s p' s' ->
  matches ic r1 p s p' s' \/ matches ic r2 p s p' s'.
Proof. inversion 1; subst; auto. Qed.

Lemma opt_inv ic r p s p' s' :
  matches ic (Opt r) p s p' s' ->
  matches ic r p s p' s' \/ (p' = p /\ s' = s).
Proof. inversion 1; subst; auto. Qed.

Lemma grp_inv ic n r p s p' s' :
  matches ic (Grp n r) p s p' s' -> matches ic r p s p' s'.
Proof. inversion 1; subst; auto. Qed.

Lemma plus_inv ic r p s p' s' :
  matches ic (Plus r) p s p' s' ->
  exists p1 s1, matches ic r p s p1 s1 /\ matches ic (Star r) p1 s1 p' s'.
Proof. inversion 1; subst; eauto. Qed.

Lemma bol_inv ic p s p' s' :
  matches ic Bol p s p' s' -> p = None /\ p' = None /\ s' = s.
Proof. inversion 1; subst; auto. Qed.

Lemma wordb_inv ic p s p' s' :
  matches ic Wordb p s p' s' ->
  p' = p /\ s' = s /\ xorb (word_at p) (word_at (head s)) = true.
Proof. inversion 1; subst; auto. Qed.

Lemma last_cons_default {A : Type} (x : A) (l : list A) (d d' : A) :
  List.last (x :: l) d = List.last (x :: l) d'.
Proof.
  revert x. induction l as [|y l IH]; intros x; [reflexivity |].
  change (List.last (y :: l) d = List.last (y :: l) d'). apply IH.
Qed.

(** A starred class consumes a run of characters of that class. *)
Lemma star_cls_inv ic f p s p' s' :
  matches ic (Star (Cls f)) p s p' s' ->
  exists run, s = run ++ s' /\ forallb f run = true
              /\ p' = List.last (map Some run) p.
Proof.
  intros Hm. remember (Star (Cls f)) as r eqn:Er.
  induction Hm as [ | | | | | | r0 p s | r0 p s p1 s1 p2 s2 Hm1 _ Hm2 IH2
                  | | | | | | ]; try discriminate.
  - exists []. repeat split; reflexivity.
  - injection Er as ->.
    apply cls_inv in Hm1 as (b & -> & -> & Hb).
    destruct (IH2 eq_refl) as (run & -> & Hrun & ->).
    exists (b :: run). split; [reflexivity |]. split.
    + simpl. rewrite Hb, Hrun. reflexivity.
    + destruct run as [|a run]; [reflexivity |].
      change (List.last (map Some (a :: run)) (Some b)
              = List.last (map Some (a :: run)) p).
      apply last_cons_default.
Qed.

(** One or more digits: a digit is ahead. *)
Lemma plus_digit_inv ic p s p' s' :
  matches ic (Plus (Cls Char.is_digit)) p s p' s' ->
  Marker.starts_with_digit s = true.
Proof.
  intros Hm. apply plus_inv in Hm as (p1 & s1 & Hm & _).
  apply cls_inv in Hm as (b & -> & _ & Hb). exact Hb.
Qed.

(** ** The matcher finds a match whenever the pattern denotes one *)

Lemma last_app_default {A : Type} (l1 l2 : list A) (d : A) :
  List.last (l1 ++ l2) d = List.last l2 (List.last l1 d).
Proof.
  revert d. induction l1 as [|x l1 IH]; intros d; [reflexivity |].
  destruct l1 as [|y l1].
  - destruct l2 as [|z l2]; [reflexivity |].
    change (List.last (z :: l2) d = List.last (z :: l2) x).
    apply last_cons_default.
  - change (List.last ((y :: l1) ++ l2) d
            = List.last l2 (List.last (y :: l1) d)).
    apply IH.
Qed.

(** A match consumes a prefix of the input and leaves its last
    character behind the cursor. *)
Lemma matches_consumes ic r p s p' s' :
  matches ic r p s p' s' ->
  exists run, s = run ++ s' /\ p' = List.last (map Some run) p.
Proof.
  assert (Hjoin : forall (p0 p1 p2 : option ascii) (s0 s1 s2 : text),
             (exists run, s0 = run ++ s1 /\ p1 = List.last (map Some run) p0) ->
             (exists run, s1 = run ++ s2 /\ p2 = List.last (map Some run) p1) ->
             exists run, s0 = run ++ s2 /\ p2 = List.last (map Some run) p0).
  { intros p0 p1 p2 s0 s1 s2 (run1 & -> & ->) (run2 & -> & ->).
    exists (run1 ++ run2). split; [apply app_assoc |].
    rewrite map_app. symmetry. apply last_app_default. }
  induction 1;
    try (exists []; split; reflexivity);
    try (eexists [_]; split; reflexivity);
    try assumption;
    eapply Hjoin; eassumption.
Qed.

Lemma matches_nothing_consumed ic r p s p' s' :
  matches ic r p s p' s' -> (length s <= length s')%nat -> p' = p /\ s' = s.
Proof.
  intros Hm Hlen. apply matches_consumes in Hm as (run & -> & ->).
  rewrite length_app in Hlen.
  destruct run as [|a run]; [split; reflexivity | simpl in Hlen; lia].
Qed.

Lemma matches_shorter ic r p s p' s' :
  matches ic r p s p' s' -> (length s' <= length s)%nat.
Proof.
  intros Hm. apply matches_consumes in Hm as (run & -> & _).
  rewrite length_app. lia.
Qed.

Lemma orelse_left x y : x <> None -> orelse x y <> None.
Proof. destruct x; [discriminate | contradiction]. Qed.

Lemma orelse_right x y : y <> None -> orelse x y <> None.
Proof. destruct x; [discriminate | trivial]. Qed.

(** A continuation that accepts the end point of a match, whatever the
    groups captured, makes the matcher succeed. *)
Theorem rmatch_complete ic r p s p' s' :
  matches ic r p s p' s' ->
  forall k,
    (forall c', k p' s' c' <> None) ->
    (forall c, rmatch ic r p s c k <> None)
    /\ match r with
       | Star r1 =>
           forall fuel c,
             (length s <= fuel)%nat ->
             star_loop (rmatch ic r1) fuel p s c k <> None
       | _ => True
       end.
Proof.
  induction 1 as [ p s | a b p s Hb | f b p s Hb
                 | r1 r2 p s p1 s1 p2 s2 H1 IH1 H2 IH2
                 | r1 r2 p s p' s' H1 IH1 | r1 r2 p s p' s' H1 IH1
                 | r p s | r p s p1 s1 p2 s2 H1 IH1 H2 IH2
                 | r p s p1 s1 p2 s2 H1 IH1 H2 IH2
                 | r p s p' s' H1 IH1 | r p s
                 | n r p s p' s' H1 IH1 | s | p s Hb ];
    intros k Hk.
  - split; [intros c; apply Hk | exact I].
  - split; [intros c; simpl; rewrite Hb; apply Hk | exact I].
  - split; [intros c; simpl; rewrite Hb; apply Hk | exact I].
  - split; [| exact I]. intros c. simpl.
    apply (IH1 (fun p' s' c' => rmatch ic r2 p' s' c' k)).
    intros c'. apply (IH2 k Hk).
  - split; [| exact I]. intros c. simpl.
    apply orelse_left, (IH1 k Hk).
  - split; [| exact I]. intros c. simpl.
    apply orelse_right, (IH1 k Hk).
  - assert (Hloop : forall fuel c, star_loop (rmatch ic r) fuel p s c k <> None).
    { intros [|fuel] c; simpl; [apply Hk | apply orelse_right, Hk]. }
    split; [intros c; apply Hloop | intros fuel c _; apply Hloop].
  - assert (Hloop : forall fuel c,
               (length s <= fuel)%nat ->
               star_loop (rmatch ic r) fuel p s c k <> None).
    { intros fuel c Hfuel.
      destruct (le_lt_dec (length s) (length s1)) as [Hsame | Hless].
      - destruct (matches_nothing_consumed _ _ _ _ _ _ H1 Hsame) as [-> ->].
        apply (proj2 (IH2 k Hk)). exact Hfuel.
      - destruct fuel as [|fuel]; [lia |]. simpl.
        apply orelse_left.
        apply (IH1 (fun p' s' c' =>
                      if (length s' <? length s)%nat
                      then star_loop (rmatch ic r) fuel p' s' c' k
                      else None)).
        intros c'.
        replace (length s1 <? length s)%nat with true
          by (symmetry; apply Nat.ltb_lt; exact Hless).
        apply (proj2 (IH2 k Hk)). lia. }
    split; [intros c; apply Hloop; lia | exact Hloop].
  - split; [| exact I]. intros c. simpl.
    apply (IH1 (fun p' s' c' =>
                  star_loop (rmatch ic r) (length s') p' s' c' k)).
    intros c'. apply (proj2 (IH2 k Hk)). lia.
  - split; [| exact I]. intros c. simpl.
    apply orelse_left, (IH1 k Hk).
  - split; [| exact I]. intros c. simpl. apply orelse_right, Hk.
  - split; [| exact I]. intros c. simpl.
    apply (IH1 (fun p' s' c' => k p' s' (set_group n (consumed s s') c'))).
    intros c'. apply Hk.
  - split; [intros c; apply Hk | exact I].
  - split; [intros c; simpl; rewrite Hb; apply Hk | exact I].
Qed.

Lemma match_at_complete ic r p s p' s' :
  matches ic r p s p' s' -> match_at ic r p s <> None.
Proof.
  intros Hm. unfold match_at.
  destruct (rmatch ic r p s [] (fun _ s0 c0 => Some (s0, c0)))
    as [[s0 c0]|] eqn:E; [discriminate |].
  exfalso. revert E.
  apply (proj1 (rmatch_complete ic r p s p' s' Hm
                  (fun _ s0 c0 => Some (s0, c0)) (fun _ => ltac:(discriminate)))).
Qed.

(** If the pattern matches wherever [here] holds, a text with such a
    place makes the search succeed. *)
Lemma search_from_complete ic r (here : option ascii -> text -> bool)
    (Hhere : forall p s, here p s = true ->
             exists p' s', matches ic r p s p' s') :
  forall s p, Marker.scan here p s = true -> search_from ic r p s <> None.
Proof.
  induction s as [|a s IH]; intros p Hscan; simpl in Hscan |- *.
  - rewrite orb_false_r in Hscan.
    destruct (Hhere _ _ Hscan) as (p' & s' & Hm).
    apply (match_at_complete _ _ _ _ _ _) in Hm.
    destruct (match_at ic r p []); [discriminate | contradiction].
  - destruct (match_at ic r p (a :: s)) eqn:E; [discriminate |].
    apply IH. apply orb_true_iff in Hscan as [Hh | Hs]; [| exact Hs].
    destruct (Hhere _ _ Hh) as (p' & s' & Hm).
    apply (match_at_complete _ _ _ _ _ _) in Hm. congruence.
Qed.

End ReFacts.

(** ** The source's patterns against the markers *)

Module PatternFacts.

Import Text Re ReSpec ReFacts Marker S4CClicBaseIE.

Ltac each_ascii b := destruct b as [[] [] [] [] [] [] [] []].

Lemma digit_not_space b : Char.is_digit b = true -> Char.is_space b = false.
Proof. each_ascii b; vm_compute; congruence. Qed.

Lemma digit_is_word b : Char.is_digit b = true -> Char.is_word b = true.
Proof. each_ascii b; vm_compute; congruence. Qed.

Lemma X_not_space b : Char.eqc true "X" b = true -> Char.is_space b = false.
Proof. each_ascii b; vm_compute; congruence. Qed.

Lemma E_exact b : Char.eqc false "E" b = true -> b = "E"%char.
Proof. unfold Char.eqc. intros Hb. apply Ascii.eqb_eq in Hb. congruence. Qed.

Lemma chr_exact a b : Char.eqc false a b = true -> Ascii.eqb b a = true.
Proof.
  unfold Char.eqc. intros Hb. apply Ascii.eqb_eq in Hb. subst.
  apply Ascii.eqb_refl.
Qed.

Lemma lit_inv w : forall p s p' s',
  matches true (fold_right (fun a r => Cat (Chr a) r) Eps w) p s p' s' ->
  after_word w s = Some s'.
Proof.
  induction w as [|a w IH]; intros p s p' s' Hm; simpl in Hm.
  - apply eps_inv in Hm as [_ ->]. destruct s; reflexivity.
  - apply cat_inv in Hm as (p1 & s1 & Hc & Hm).
    apply chr_inv in Hc as (b & -> & -> & Hb).
    cbn [after_word]. rewrite Hb. eapply IH. exact Hm.
Qed.

Lemma lit_word_then w (tail : text -> bool) p s p' s' :
  matches true (Lit w) p s p' s' -> tail s' = true -> word_then w tail s = true.
Proof.
  intros Hm Ht. unfold word_then. unfold Lit in Hm.
  rewrite (lit_inv _ _ _ _ _ Hm). exact Ht.
Qed.

Lemma lstrip_run run s :
  forallb Char.is_space run = true ->
  match s with a :: _ => Char.is_space a = false | [] => True end ->
  lstrip (run ++ s) = s.
Proof.
  intros Hrun Hs. induction run as [|b run IH]; simpl in *.
  - destruct s as [|a s]; [reflexivity |]. simpl. rewrite Hs. reflexivity.
  - apply andb_true_iff in Hrun as [Hb Hrun]. rewrite Hb. apply IH, Hrun.
Qed.

Lemma span_run f run s :
  forallb f run = true ->
  match s with a :: _ => f a = false | [] => True end ->
  span f (run ++ s) = (run, s).
Proof.
  intros Hrun Hs. induction run as [|b run IH]; simpl in *.
  - destruct s as [|a s]; [reflexivity |]. simpl. rewrite Hs. reflexivity.
  - apply andb_true_iff in Hrun as [Hb Hrun]. rewrite Hb, (IH Hrun).
    reflexivity.
Qed.

(** [X?(\d+)], and an underscore in place of the X *)
Lemma opt_then_digits ic x p s p' s' :
  matches ic (Cat (Opt (Chr x)) (Cat (Grp 2 (Plus digit)) Eps)) p s p' s'
  \/ matches ic (Cat (Opt (Chr x)) (Cat (Grp 1 (Plus digit)) Eps)) p s p' s' ->
  x_then_digit ic x s = true.
Proof.
  intros Hm.
  assert (exists n p1 s1,
            matches ic (Opt (Chr x)) p s p1 s1
            /\ matches ic (Grp n (Plus digit)) p1 s1 p' s') as (n & p1 & s1 & Ho & Hg).
  { destruct Hm as [Hm | Hm];
      apply cat_inv in Hm as (p1 & s1 & Ho & Hm);
      apply cat_inv in Hm as (p2 & s2 & Hg & He);
      apply eps_inv in He as [-> ->]; eauto. }
  apply grp_inv, plus_digit_inv in Hg.
  unfold x_then_digit.
  apply opt_inv in Ho as [Hc | [-> ->]].
  - apply chr_inv in Hc as (b & -> & -> & Hb).
    rewrite Hb, Hg. apply orb_true_r.
  - rewrite Hg. reflexivity.
Qed.

(** [\s*X?(\d+)] *)
Lemma season_tail_sound p s p' s' :
  matches true (seq [Star space; Opt (Chr "X"); Grp 2 (Plus digit)]) p s p' s' ->
  season_tail s = true.
Proof.
  intros Hm. simpl in Hm.
  apply cat_inv in Hm as (p1 & s1 & Hs & Hm).
  apply star_cls_inv in Hs as (run & -> & Hrun & _).
  pose proof (opt_then_digits _ _ _ _ _ _ (or_introl Hm)) as Hx.
  unfold season_tail. rewrite lstrip_run; [exact Hx | exact Hrun |].
  destruct s1 as [|a s1]; [exact I |].
  unfold x_then_digit in Hx. simpl in Hx.
  apply orb_true_iff in Hx as [Hd | Hx].
  - apply digit_not_space, Hd.
  - apply andb_true_iff in Hx as [Hx _]. apply X_not_space, Hx.
Qed.

(** [(Cyfres|Season)\s*X?(\d+)] *)
Lemma re_season_sound p s p' s' :
  matches true re_season p s p' s' -> season_marker_here s = true.
Proof.
  intros Hm. unfold re_season in Hm.
  change (matches true
            (Cat (Grp 1 (Alt (Lit "Cyfres") (Lit "Season")))
               (seq [Star space; Opt (Chr "X"); Grp 2 (Plus digit)]))
            p s p' s') in Hm.
  apply cat_inv in Hm as (p1 & s1 & Hw & Hm).
  apply season_tail_sound in Hm.
  apply grp_inv, alt_inv in Hw. unfold season_marker_here.
  destruct Hw as [Hw | Hw].
  - rewrite (lit_word_then _ _ _ _ _ _ Hw Hm). reflexivity.
  - rewrite (lit_word_then _ _ _ _ _ _ Hw Hm). apply orb_true_r.
Qed.

Lemma scan_app (here : option ascii -> text -> bool) run : forall p s,
  here (List.last (map Some run) p) s = true -> scan here p (run ++ s) = true.
Proof.
  induction run as [|b run IH]; intros p s Hh.
  - simpl in *. destruct s; simpl; rewrite Hh; reflexivity.
  - change (scan here p (b :: run ++ s) = true). simpl.
    rewrite (IH (Some b) s); [apply orb_true_r |].
    destruct run as [|a run]; [exact Hh |].
    cbn [map] in Hh |- *.
    rewrite (last_cons_default _ _ (Some b) p). exact Hh.
Qed.

Lemma scan_scan (here : option ascii -> text -> bool) : forall s p,
  scan (scan here) p s = true -> scan here p s = true.
Proof.
  induction s as [|a s IH]; intros p Hs; simpl in Hs.
  - rewrite orb_false_r in Hs. exact Hs.
  - apply orb_true_iff in Hs as [Hs | Hs]; [exact Hs |].
    simpl. rewrite (IH _ Hs). apply orb_true_r.
Qed.

(** [\s*[-:;,_\.\s]*\s*(Cyfres|Season)\s*X?(\d+)] *)
Lemma re_season_with_separators_sound p s p' s' :
  matches true re_season_with_separators p s p' s' ->
  scan (fun _ => season_marker_here) p s = true.
Proof.
  intros Hm. unfold re_season_with_separators in Hm.
  change (matches true
            (Cat (Star space)
               (Cat (Star (Cls separator))
                  (Cat (Star space) re_season))) p s p' s') in Hm.
  apply cat_inv in Hm as (p1 & s1 & H1 & Hm).
  apply cat_inv in Hm as (p2 & s2 & H2 & Hm).
  apply cat_inv in Hm as (p3 & s3 & H3 & Hm).
  apply re_season_sound in Hm.
  apply star_cls_inv in H1 as (run1 & -> & _ & _).
  apply star_cls_inv in H2 as (run2 & -> & _ & _).
  apply star_cls_inv in H3 as (run3 & -> & _ & _).
  rewrite !app_assoc. apply scan_app. exact Hm.
Qed.

(** A title without a season marker is returned as it came. *)
Lemma no_season_marker title :
  has_season_marker title = false ->
  _extract_season_number_from_title title = (None, title).
Proof.
  intros Hno. unfold _extract_season_number_from_title.
  rewrite (search_none true re_season_with_separators
             (scan (fun _ => season_marker_here))).
  - rewrite (search_none true re_season (fun _ => season_marker_here)).
    + reflexivity.
    + intros p s0 p' s'. apply re_season_sound.
    + exact Hno.
  - intros p s0 p' s'. apply re_season_with_separators_sound.
  - destruct (scan (scan (fun _ => season_marker_here)) None (of_string title))
      eqn:E; [| reflexivity].
    apply scan_scan in E. unfold has_season_marker in Hno. congruence.
Qed.

Lemma last_digit_is_word run : forall c,
  Char.is_digit c = true -> forallb Char.is_digit run = true ->
  word_at (List.last (map Some run) (Some c)) = true.
Proof.
  induction run as [|b run IH]; intros c Hc Hrun.
  - simpl. apply digit_is_word, Hc.
  - simpl in Hrun. apply andb_true_iff in Hrun as [Hb Hrun].
    cbn [map]. rewrite (last_cons_default _ _ _ (Some b)).
    destruct run as [|a run]; [simpl; apply digit_is_word, Hb |].
    apply (IH b Hb Hrun).
Qed.

(** [\bE(\d+)\b] *)
Lemma re_episode_sound p s p' s' :
  matches false re_episode p s p' s' -> episode_token_here p s = true.
Proof.
  intros Hm. unfold re_episode in Hm. simpl in Hm.
  apply cat_inv in Hm as (p1 & s1 & Hb1 & Hm).
  apply wordb_inv in Hb1 as (-> & -> & Hb1).
  apply cat_inv in Hm as (p2 & s2 & HE & Hm).
  apply chr_inv in HE as (b & -> & -> & HE). apply E_exact in HE. subst b.
  apply cat_inv in Hm as (p3 & s3 & Hd & Hm).
  apply grp_inv, plus_inv in Hd as (p4 & s4 & Hc & Hd).
  apply cls_inv in Hc as (c & -> & -> & Hc).
  apply star_cls_inv in Hd as (run & -> & Hrun & ->).
  apply cat_inv in Hm as (p5 & s5 & Hb2 & Hm).
  apply wordb_inv in Hb2 as (_ & _ & Hb2).
  rewrite (last_digit_is_word run c Hc Hrun) in Hb2.
  simpl in Hb2. apply negb_true_iff in Hb2.
  simpl in Hb1. rewrite xorb_true_r in Hb1.
  unfold episode_token_here.
  change (c :: run ++ s3) with ((c :: run) ++ s3).
  rewrite span_run.
  - cbn [snd]. rewrite Hb1, Hb2. simpl. rewrite Hc. reflexivity.
  - simpl. rewrite Hc, Hrun. reflexivity.
  - destruct s3 as [|a s3]; [exact I |]. simpl in Hb2.
    destruct (Char.is_digit a) eqn:Ea; [| reflexivity].
    apply digit_is_word in Ea. congruence.
Qed.

(** [_P(\d+)] *)
Lemma re_thumbnail_sound p s p' s' :
  matches false re_thumbnail p s p' s' -> thumbnail_marker_here s = true.
Proof.
  intros Hm. unfold re_thumbnail in Hm. simpl in Hm.
  apply cat_inv in Hm as (p1 & s1 & Hu & Hm).
  apply chr_inv in Hu as (a & -> & -> & Hu). apply chr_exact in Hu.
  apply cat_inv in Hm as (p2 & s2 & HP & Hm).
  apply chr_inv in HP as (b & -> & -> & HP). apply chr_exact in HP.
  apply cat_inv in Hm as (p3 & s3 & Hd & _).
  apply grp_inv, plus_digit_inv in Hd.
  unfold thumbnail_marker_here. rewrite Hu, HP, Hd. reflexivity.
Qed.

(** [[_-](?:pennod|episode)_?(\d+)] *)
Lemma re_filename_sound p s p' s' :
  matches true re_filename p s p' s' -> filename_marker_here s = true.
Proof.
  intros Hm. unfold re_filename in Hm.
  change (matches true
            (Cat (Cls (one_of "_-"))
               (Cat (Alt (Lit "pennod") (Lit "episode"))
                  (Cat (Opt (Chr "_")) (Cat (Grp 1 (Plus digit)) Eps))))
            p s p' s') in Hm.
  apply cat_inv in Hm as (p1 & s1 & Hc & Hm).
  apply cls_inv in Hc as (a & -> & -> & Hc).
  apply cat_inv in Hm as (p2 & s2 & Hw & Hm).
  pose proof (opt_then_digits _ _ _ _ _ _ (or_intror Hm)) as Hx.
  unfold filename_marker_here. rewrite Hc. cbn [andb].
  apply alt_inv in Hw as [Hw | Hw].
  - rewrite (lit_word_then _ _ _ _ _ _ Hw Hx). reflexivity.
  - rewrite (lit_word_then _ _ _ _ _ _ Hw Hx). apply orb_true_r.
Qed.

Lemma no_episode_token text :
  has_episode_token text = false -> _extract_episode_number text = None.
Proof.
  intros Hno. unfold _extract_episode_number.
  rewrite (search_none false re_episode episode_token_here);
    [reflexivity | | exact Hno].
  intros p s0 p' s'. apply re_episode_sound.
Qed.

Lemma no_thumbnail_marker thumbnail_url :
  has_thumbnail_marker thumbnail_url = false ->
  _extract_episode_number_from_thumbnail thumbnail_url = None.
Proof.
  intros Hno. unfold _extract_episode_number_from_thumbnail.
  rewrite (search_none false re_thumbnail (fun _ => thumbnail_marker_here));
    [reflexivity | | exact Hno].
  intros p s0 p' s'. apply re_thumbnail_sound.
Qed.

Lemma no_filename_marker filename :
  has_filename_marker filename = false ->
  _extract_episode_number_from_filename filename = None.
Proof.
  intros Hno. unfold _extract_episode_number_from_filename.
  rewrite (search_none true re_filename (fun _ => filename_marker_here));
    [reflexivity | | exact Hno].
  intros p s0 p' s'. apply re_filename_sound.
Qed.

(** ** The markers are exactly what the patterns find *)

Lemma lit_complete w : forall p s rest,
  after_word w s = Some rest ->
  exists p', matches true (fold_right (fun a r => Cat (Chr a) r) Eps w) p s p' rest.
Proof.
  induction w as [|a w IH]; intros p s rest Hw.
  - destruct s; injection Hw as <-; eexists; constructor.
  - destruct s as [|b s]; [discriminate |]. cbn [after_word] in Hw.
    destruct (Char.eqc true a b) eqn:Eb; [| discriminate].
    destruct (IH (Some b) s rest Hw) as (p' & Hm).
    exists p'. simpl. econstructor; [constructor; exact Eb | exact Hm].
Qed.

Lemma star_cls_run ic f run : forall p s,
  forallb f run = true ->
  matches ic (Star (Cls f)) p (run ++ s) (List.last (map Some run) p) s.
Proof.
  induction run as [|a run IH]; intros p s Hrun.
  - constructor.
  - simpl in Hrun. apply andb_true_iff in Hrun as [Ha Hrun].
    eapply M_StarStep; [constructor; exact Ha |].
    replace (List.last (map Some (a :: run)) p)
      with (List.last (map Some run) (Some a)); [apply IH, Hrun |].
    destruct run as [|b run]; [reflexivity |].
    exact (last_cons_default (Some b) (map Some run) (Some a) p).
Qed.

Lemma lstrip_split t :
  exists run, t = run ++ lstrip t /\ forallb Char.is_space run = true.
Proof.
  induction t as [|a t (run & Ht & Hrun)]; [exists []; split; reflexivity |].
  simpl. destruct (Char.is_space a) eqn:Ea.
  - exists (a :: run). split; [simpl; f_equal; exact Ht |].
    simpl. rewrite Ea, Hrun. reflexivity.
  - exists []. split; reflexivity.
Qed.

Lemma span_split f : forall t,
  exists run rest,
    span f t = (run, rest) /\ t = run ++ rest /\ forallb f run = true.
Proof.
  induction t as [|a t (run & rest & Hs & Ht & Hrun)].
  - exists [], []. repeat split.
  - simpl. destruct (f a) eqn:Ea.
    + rewrite Hs. exists (a :: run), rest. split; [reflexivity |].
      split; [simpl; f_equal; exact Ht | simpl; rewrite Ea, Hrun; reflexivity].
    + exists [], (a :: t). repeat split.
Qed.

Lemma digits_complete ic n p t :
  starts_with_digit t = true ->
  exists p' s', matches ic (Grp n (Plus digit)) p t p' s'.
Proof.
  destruct t as [|a t]; [discriminate |]. simpl. intros Ha.
  exists (Some a), t. constructor.
  eapply M_Plus; [constructor; exact Ha | constructor].
Qed.

Lemma opt_then_digits_complete ic x n p t :
  x_then_digit ic x t = true ->
  exists p' s',
    matches ic (Cat (Opt (Chr x)) (Cat (Grp n (Plus digit)) Eps)) p t p' s'.
Proof.
  unfold x_then_digit. intros Hx. apply orb_true_iff in Hx as [Hd | Hx].
  - destruct (digits_complete ic n p t Hd) as (p' & s' & Hm).
    exists p', s'. econstructor; [apply M_OptNone |].
    econstructor; [exact Hm | constructor].
  - destruct t as [|a t]; [discriminate |].
    apply andb_true_iff in Hx as [Ha Hd].
    destruct (digits_complete ic n (Some a) t Hd) as (p' & s' & Hm).
    exists p', s'. econstructor; [apply M_OptSome; constructor; exact Ha |].
    econstructor; [exact Hm | constructor].
Qed.

Lemma word_then_complete w (tail : text -> bool) p t :
  word_then w tail t = true ->
  exists p' rest, matches true (Lit w) p t p' rest /\ tail rest = true.
Proof.
  unfold word_then, Lit.
  destruct (after_word (of_string w) t) as [rest|] eqn:Ew; [| discriminate].
  intros Ht. destruct (lit_complete _ p _ _ Ew) as (p' & Hm).
  exists p', rest. split; assumption.
Qed.

Lemma re_season_complete p t :
  season_marker_here t = true ->
  exists p' s', matches true re_season p t p' s'.
Proof.
  unfold season_marker_here. intros Hh.
  assert (exists p1 rest,
             matches true (Alt (Lit "Cyfres") (Lit "Season")) p t p1 rest
             /\ season_tail rest = true) as (p1 & rest & Hw & Ht).
  { apply orb_true_iff in Hh as [Hh | Hh];
      apply (word_then_complete _ _ p) in Hh as (p1 & rest & Hw & Ht);
      exists p1, rest; (split; [| exact Ht]).
    - apply M_AltL, Hw.
    - apply M_AltR, Hw. }
  unfold season_tail in Ht.
  destruct (lstrip_split rest) as (run & Hrest & Hrun).
  destruct (opt_then_digits_complete true "X" 2
              (List.last (map Some run) p1) _ Ht) as (p' & s' & Hm).
  exists p', s'. unfold re_season. simpl.
  econstructor; [constructor; exact Hw |].
  econstructor; [| exact Hm].
  rewrite Hrest at 1. apply star_cls_run, Hrun.
Qed.

Lemma re_season_with_separators_complete p t :
  season_marker_here t = true ->
  exists p' s', matches true re_season_with_separators p t p' s'.
Proof.
  intros Hh. destruct (re_season_complete p t Hh) as (p' & s' & Hm).
  exists p', s'.
  change (matches true
            (Cat (Star space)
               (Cat (Star (Cls separator)) (Cat (Star space) re_season)))
            p t p' s').
  repeat (econstructor; [apply M_StarStop |]). exact Hm.
Qed.

Lemma search_some ic r (here : option ascii -> text -> bool)
    (Hhere : forall p s, here p s = true ->
             exists p' s', matches ic r p s p' s') t :
  scan here None t = true -> re_search ic r t <> None.
Proof. apply search_from_complete, Hhere. Qed.

(** The season extractor finds a number exactly in the titles that
    hold a season marker. *)
Lemma season_marker_exact title :
  has_season_marker title = false
  <-> fst (_extract_season_number_from_title title) = None.
Proof.
  split.
  - intros Hno. rewrite (no_season_marker _ Hno). reflexivity.
  - intros Hnone. destruct (has_season_marker title) eqn:Hs; [| reflexivity].
    exfalso. unfold _extract_season_number_from_title in Hnone.
    pose proof (search_some true re_season_with_separators
                  (fun _ => season_marker_here)
                  (fun p s0 => re_season_with_separators_complete p s0)
                  (of_string title) Hs) as Hfound.
    destruct (re_search true re_season_with_separators (of_string title));
      [discriminate | contradiction].
Qed.

Lemma re_episode_complete p t :
  episode_token_here p t = true ->
  exists p' s', matches false re_episode p t p' s'.
Proof.
  unfold episode_token_here. destruct t as [|a t]; [discriminate |].
  intros Hh.
  apply andb_true_iff in Hh as [Hh Hafter].
  apply andb_true_iff in Hh as [Hh Hdigit].
  apply andb_true_iff in Hh as [Hbefore HE].
  apply Ascii.eqb_eq in HE. subst a.
  apply negb_true_iff in Hbefore. apply negb_true_iff in Hafter.
  destruct t as [|b t]; [discriminate |]. simpl in Hdigit.
  destruct (span_split Char.is_digit t) as (run & rest & Hs & Ht & Hrun).
  cbn [span] in Hafter. rewrite Hdigit, Hs in Hafter. cbn [snd] in Hafter.
  exists (List.last (map Some run) (Some b)), rest.
  unfold re_episode. simpl.
  econstructor; [constructor; simpl; rewrite Hbefore; reflexivity |].
  econstructor; [constructor; reflexivity |].
  econstructor.
  - constructor. eapply M_Plus; [constructor; exact Hdigit |].
    rewrite Ht. apply star_cls_run, Hrun.
  - econstructor; [| constructor]. constructor.
    rewrite (last_digit_is_word run b Hdigit Hrun), Hafter. reflexivity.
Qed.

Lemma re_thumbnail_complete p t :
  thumbnail_marker_here t = true ->
  exists p' s', matches false re_thumbnail p t p' s'.
Proof.
  unfold thumbnail_marker_here.
  destruct t as [|a [|b t]]; try discriminate. intros Hh.
  apply andb_true_iff in Hh as [Hh Hd].
  apply andb_true_iff in Hh as [Ha Hb].
  apply Ascii.eqb_eq in Ha, Hb. subst a b.
  destruct (digits_complete false 1 (Some "P"%char) t Hd) as (p' & s' & Hm).
  exists p', s'. unfold re_thumbnail. simpl.
  econstructor; [constructor; reflexivity |].
  econstructor; [constructor; reflexivity |].
  econstructor; [exact Hm | constructor].
Qed.

Lemma re_filename_complete p t :
  filename_marker_here t = true ->
  exists p' s', matches true re_filename p t p' s'.
Proof.
  unfold filename_marker_here. destruct t as [|a t]; [discriminate |].
  intros Hh. apply andb_true_iff in Hh as [Ha Hh].
  assert (exists p1 rest,
             matches true (Alt (Lit "pennod") (Lit "episode")) (Some a) t p1 rest
             /\ x_then_digit true "_" rest = true) as (p1 & rest & Hw & Ht).
  { apply orb_true_iff in Hh as [Hh | Hh];
      apply (word_then_complete _ _ (Some a)) in Hh as (p1 & rest & Hw & Ht);
      exists p1, rest; (split; [| exact Ht]).
    - apply M_AltL, Hw.
    - apply M_AltR, Hw. }
  destruct (opt_then_digits_complete true "_" 1 p1 _ Ht) as (p' & s' & Hm).
  exists p', s'. unfold re_filename.
  change (matches true
            (Cat (Cls (one_of "_-"))
               (Cat (Alt (Lit "pennod") (Lit "episode"))
                  (Cat (Opt (Chr "_")) (Cat (Grp 1 (Plus digit)) Eps))))
            p (a :: t) p' s').
  econstructor; [constructor; exact Ha |].
  econstructor; [exact Hw | exact Hm].
Qed.

(** Each of the three searches finds a number exactly in the texts
    that hold its marker. *)
Lemma episode_token_exact text :
  has_episode_token text = false <-> _extract_episode_number text = None.
Proof.
  split; [apply no_episode_token |].
  intros Hnone. destruct (has_episode_token text) eqn:Hs; [| reflexivity].
  exfalso. unfold _extract_episode_number in Hnone.
  pose proof (search_some false re_episode episode_token_here
                re_episode_complete (of_string text) Hs) as Hfound.
  destruct (re_search false re_episode (of_string text));
    [discriminate | contradiction].
Qed.

Lemma thumbnail_marker_exact thumbnail_url :
  has_thumbnail_marker thumbnail_url = false
  <-> _extract_episode_number_from_thumbnail thumbnail_url = None.
Proof.
  split; [apply no_thumbnail_marker |].
  intros Hnone. destruct (has_thumbnail_marker thumbnail_url) eqn:Hs;
    [| reflexivity].
  exfalso. unfold _extract_episode_number_from_thumbnail in Hnone.
  pose proof (search_some false re_thumbnail (fun _ => thumbnail_marker_here)
                (fun p s0 => re_thumbnail_complete p s0)
                (of_string thumbnail_url) Hs) as Hfound.
  destruct (re_search false re_thumbnail (of_string thumbnail_url));
    [discriminate | contradiction].
Qed.

Lemma filename_marker_exact filename :
  has_filename_marker filename = false
  <-> _extract_episode_number_from_filename filename = None.
Proof.
  split; [apply no_filename_marker |].
  intros Hnone. destruct (has_filename_marker filename) eqn:Hs;
    [| reflexivity].
  exfalso. unfold _extract_episode_number_from_filename in Hnone.
  pose proof (search_some true re_filename (fun _ => filename_marker_here)
                (fun p s0 => re_filename_complete p s0)
                (of_string filename) Hs) as Hfound.
  destruct (re_search true re_filename (of_string filename));
    [discriminate | contradiction].
Qed.

End PatternFacts.

(** ** The leading-number pattern computes the direct reading *)

Module LeadingNumber.

Import Text Re ReFacts Marker S4CClicBaseIE.

Lemma span_app f : forall t run rest, span f t = (run, rest) -> t = run ++ rest.
Proof.
  induction t as [|a t IH]; intros run rest Hs; simpl in Hs.
  - injection Hs as <- <-. reflexivity.
  - destruct (f a).
    + destruct (span f t) as [run' rest'] eqn:E.
      injection Hs as <- <-. simpl. f_equal. apply IH. reflexivity.
    + injection Hs as <- <-. reflexivity.
Qed.

(** With a continuation that accepts the end of the longest run, the
    greedy loop over a class stops exactly there. *)
Lemma star_cls_greedy ic f k o c : forall t fuel p run rest,
  (length t <= fuel)%nat ->
  span f t = (run, rest) ->
  k (List.last (map Some run) p) rest c = Some o ->
  star_loop (rmatch ic (Cls f)) fuel p t c k = Some o.
Proof.
  induction t as [|a t IH]; intros fuel p run rest Hfuel Hs Hk; simpl in Hs.
  - injection Hs as <- <-. simpl in Hk.
    destruct fuel; simpl; [exact Hk | rewrite Hk; reflexivity].
  - destruct fuel as [|fuel]; [simpl in Hfuel; lia |].
    simpl in Hfuel.
    change (star_loop (rmatch ic (Cls f)) (S fuel) p (a :: t) c k)
      with (orelse
              (if f a
               then if (length t <? length (a :: t))%nat
                    then star_loop (rmatch ic (Cls f)) fuel (Some a) t c k
                    else None
               else None)
              (k p (a :: t) c)).
    destruct (f a) eqn:Ea.
    + destruct (span f t) as [run' rest'] eqn:E.
      injection Hs as <- <-.
      replace (length t <? length (a :: t))%nat with true
        by (symmetry; apply Nat.ltb_lt; simpl; lia).
      rewrite (IH fuel (Some a) run' rest'); [reflexivity | lia | reflexivity |].
      destruct run' as [|b run']; [exact Hk |].
      cbn [map] in Hk |- *.
      rewrite (last_cons_default _ _ (Some a) p). exact Hk.
    + injection Hs as <- <-. simpl in Hk. simpl. exact Hk.
Qed.

Lemma consumed_app (pre rest : text) : consumed (pre ++ rest) rest = pre.
Proof.
  unfold consumed. rewrite length_app.
  replace (length pre + length rest - length rest)%nat with (length pre) by lia.
  rewrite firstn_app, Nat.sub_diag, firstn_all. simpl. apply app_nil_r.
Qed.





End LeadingNumber.

(** ** How a record build can end *)

Module Builder.

Import Text S4CClicBaseIE Written Stages.

Lemma convert_welsh_date_raises welsh_date e :
  convert_welsh_date welsh_date = Raise e -> not_extractor_error e.
Proof.
  unfold convert_welsh_date.
  destruct (split (of_string welsh_date)) as [|day [|month [|year [|x l]]]];
    try (intros [= <-]; exact I).
  destruct (dict_get WELSH_MONTHS (to_string month));
    [discriminate | intros [= <-]; exact I].
Qed.

Lemma strptime_raises iso e :
  Datetime.strptime_Y_m_d iso = Raise e -> not_extractor_error e.
Proof.
  unfold Datetime.strptime_Y_m_d.
  repeat match goal with
         | |- context [match ?x with _ => _ end] => destruct x
         end; first [discriminate | intros [= <-]; exact I].
Qed.

Lemma parse_welsh_date_raises utcoffset welsh_date e :
  parse_welsh_date utcoffset welsh_date = Raise e -> not_extractor_error e.
Proof.
  unfold parse_welsh_date.
  destruct (convert_welsh_date welsh_date) as [iso|e1] eqn:E1; simpl.
  - destruct (Datetime.strptime_Y_m_d iso) as [ymd|e2] eqn:E2; cbn [bind].
    + unfold datetime_timestamp. destruct ymd as [[y m] d].
      destruct (Datetime._ymd2ord y m d =? 1);
        [intros [= <-]; exact I | discriminate].
    + intros [= <-]. eapply strptime_raises, E2.
  - intros [= <-]. eapply convert_welsh_date_raises, E1.
Qed.

Lemma format_date_raises timestamp e :
  format_date timestamp = Raise e -> not_extractor_error e.
Proof.
  unfold format_date, utcfromtimestamp.
  destruct (Datetime._ord2ymd _) as [[y m] d0].
  destruct (_ && _); simpl; [discriminate | intros [= <-]; exact I].
Qed.

Lemma filename_of_nothing : _extract_episode_number_from_filename "" = None.
Proof. vm_compute. reflexivity. Qed.

Section Outcome.

Context `{InfoExtractor}.
Variable utcoffset : Z -> Z.

(** The fields of a record that was built, in terms of the upstream. *)
Lemma build_ok upstream programme_id record :
  _extract_episode_info utcoffset upstream programme_id = Ok record ->
  title record
  = snd (_extract_season_number_from_title (resolved_series_title upstream))
  /\ season_number record
     = default 0 (fst (_extract_season_number_from_title
                         (resolved_series_title upstream)))
  /\ episode_number record = resolved_episode_number upstream
  /\ episode record
     = (if String.eqb (working_title upstream) "" then title record
        else working_title upstream).
Proof.
  unfold _extract_episode_info, resolved_episode_number, working_title.
  fold (resolved_series_title upstream).
  destruct (_extract_season_number_from_title (resolved_series_title upstream))
    as [season title0].
  set (programme_title := default "" (ep_programme_title upstream)).
  set (mpg := default "" (ep_mpg upstream)).
  set (thumb := default "" (ep_thumbnail_url upstream)).
  assert (Hguard :
            (if negb (String.eqb mpg "")
             then _extract_episode_number_from_filename mpg else None)
            = _extract_episode_number_from_filename mpg).
  { destruct (String.eqb mpg "") eqn:E; [| reflexivity].
    apply String.eqb_eq in E. rewrite E. symmetry. apply filename_of_nothing. }
  destruct (_extract_episode_number_from_title programme_title) as [n1|];
    [| destruct (_extract_episode_number_from_text programme_title)
         as [[n2|] t2]];
    cbv beta iota zeta;
    (destruct (download_player_configuration programme_id) as [config|];
       [| discriminate];
     destruct (truthy (cfg_filename config)); [| discriminate]; cbn [negb];
     destruct (_fetch_and_validate_streaming_urls _ _) as [|f fs];
       [discriminate |];
     destruct (if truthy (ep_last_tx upstream) then _ else _)
       as [[[rt rd] ry]|]; [| discriminate];
     cbn [bind];
     destruct (if truthy (ep_clic_aired upstream) then _ else _)
       as [[mt md]|]; [| discriminate];
     cbn [bind]; intros [= <-]; cbn [title season_number episode_number
                                      episode fst snd first_some]).
  - auto.
  - auto.
  - rewrite Hguard.
    destruct (_extract_episode_number mpg);
      destruct (_extract_episode_number_from_thumbnail thumb);
      destruct (_extract_episode_number_from_filename mpg); auto.
Qed.

(** The four ways a build can end. *)
Lemma build_outcome upstream programme_id :
  let outcome := _extract_episode_info utcoffset upstream programme_id in
  match download_player_configuration programme_id with
  | None =>
      outcome = Raise (ExtractorError "Unable to fetch player configuration")
  | Some config_data =>
      if truthy (cfg_filename config_data)
      then
        match _fetch_and_validate_streaming_urls
                (default "" (cfg_filename config_data)) programme_id with
        | [] =>
            outcome
            = Raise (ExtractorError "Unable to fetch valid streaming URLs")
        | _ :: _ =>
            match outcome with
            | Ok _ => True
            | Raise e => not_extractor_error e
            end
        end
      else
        outcome
        = Raise (ExtractorError "Filename is missing in the player configuration")
  end.
Proof.
  unfold _extract_episode_info.
  destruct (_extract_season_number_from_title _) as [season title0].
  cbv zeta.
  destruct (match _extract_episode_number_from_title _ with
            | Some _ => _ | None => _ end) as [number working].
  destruct (download_player_configuration programme_id) as [config|];
    [| reflexivity].
  destruct (truthy (cfg_filename config)); [| reflexivity]. cbn [negb].
  destruct (_fetch_and_validate_streaming_urls _ _) as [|f fs];
    [reflexivity |].
  destruct (truthy (ep_last_tx upstream)).
  - destruct (parse_welsh_date utcoffset _) as [rt|e] eqn:E1;
      [| cbn; eapply parse_welsh_date_raises, E1].
    cbn [bind].
    destruct (format_date rt) as [rd|e] eqn:E2;
      [| cbn; eapply format_date_raises, E2].
    cbn [bind].
    destruct (truthy (ep_clic_aired upstream)).
    + destruct (parse_welsh_date utcoffset (default "" (ep_clic_aired upstream)))
        as [mt|e] eqn:E3;
        [| cbn; eapply parse_welsh_date_raises, E3].
      cbn [bind].
      destruct (format_date mt) as [md|e] eqn:E4;
        [| cbn; eapply format_date_raises, E4].
      exact I.
    + exact I.
  - cbn [bind].
    destruct (truthy (ep_clic_aired upstream)).
    + destruct (parse_welsh_date utcoffset (default "" (ep_clic_aired upstream)))
        as [mt|e] eqn:E3;
        [| cbn; eapply parse_welsh_date_raises, E3].
      cbn [bind].
      destruct (format_date mt) as [md|e] eqn:E4;
        [| cbn; eapply format_date_raises, E4].
      exact I.
    + exact I.
Qed.

End Outcome.

End Builder.

(** ** The extractors on the specification's sample titles *)

Example episode_marker_example :
  S4CClicBaseIE._extract_episode_number_from_title "Pennod 5" = Some 5.
Proof. vm_compute. reflexivity. Qed.

Example leading_number_example :
  S4CClicBaseIE._extract_episode_number_from_text "3. Teitl"
  = (Some 3, "Teitl"%string).
Proof. vm_compute. reflexivity. Qed.

Example leading_number_without_separator :
  S4CClicBaseIE._extract_episode_number_from_text "7up"
  = (Some 7, "up"%string)
  /\ Written.digits_then_separator "7up" = (None, "7up"%string).
Proof. vm_compute. split; reflexivity. Qed.

Example first_season_marker_wins :
  S4CClicBaseIE._extract_season_number_from_title "Cyfres 3 Season 4"
  = (Some 3, "Season 4"%string).
Proof. vm_compute. reflexivity. Qed.

(** ** Episode numbers in free text *)

(** C2, as written, does not hold: on "programme_E12_hd" the free-text
    extractor does not return 12. *)
Lemma free_text_underscore_not_12 :
  S4CClicBaseIE._extract_episode_number "programme_E12_hd" <> Some 12.
Proof. vm_compute. discriminate. Qed.

(** C2, amended: the free-text extractor searches for "E" followed by
    digits between word boundaries.  The underscore is a word character,
    so "programme_E12_hd" holds no such token and the result is absent;
    with hyphens or blanks around the token, as in "programme-E12-hd",
    the result is 12. *)
Theorem free_text_episode_number_examples :
  S4CClicBaseIE._extract_episode_number "programme_E12_hd" = None
  /\ Marker.has_episode_token "programme_E12_hd" = false
  /\ S4CClicBaseIE._extract_episode_number "programme-E12-hd" = Some 12
  /\ S4CClicBaseIE._extract_episode_number "programme E12 hd" = Some 12.
Proof. vm_compute. repeat split; reflexivity. Qed.

(** ** Welsh dates *)

(** C3. Parsing "15 Ionawr 2021" yields local midnight of 2021-01-15:
    the UTC midnight 1610668800 less the local zone's offset.  On a UTC
    clock that is the timestamp the claim names; an hour east of
    Greenwich the result is 1610665200, which is 2021-01-14T23:00:00Z. *)
Theorem parse_welsh_date_is_local_midnight :
  (forall utcoffset,
      parse_welsh_date utcoffset "15 Ionawr 2021"
      = Ok (1610668800 - utcoffset 1610668800))
  /\ parse_welsh_date Sample.utc "15 Ionawr 2021" = Ok 1610668800
  /\ parse_welsh_date Sample.utc_plus_1 "15 Ionawr 2021" = Ok 1610665200
  /\ parse_welsh_date Sample.utc_plus_1 "15 Ionawr 2021" <> Ok 1610668800.
Proof.
  assert (Hconv : convert_welsh_date "15 Ionawr 2021" = Ok "2021-01-15"%string)
    by (vm_compute; reflexivity).
  assert (Hstrp : Datetime.strptime_Y_m_d "2021-01-15" = Ok (2021, 1, 15))
    by (vm_compute; reflexivity).
  assert (Hgen : forall utcoffset,
             parse_welsh_date utcoffset "15 Ionawr 2021"
             = Ok (1610668800 - utcoffset 1610668800)).
  { intros utcoffset. unfold parse_welsh_date.
    rewrite Hconv. cbn [bind]. rewrite Hstrp. cbn [bind].
    reflexivity. }
  split; [exact Hgen |].
  rewrite !Hgen. split; [reflexivity |]. split; [reflexivity | discriminate].
Qed.

(** C4. An hour east of Greenwich, parsing "1 Ionawr 2021" and
    formatting the timestamp gives "20201231": neither the year nor the
    month of the input survives the round trip.  On a UTC clock the same
    input comes back as "20210101". *)
Theorem round_trip_east_of_greenwich :
  (let* timestamp := parse_welsh_date Sample.utc_plus_1 "1 Ionawr 2021" in
   format_date timestamp)
  = Ok "20201231"%string
  /\ (let* timestamp := parse_welsh_date Sample.utc "1 Ionawr 2021" in
      format_date timestamp)
     = Ok "20210101"%string.
Proof. vm_compute. split; reflexivity. Qed.

(** The first day of year 1 is the only valid date of ordinal 1. *)
Lemma first_ordinal y m d :
  1 <= y -> 1 <= m <= 12 -> 1 <= d <= Datetime._days_in_month y m ->
  Datetime._ymd2ord y m d = 1 -> (y, m, d) = (1, 1, 1).
Proof.
  intros Hy Hm Hd Hord.
  rewrite <- (DatetimeFacts.ord2ymd_ymd2ord y m d Hy Hm Hd), Hord.
  vm_compute. reflexivity.
Qed.

(** On the UTC clock the date fields do survive the round trip: the
    timestamp of a valid date formats back to that date. *)
Lemma round_trip_on_utc y m d :
  1 <= y <= 9999 -> 1 <= m <= 12 -> 1 <= d <= Datetime._days_in_month y m ->
  (y, m, d) <> (1, 1, 1) ->
  (let* timestamp := datetime_timestamp Sample.utc (y, m, d) in
   format_date timestamp)
  = Ok (strftime_Ymd (y, m, d)).
Proof.
  intros Hy Hm Hd Hfirst. unfold datetime_timestamp.
  destruct (Z.eqb_spec (Datetime._ymd2ord y m d) 1) as [Hord|_].
  { contradiction Hfirst. apply first_ordinal; [lia | assumption ..]. }
  cbn [bind].
  unfold format_date, utcfromtimestamp, Sample.utc, Datetime.naive_seconds.
  rewrite Z.sub_0_r, Z.div_mul by discriminate.
  replace (Datetime._ymd2ord y m d - Datetime.EPOCH_ORDINAL
           + Datetime.EPOCH_ORDINAL)
    with (Datetime._ymd2ord y m d) by lia.
  rewrite DatetimeFacts.ord2ymd_ymd2ord by lia.
  unfold Datetime.MINYEAR, Datetime.MAXYEAR.
  destruct (Z.leb_spec 1 y); [| lia].
  destruct (Z.leb_spec y 9999); [| lia].
  reflexivity.
Qed.

(** East of Greenwich, by up to a day, the formatted date is the one of
    the day before. *)
Lemma round_trip_east_is_the_day_before (offset : Z) ymd :
  0 < offset <= 86400 ->
  format_date (Datetime.naive_seconds ymd - offset)
  = format_date (Datetime.naive_seconds ymd - 0 - 86400).
Proof.
  intros Hoffset.
  unfold format_date, utcfromtimestamp.
  replace ((Datetime.naive_seconds ymd - offset) / 86400)
    with ((Datetime.naive_seconds ymd - 0 - 86400) / 86400);
    [reflexivity |].
  unfold Datetime.naive_seconds. destruct ymd as [[y m] d].
  Z.div_mod_to_equations. lia.
Qed.

(** ** Season markers *)



(** ** Resolving a series identifier *)

(** The leaf resolver never expands into a playlist. *)
Lemma individual_never_expands `{InfoExtractor} utcoffset programme_id
    entries playlist_id playlist_title :
  S4CClicProgrammeIndividualIE._extract_video_info utcoffset programme_id
  <> Ok (Playlist entries playlist_id playlist_title).
Proof.
  unfold S4CClicProgrammeIndividualIE._extract_video_info.
  destruct (first_programme _) as [programme|]; cbn [bind]; [| discriminate].
  destruct (S4CClicBaseIE._extract_episode_info _ _ _); cbn [bind];
    discriminate.
Qed.

(** C5. With no sibling programmes, the series resolver returns the
    record built from the first primary programme, and no playlist;
    otherwise it returns a playlist with one entry per programme of the
    primary and sibling lists together, each entry addressed to the
    Programme-Individual resolver, which never expands. *)
Theorem series_resolution `{InfoExtractor} utcoffset series_id :
  let series_data := download_series_details series_id in
  let primary := default [] (full_prog_details series_data) in
  let siblings := default [] (other_progs_in_series series_data) in
  (siblings = [] ->
   forall first rest,
     primary = first :: rest ->
     S4CClicSeriesIE._extract_video_info utcoffset series_id
     = (let* record :=
          S4CClicBaseIE._extract_episode_info utcoffset first series_id in
        Ok (Video record))
     /\ forall entries playlist_id playlist_title,
          S4CClicSeriesIE._extract_video_info utcoffset series_id
          <> Ok (Playlist entries playlist_id playlist_title))
  /\ (siblings <> [] ->
      exists entries playlist_title,
        S4CClicSeriesIE._extract_video_info utcoffset series_id
        = Ok (Playlist entries (Some series_id) playlist_title)
        /\ length entries = (length primary + length siblings)%nat
        /\ Forall
             (fun entry =>
                ur_ie_key entry = S4CClicProgrammeIndividualIE_ie_key
                /\ forall programme_id entries' playlist_id' playlist_title',
                     S4CClicProgrammeIndividualIE._extract_video_info
                       utcoffset programme_id
                     <> Ok (Playlist entries' playlist_id' playlist_title'))
             entries).
Proof.
  cbv zeta. unfold S4CClicSeriesIE._extract_video_info.
  set (series_data := download_series_details series_id).
  split.
  - intros Hsib first rest Hprimary.
    assert (Hfalsy : falsy_list (other_progs_in_series series_data) = true).
    { destruct (other_progs_in_series series_data) as [[|x l]|];
        [reflexivity | discriminate | reflexivity]. }
    rewrite Hfalsy.
    assert (Hfirst : first_programme series_data = Ok first).
    { unfold first_programme.
      destruct (full_prog_details series_data) as [[|x l]|];
        simpl in Hprimary; try discriminate. congruence. }
    rewrite Hfirst. cbn [bind]. split; [reflexivity |].
    intros entries playlist_id playlist_title.
    destruct (S4CClicBaseIE._extract_episode_info _ _ _); cbn [bind];
      discriminate.
  - intros Hsib.
    assert (Hfalsy : falsy_list (other_progs_in_series series_data) = false).
    { destruct (other_progs_in_series series_data) as [[|x l]|];
        [contradiction | reflexivity | contradiction]. }
    rewrite Hfalsy.
    exists (playlist_entries series_data), (playlist_title_of series_data).
    split; [reflexivity |]. split.
    + unfold playlist_entries. rewrite length_map, length_app. reflexivity.
    + unfold playlist_entries. apply Forall_map, Forall_forall.
      intros programme _. split; [reflexivity |].
      intros. apply individual_never_expands.
Qed.

Lemma series_resolution_witness :
  S4CClicSeriesIE._extract_video_info (H := Sample.catalogue) Sample.utc "7"
  = (let* record :=
       S4CClicBaseIE._extract_episode_info (H := Sample.catalogue) Sample.utc
         Sample.plain_episode "7" in
     Ok (Video record))
  /\ exists entries playlist_title,
       S4CClicSeriesIE._extract_video_info (H := Sample.catalogue) Sample.utc "8"
       = Ok (Playlist entries (Some "8"%string) playlist_title)
       /\ length entries = 3%nat.
Proof.
  split.
  - apply (proj1 (series_resolution (H := Sample.catalogue) Sample.utc "7")
             eq_refl Sample.plain_episode [] eq_refl).
  - destruct (proj2 (series_resolution (H := Sample.catalogue) Sample.utc "8"))
      as (entries & playlist_title & Hres & Hlen & _).
    + discriminate.
    + exists entries, playlist_title. split; [exact Hres | exact Hlen].
Defined.

(** ** Failures of the record builder *)

(** C6. The build fails with UpstreamFetchError exactly when the
    player-configuration fetch returns no data or the configuration has
    no non-empty filename, and then there is no record. *)
Theorem upstream_fetch_error_iff `{InfoExtractor} utcoffset upstream programme_id :
  let outcome :=
    S4CClicBaseIE._extract_episode_info utcoffset upstream programme_id in
  (Written.fails_with Written.UpstreamFetchError outcome <->
   match download_player_configuration programme_id with
   | None => True
   | Some config_data => truthy (cfg_filename config_data) = false
   end)
  /\ (Written.fails_with Written.UpstreamFetchError outcome ->
      forall record, outcome <> Ok record).
Proof.
  cbv zeta.
  pose proof (Builder.build_outcome utcoffset upstream programme_id) as Hout.
  cbv zeta in Hout.
  unfold Written.fails_with, Written.UpstreamFetchError.
  split.
  - destruct (download_player_configuration programme_id) as [config|].
    + destruct (truthy (cfg_filename config)).
      * destruct (S4CClicBaseIE._fetch_and_validate_streaming_urls _ _).
        -- rewrite Hout. split; [| discriminate].
           intros (e & [= <-] & [He | He]); discriminate.
        -- split; [| discriminate].
           intros (e & He & Hkind). rewrite He in Hout.
           destruct Hkind as [-> | ->]; contradiction.
      * rewrite Hout. split; [reflexivity |]. intros _. eauto.
    + rewrite Hout. split; [exact (fun _ => I) |]. intros _. eauto.
  - intros (e & He & _) record. rewrite He. discriminate.
Qed.

(** The formats fetched are what the two regions yield, the
    unrestricted one first. *)
Lemma fetch_by_regions `{InfoExtractor} filename programme_id :
  S4CClicBaseIE._fetch_and_validate_streaming_urls filename programme_id
  = Written.region_yield filename programme_id "WW"
    ++ Written.region_yield filename programme_id "UK".
Proof.
  assert (Hregion : forall region,
             S4CClicBaseIE.region_formats filename programme_id region
             = Written.region_yield filename programme_id region).
  { intros region.
    unfold S4CClicBaseIE.region_formats, Written.region_yield,
      Written.resolved_formats, S4CClicBaseIE.no_data.
    destruct (download_streaming_urls region filename programme_id)
      as [streaming_urls|]; [| reflexivity].
    destruct (bool_decide (streaming_urls = ∅)); reflexivity. }
  unfold S4CClicBaseIE._fetch_and_validate_streaming_urls,
    S4CClicBaseIE.REGIONS.
  cbn [fold_left app]. rewrite !Hregion. reflexivity.
Qed.

Lemma streaming_failure `{InfoExtractor} utcoffset upstream programme_id :
  Written.fails_with Written.StreamingUnavailableError
    (S4CClicBaseIE._extract_episode_info utcoffset upstream programme_id)
  <-> exists config_data filename,
        download_player_configuration programme_id = Some config_data
        /\ cfg_filename config_data = Some filename
        /\ filename <> ""%string
        /\ S4CClicBaseIE._fetch_and_validate_streaming_urls
             filename programme_id = [].
Proof.
  - pose proof (Builder.build_outcome utcoffset upstream programme_id) as Hout.
    cbv zeta in Hout.
    unfold Written.fails_with, Written.StreamingUnavailableError.
    destruct (download_player_configuration programme_id) as [config|].
    + destruct (cfg_filename config) as [filename|] eqn:Ef;
        cbn [truthy] in Hout.
      * change (default "" (Some filename)) with filename in Hout.
        destruct (String.eqb filename "") eqn:Ee; cbn [negb] in Hout.
        -- rewrite Hout. split.
           ++ intros (e & [= <-] & He). discriminate.
           ++ intros (c & f & [= <-] & Hf & Hne & _).
              rewrite Ef in Hf. injection Hf as <-.
              apply String.eqb_eq in Ee. contradiction.
        -- apply String.eqb_neq in Ee.
           destruct (S4CClicBaseIE._fetch_and_validate_streaming_urls
                       filename programme_id) eqn:Efetch.
           ++ rewrite Hout. split; [| eauto].
              intros _. exists config, filename. auto.
           ++ split.
              ** intros (e & He & ->). rewrite He in Hout. contradiction.
              ** intros (c & f' & [= <-] & Hf & _ & Hnil).
                 rewrite Ef in Hf. injection Hf as <-. congruence.
      * rewrite Hout. split.
        -- intros (e & [= <-] & He). discriminate.
        -- intros (c & f & [= <-] & Hf & _). congruence.
    + rewrite Hout. split.
      * intros (e & [= <-] & He). discriminate.
      * intros (c & f & Hc & _). discriminate.
Qed.

(** C7. A region whose fetch is absent adds nothing and the loop goes
    on to the next region: the formats are those that the answers of the
    regions yield, every one of them kept, the unrestricted region
    first.  The build fails with StreamingUnavailableError exactly when
    the configuration names an asset and neither region yields a
    format. *)
Theorem streaming_unavailable_iff `{InfoExtractor} utcoffset upstream programme_id :
  (forall filename,
      S4CClicBaseIE._fetch_and_validate_streaming_urls filename programme_id
      = Written.region_yield filename programme_id "WW"
        ++ Written.region_yield filename programme_id "UK")
  /\ (forall filename region,
        region = "WW"%string \/ region = "UK"%string ->
        (download_streaming_urls region filename programme_id = None ->
         Written.region_yield filename programme_id region = [])
        /\ forall streaming_urls format,
             download_streaming_urls region filename programme_id
             = Some streaming_urls ->
             streaming_urls <> ∅ ->
             In format
               (Written.resolved_formats filename region streaming_urls) ->
             In format
               (S4CClicBaseIE._fetch_and_validate_streaming_urls
                  filename programme_id))
  /\ (Written.fails_with Written.StreamingUnavailableError
        (S4CClicBaseIE._extract_episode_info utcoffset upstream programme_id)
      <-> exists config_data filename,
            download_player_configuration programme_id = Some config_data
            /\ cfg_filename config_data = Some filename
            /\ filename <> ""%string
            /\ Written.region_yield filename programme_id "WW" = []
            /\ Written.region_yield filename programme_id "UK" = []).
Proof.
  split; [| split].
  - intros filename. apply fetch_by_regions.
  - intros filename region Hregion. split.
    + intros Hnone. unfold Written.region_yield. rewrite Hnone. reflexivity.
    + intros streaming_urls format Hfetch Hne Hin.
      rewrite fetch_by_regions. apply in_or_app.
      assert (Hyield : Written.region_yield filename programme_id region
                       = Written.resolved_formats filename region
                           streaming_urls).
      { unfold Written.region_yield. rewrite Hfetch.
        rewrite bool_decide_eq_false_2 by exact Hne. reflexivity. }
      destruct Hregion as [-> | ->]; [left | right]; rewrite Hyield;
        exact Hin.
  - rewrite streaming_failure. split.
    + intros (config_data & filename & Hc & Hf & Hne & Hnil).
      exists config_data, filename.
      rewrite fetch_by_regions in Hnil. apply app_eq_nil in Hnil as [Hw Hu].
      auto.
    + intros (config_data & filename & Hc & Hf & Hne & Hw & Hu).
      exists config_data, filename.
      rewrite fetch_by_regions, Hw, Hu. auto.
Qed.

Lemma upstream_fetch_error_witness :
  Written.fails_with Written.UpstreamFetchError
    (S4CClicBaseIE._extract_episode_info (H := Sample.catalogue) Sample.utc
       Sample.plain_episode "404")
  /\ Written.fails_with Written.UpstreamFetchError
       (S4CClicBaseIE._extract_episode_info (H := Sample.catalogue) Sample.utc
          Sample.plain_episode "405").
Proof.
  split.
  - apply (proj1 (upstream_fetch_error_iff (H := Sample.catalogue) Sample.utc
                    Sample.plain_episode "404")). exact I.
  - apply (proj1 (upstream_fetch_error_iff (H := Sample.catalogue) Sample.utc
                    Sample.plain_episode "405")). reflexivity.
Defined.

Lemma streaming_unavailable_witness :
  In {| format_id := "hls-UK"; format_url := "https://cdn.s4c.cymru/uk.m3u8" |}
    (S4CClicBaseIE._fetch_and_validate_streaming_urls (H := Sample.catalogue)
       "asset.mp4" "101")
  /\ Written.fails_with Written.StreamingUnavailableError
       (S4CClicBaseIE._extract_episode_info (H := Sample.catalogue) Sample.utc
          Sample.plain_episode "406").
Proof.
  split.
  - apply (proj2 (proj1 (proj2 (streaming_unavailable_iff
                                  (H := Sample.catalogue) Sample.utc
                                  Sample.plain_episode "101"))
                    "asset.mp4"%string "UK"%string (or_intror eq_refl))
             {[ "hls"%string := "https://cdn.s4c.cymru/uk.m3u8"%string ]}).
    + reflexivity.
    + intros Hempty.
      apply (f_equal (fun urls : StreamingUrls => urls !! "hls"%string))
        in Hempty.
      vm_compute in Hempty. discriminate.
    + vm_compute. left. reflexivity.
  - apply (proj2 (proj2 (streaming_unavailable_iff (H := Sample.catalogue)
                           Sample.utc Sample.plain_episode "406"))).
    eexists _, "blocked.mp4"%string.
    split; [reflexivity |]. split; [reflexivity |].
    split; [discriminate |]. split; reflexivity.
Defined.

(** ** Season and episode numbers of a built record *)

Lemma nothing_in_the_empty_title :
  S4CClicBaseIE._extract_episode_number_from_title "" = None
  /\ S4CClicBaseIE._extract_episode_number_from_text "" = (None, ""%string)
  /\ Marker.has_season_marker "" = false
  /\ Marker.has_season_marker "No Title" = false.
Proof. vm_compute. repeat split; reflexivity. Qed.






(** ** Subtitle tracks *)

Lemma collect_from (subtitles_list : list SubtitleDescriptor) :
  forall (held : gmap string (list SubtitleTrack)) (lang_code : string),
    fold_left S4CClicBaseIE.add_subtitle subtitles_list held !! lang_code
    = Written.extended (held !! lang_code) (Written.tracks_for lang_code subtitles_list).
Proof.
  induction subtitles_list as [|subtitle rest IH]; intros held lang_code.
  - reflexivity.
  - cbn [fold_left]. rewrite IH.
    unfold S4CClicBaseIE.add_subtitle, Written.tracks_for.
    cbn [flat_map]. fold (Written.tracks_for lang_code rest).
    destruct (truthy (subtitle !! "3"%string) && truthy (subtitle !! "0"%string));
      cbn [andb]; [| reflexivity].
    destruct (String.eqb (default "" (subtitle !! "3"%string)) lang_code) eqn:E.
    + apply String.eqb_eq in E. rewrite E.
      unfold S4CClicBaseIE.setdefault_append. rewrite lookup_insert_eq.
      cbn [app].
      destruct (Written.tracks_for lang_code rest) as [|track tracks];
        cbn [Written.extended].
      * reflexivity.
      * cbn [default from_option Datatypes.id]. rewrite <- app_assoc.
        reflexivity.
    + apply String.eqb_neq in E.
      unfold S4CClicBaseIE.setdefault_append.
      rewrite lookup_insert_ne by exact E. reflexivity.
Qed.

(** C10, as written, does not hold: a descriptor that has both keys
    but an empty address is dropped, not grouped under its language. *)
Lemma empty_address_is_dropped :
  S4CClicBaseIE.collect_subtitles [Sample.empty_address_track] !! "cym"%string
  = None
  /\ Written.written_collect_subtitles [Sample.empty_address_track] !! "cym"%string
     = Some [ {| url := ""; ext := "vtt" |} ]
  /\ S4CClicBaseIE.collect_subtitles [Sample.empty_address_track]
     <> Written.written_collect_subtitles [Sample.empty_address_track].
Proof.
  assert (H1 : S4CClicBaseIE.collect_subtitles [Sample.empty_address_track]
               !! "cym"%string = None) by (vm_compute; reflexivity).
  assert (H2 : Written.written_collect_subtitles [Sample.empty_address_track]
               !! "cym"%string = Some [ {| url := ""; ext := "vtt" |} ])
    by (vm_compute; reflexivity).
  split; [exact H1 |]. split; [exact H2 |].
  intros Heq. rewrite Heq in H1. congruence.
Qed.

(** C10, amended: every descriptor whose language code (key "3") or
    VTT address (key "0") is missing or empty is skipped; the others are
    grouped by language code, each as a track with that address and
    format "vtt", in input order within each language. *)
Theorem subtitles_grouped_by_language
    (subtitles_list : list SubtitleDescriptor) (lang_code : string) :
  S4CClicBaseIE.collect_subtitles subtitles_list !! lang_code
  = match Written.tracks_for lang_code subtitles_list with
    | [] => None
    | tracks => Some tracks
    end.
Proof.
  unfold S4CClicBaseIE.collect_subtitles. rewrite collect_from.
  rewrite lookup_empty.
  destruct (Written.tracks_for lang_code subtitles_list); reflexivity.
Qed.

(** * Further properties of the source *)

(** ** What a capturing group holds *)

Module Captures.

Import Text Re ReSpec ReFacts.

Lemma get_set_group n t c : get_group n (set_group n t c) = t.
Proof. unfold set_group. simpl. rewrite Nat.eqb_refl. reflexivity. Qed.

Lemma get_set_other n m t c :
  n <> m -> get_group n (set_group m t c) = get_group n c.
Proof.
  intros Hne. unfold set_group. simpl.
  destruct (Nat.eqb_spec n m); [contradiction | reflexivity].
Qed.

Lemma star_loop_frame ic r
    (IH : forall p s c k o, rmatch ic r p s c k = Some o ->
          exists p' s' c',
            k p' s' c' = Some o
            /\ forall n, ~ In n (group_numbers r) -> get_group n c' = get_group n c) :
  forall fuel p s c k o,
    star_loop (rmatch ic r) fuel p s c k = Some o ->
    exists p' s' c',
      k p' s' c' = Some o
      /\ forall n, ~ In n (group_numbers r) -> get_group n c' = get_group n c.
Proof.
  induction fuel as [|fuel IHf]; intros p s c k o Hm; simpl in Hm.
  - exists p, s, c. split; [exact Hm | reflexivity].
  - apply orelse_Some in Hm as [Hm | Hm].
    + apply IH in Hm as (p1 & s1 & c1 & Hk & Hc1).
      destruct (length s1 <? length s)%nat; [| discriminate].
      apply IHf in Hk as (p2 & s2 & c2 & Hk & Hc2).
      exists p2, s2, c2. split; [exact Hk |].
      intros n Hn. rewrite (Hc2 n Hn). apply Hc1, Hn.
    + exists p, s, c. split; [exact Hm | reflexivity].
Qed.

(** Matching a pattern leaves the groups it does not mention as they
    were. *)
Theorem rmatch_frame ic r :
  forall p s c k o,
    rmatch ic r p s c k = Some o ->
    exists p' s' c',
      k p' s' c' = Some o
      /\ forall n, ~ In n (group_numbers r) -> get_group n c' = get_group n c.
Proof.
  induction r as [| a | f | r1 IH1 r2 IH2 | r1 IH1 r2 IH2 | r IH | r IH | r IH
                 | g r IH | |]; intros p s c k o Hm; simpl in Hm.
  - exists p, s, c. split; [exact Hm | reflexivity].
  - destruct s as [|b s]; [discriminate |].
    destruct (Char.eqc ic a b); [| discriminate].
    exists (Some b), s, c. split; [exact Hm | reflexivity].
  - destruct s as [|b s]; [discriminate |].
    destruct (f b); [| discriminate].
    exists (Some b), s, c. split; [exact Hm | reflexivity].
  - apply IH1 in Hm as (p1 & s1 & c1 & Hm & Hc1).
    apply IH2 in Hm as (p2 & s2 & c2 & Hm & Hc2).
    exists p2, s2, c2. split; [exact Hm |].
    intros n Hn. simpl in Hn. rewrite in_app_iff in Hn.
    rewrite Hc2 by tauto. apply Hc1. tauto.
  - apply orelse_Some in Hm as [Hm | Hm].
    + apply IH1 in Hm as (p1 & s1 & c1 & Hm & Hc1).
      exists p1, s1, c1. split; [exact Hm |].
      intros n Hn. simpl in Hn. rewrite in_app_iff in Hn. apply Hc1. tauto.
    + apply IH2 in Hm as (p1 & s1 & c1 & Hm & Hc1).
      exists p1, s1, c1. split; [exact Hm |].
      intros n Hn. simpl in Hn. rewrite in_app_iff in Hn. apply Hc1. tauto.
  - exact (star_loop_frame ic r IH _ _ _ _ _ _ Hm).
  - apply IH in Hm as (p1 & s1 & c1 & Hm & Hc1).
    apply (star_loop_frame ic r IH) in Hm as (p2 & s2 & c2 & Hm & Hc2).
    exists p2, s2, c2. split; [exact Hm |].
    intros n Hn. rewrite (Hc2 n Hn). apply Hc1, Hn.
  - apply orelse_Some in Hm as [Hm | Hm].
    + apply IH in Hm as (p1 & s1 & c1 & Hm & Hc1).
      exists p1, s1, c1. split; [exact Hm | exact Hc1].
    + exists p, s, c. split; [exact Hm | reflexivity].
  - apply IH in Hm as (p1 & s1 & c1 & Hm & Hc1).
    eexists p1, s1, _. split; [exact Hm |].
    intros n Hn. simpl in Hn.
    rewrite get_set_other by (intros ->; apply Hn; left; reflexivity).
    apply Hc1. intros Hin. apply Hn. right. exact Hin.
  - destruct p; [discriminate |].
    exists None, s, c. split; [exact Hm | reflexivity].
  - destruct (xorb _ _); [| discriminate].
    exists p, s, c. split; [exact Hm | reflexivity].
Qed.

(** A plain group of one or more digits, followed by a pattern that
    does not reuse its number: at the end of a match the group holds a
    non-empty run of digits. *)
Lemma digits_group_found ic g (rest : regex) (Hg : ~ In g (group_numbers rest)) :
  forall (pre : list regex) p s c o,
    rmatch ic (fold_right Cat (Cat (Grp g (Plus (Cls Char.is_digit))) rest) pre)
      p s c (fun _ s' c' => Some (s', c')) = Some o ->
    exists a run,
      Char.is_digit a = true /\ forallb Char.is_digit run = true
      /\ get_group g (snd o) = a :: run.
Proof.
  induction pre as [|r pre IH]; intros p s c o Hm.
  - cbn [fold_right] in Hm.
    change (rmatch ic (Plus (Cls Char.is_digit)) p s c
              (fun p' s' c' =>
                 rmatch ic rest p' s' (set_group g (consumed s s') c')
                   (fun _ s0 c0 => Some (s0, c0))) = Some o) in Hm.
    apply rmatch_sound in Hm as (p1 & s1 & c1 & Hplus & Hm).
    apply rmatch_frame in Hm as (p2 & s2 & c2 & Hend & Hc2).
    injection Hend as <-. cbn [snd].
    rewrite (Hc2 g Hg), get_set_group.
    apply plus_inv in Hplus as (p3 & s3 & Hd & Hstar).
    apply cls_inv in Hd as (a & -> & -> & Ha).
    apply star_cls_inv in Hstar as (run & -> & Hrun & _).
    exists a, run. split; [exact Ha |]. split; [exact Hrun |].
    change (a :: run ++ s1) with ((a :: run) ++ s1).
    apply LeadingNumber.consumed_app.
  - cbn [fold_right] in Hm.
    change (rmatch ic r p s c
              (fun p' s' c' =>
                 rmatch ic
                   (fold_right Cat (Cat (Grp g (Plus (Cls Char.is_digit))) rest) pre)
                   p' s' c' (fun _ s0 c0 => Some (s0, c0))) = Some o) in Hm.
    apply rmatch_sound in Hm as (p1 & s1 & c1 & _ & Hm).
    eapply IH, Hm.
Qed.

Lemma match_at_digits ic g rest pre p s m :
  ~ In g (group_numbers rest) ->
  match_at ic (fold_right Cat (Cat (Grp g (Plus (Cls Char.is_digit))) rest) pre)
    p s = Some m ->
  exists a run,
    Char.is_digit a = true /\ forallb Char.is_digit run = true
    /\ get_group g (groups m) = a :: run.
Proof.
  intros Hg Hm. unfold match_at in Hm.
  destruct (rmatch ic _ p s [] _) as [[s' c']|] eqn:E; [| discriminate].
  injection Hm as <-.
  apply (digits_group_found ic g rest Hg pre) in E. exact E.
Qed.

Lemma search_from_found ic r : forall s p m,
  search_from ic r p s = Some m -> exists p' s', match_at ic r p' s' = Some m.
Proof.
  induction s as [|a s IH]; intros p m Hs; simpl in Hs.
  - destruct (match_at ic r p []) eqn:E; [| discriminate].
    injection Hs as <-. eauto.
  - destruct (match_at ic r p (a :: s)) eqn:E.
    + injection Hs as <-. eauto.
    + eapply IH, Hs.
Qed.

Lemma digit_val_range a :
  Char.is_digit a = true -> 0 <= Char.digit_val a <= 9.
Proof.
  unfold Char.is_digit, Char.between, Char.digit_val.
  intros Ha. apply andb_true_iff in Ha as [Hlo Hhi].
  apply N.leb_le in Hlo, Hhi. lia.
Qed.

Lemma int_of_digits_nonneg run :
  forallb Char.is_digit run = true -> 0 <= int_of_digits run.
Proof.
  assert (Hgen : forall (l : text) (acc : Z),
             0 <= acc -> forallb Char.is_digit l = true ->
             0 <= fold_left (fun acc a => acc * 10 + Char.digit_val a) l acc).
  { induction l as [|a l IH]; intros acc Hacc Hl; [exact Hacc |].
    simpl in Hl. apply andb_true_iff in Hl as [Ha Hl].
    simpl. apply IH; [| exact Hl].
    pose proof (digit_val_range a Ha). lia. }
  intros Hrun. apply Hgen; [lia | exact Hrun].
Qed.

(** What each extractor returns is the integer of a run of digits. *)
Lemma group_is_nonneg g (m : match_object) a run :
  Char.is_digit a = true -> forallb Char.is_digit run = true ->
  get_group g (Re.groups m) = a :: run ->
  0 <= int_of_digits (get_group g (Re.groups m)).
Proof.
  intros Ha Hrun ->. apply int_of_digits_nonneg.
  simpl. rewrite Ha, Hrun. reflexivity.
Qed.

End Captures.

(** ** The numbers the extractors return *)

Module Numbers.

Import Text Re ReSpec ReFacts Captures S4CClicBaseIE.

Ltac digits_of E g rest pre :=
  apply (match_at_digits _ g rest pre) in E;
  [ destruct E as (a & run & Ha & Hrun & E);
    cbn [group]; eapply group_is_nonneg; eassumption
  | cbn; tauto ].

Lemma from_title_nonneg title n :
  _extract_episode_number_from_title title = Some n -> 0 <= n.
Proof.
  unfold _extract_episode_number_from_title, re_match.
  destruct (match_at false re_episode_title None (of_string title))
    as [m|] eqn:E; [| discriminate].
  intros [= <-].
  digits_of E 1%nat Eps
    [Bol; Alt (Lit "Pennod") (Lit "Episode"); Star space].
Qed.

Lemma from_text_nonneg text n :
  fst (_extract_episode_number_from_text text) = Some n -> 0 <= n.
Proof.
  unfold _extract_episode_number_from_text, re_match.
  destruct (match_at false re_leading_number None (of_string text))
    as [m|] eqn:E; [| discriminate].
  cbn [fst]. intros [= <-].
  digits_of E 1%nat (Cat (Star (Cls separator)) Eps) [Bol].
Qed.

Lemma season_nonneg title n :
  fst (_extract_season_number_from_title title) = Some n -> 0 <= n.
Proof.
  unfold _extract_season_number_from_title, re_search.
  destruct (search_from true re_season_with_separators None (of_string title))
    as [m|] eqn:E.
  - cbn [fst]. intros [= <-].
    apply search_from_found in E as (p' & s' & E).
    digits_of E 2%nat Eps
      [Star space; Star (Cls separator); Star space;
       Grp 1 (Alt (Lit "Cyfres") (Lit "Season")); Star space; Opt (Chr "X")].
  - destruct (search_from true re_season None (of_string title))
      as [m|] eqn:E2; [| discriminate].
    cbn [fst]. intros [= <-].
    apply search_from_found in E2 as (p' & s' & E2).
    digits_of E2 2%nat Eps
      [Grp 1 (Alt (Lit "Cyfres") (Lit "Season")); Star space; Opt (Chr "X")].
Qed.

Lemma free_text_nonneg text n :
  _extract_episode_number text = Some n -> 0 <= n.
Proof.
  unfold _extract_episode_number, re_search.
  destruct (search_from false re_episode None (of_string text))
    as [m|] eqn:E; [| discriminate].
  intros [= <-]. apply search_from_found in E as (p' & s' & E).
  digits_of E 1%nat (Cat Wordb Eps) [Wordb; Chr "E"].
Qed.

Lemma filename_nonneg filename n :
  _extract_episode_number_from_filename filename = Some n -> 0 <= n.
Proof.
  unfold _extract_episode_number_from_filename, re_search.
  destruct (search_from true re_filename None (of_string filename))
    as [m|] eqn:E; [| discriminate].
  intros [= <-]. apply search_from_found in E as (p' & s' & E).
  digits_of E 1%nat Eps
    [Cls (one_of "_-"); Alt (Lit "pennod") (Lit "episode"); Opt (Chr "_")].
Qed.

Lemma thumbnail_nonneg thumbnail_url n :
  _extract_episode_number_from_thumbnail thumbnail_url = Some n -> 0 <= n.
Proof.
  unfold _extract_episode_number_from_thumbnail, re_search.
  destruct (search_from false re_thumbnail None (of_string thumbnail_url))
    as [m|] eqn:E; [| discriminate].
  intros [= <-]. apply search_from_found in E as (p' & s' & E).
  digits_of E 1%nat Eps [Chr "_"; Chr "P"].
Qed.

End Numbers.

(** X1. No extractor returns a negative number, so a built record has a
    season number of at least 0 and an episode number, when it has
    one, of at least 0. *)
Theorem record_numbers_nonnegative `{InfoExtractor} utcoffset upstream
    programme_id record :
  S4CClicBaseIE._extract_episode_info utcoffset upstream programme_id
  = Ok record ->
  0 <= season_number record
  /\ forall n, episode_number record = Some n -> 0 <= n.
Proof.
  intros Hok.
  apply Builder.build_ok in Hok as (_ & Hseason & Hnumber & _).
  split.
  - rewrite Hseason.
    destruct (fst (S4CClicBaseIE._extract_season_number_from_title _))
      as [season|] eqn:E; [| cbn; lia].
    cbn. eapply Numbers.season_nonneg, E.
  - intros n Hn. rewrite Hnumber in Hn.
    unfold Stages.resolved_episode_number in Hn. cbv zeta in Hn.
    cbn [Written.first_some] in Hn.
    repeat match type of Hn with
           | match ?x with _ => _ end = _ => destruct x eqn:?
           end;
      try discriminate; injection Hn as <-;
      eauto using Numbers.from_title_nonneg, Numbers.from_text_nonneg,
        Numbers.free_text_nonneg, Numbers.thumbnail_nonneg,
        Numbers.filename_nonneg.
Qed.

Lemma record_numbers_nonnegative_witness :
  exists record,
    S4CClicBaseIE._extract_episode_info (H := Sample.catalogue) Sample.utc
      Sample.dated_episode "103" = Ok record
    /\ season_number record = 23 /\ episode_number record = Some 5
    /\ 0 <= season_number record.
Proof.
  destruct (S4CClicBaseIE._extract_episode_info (H := Sample.catalogue)
              Sample.utc Sample.dated_episode "103") as [record|e] eqn:E.
  - exists record. split; [reflexivity |].
    pose proof (record_numbers_nonnegative (H := Sample.catalogue) Sample.utc
                  Sample.dated_episode "103" record E) as [Hs _].
    vm_compute in E. injection E as <-.
    split; [reflexivity |]. split; [reflexivity | exact Hs].
  - vm_compute in E. discriminate.
Defined.

(** ** The builder, stage by stage *)

Module Staged.

Import Text S4CClicBaseIE Stages Assembly.

Section Equation.

Context `{InfoExtractor}.
Variable utcoffset : Z -> Z.

(** [_extract_episode_info] as a sequence of four stages: the player
    configuration, the streaming formats, the two dates, the record. *)
Lemma build_equation upstream programme_id :
  _extract_episode_info utcoffset upstream programme_id
  = match download_player_configuration programme_id with
    | None => Raise (ExtractorError "Unable to fetch player configuration")
    | Some config_data =>
        if truthy (cfg_filename config_data)
        then
          match _fetch_and_validate_streaming_urls
                  (default "" (cfg_filename config_data)) programme_id with
          | [] => Raise (ExtractorError "Unable to fetch valid streaming URLs")
          | format :: more =>
              let* release := date_stage utcoffset (ep_last_tx upstream) in
              let* modified := date_stage utcoffset (ep_clic_aired upstream) in
              Ok (assembled upstream programme_id config_data (format :: more)
                    release modified)
          end
        else
          Raise (ExtractorError "Filename is missing in the player configuration")
    end.
Proof.
  unfold _extract_episode_info, assembled, resolved_episode_number,
    working_title, date_stage, year_of.
  fold (resolved_series_title upstream).
  destruct (_extract_season_number_from_title (resolved_series_title upstream))
    as [season title0].
  set (programme_title := default "" (ep_programme_title upstream)).
  set (mpg := default "" (ep_mpg upstream)).
  set (thumb := default "" (ep_thumbnail_url upstream)).
  assert (Hguard :
            (if negb (String.eqb mpg "")
             then _extract_episode_number_from_filename mpg else None)
            = _extract_episode_number_from_filename mpg).
  { destruct (String.eqb mpg "") eqn:E; [| reflexivity].
    apply String.eqb_eq in E. rewrite E. symmetry.
    apply Builder.filename_of_nothing. }
  destruct (_extract_episode_number_from_title programme_title) as [n1|];
    [| destruct (_extract_episode_number_from_text programme_title)
         as [[n2|] t2]];
    cbv beta iota zeta;
    (destruct (download_player_configuration programme_id) as [config|];
       [| reflexivity];
     destruct (truthy (cfg_filename config)); [| reflexivity]; cbn [negb];
     destruct (_fetch_and_validate_streaming_urls _ _) as [|f fs];
       [reflexivity |];
     destruct (truthy (ep_last_tx upstream));
       [destruct (parse_welsh_date utcoffset (default "" (ep_last_tx upstream)))
          as [rt|e1]; [| reflexivity];
        cbn [bind];
        destruct (format_date rt) as [rd|e2]; [| reflexivity] |];
     cbn [bind];
     (destruct (truthy (ep_clic_aired upstream));
        [destruct (parse_welsh_date utcoffset
                     (default "" (ep_clic_aired upstream)))
           as [mt|e3]; [| reflexivity];
         cbn [bind];
         destruct (format_date mt) as [md|e4]; [| reflexivity] |]);
     cbn [bind option_map fst snd Written.first_some]);
    try reflexivity;
    rewrite Hguard;
    destruct (_extract_episode_number mpg);
    destruct (_extract_episode_number_from_thumbnail thumb);
    destruct (_extract_episode_number_from_filename mpg); reflexivity.
Qed.

End Equation.

End Staged.

(** ** The matcher, one step at a time *)

Module Stepping.

Import Text Re.

Lemma step_cat ic r1 r2 p s c k :
  rmatch ic (Cat r1 r2) p s c k
  = rmatch ic r1 p s c (fun p' s' c' => rmatch ic r2 p' s' c' k).
Proof. reflexivity. Qed.

Lemma step_chr ic a b p s c k :
  Char.eqc ic a b = true -> rmatch ic (Chr a) p (b :: s) c k = k (Some b) s c.
Proof. intros Hb. simpl. rewrite Hb. reflexivity. Qed.

Lemma step_chr_miss ic a b p s c k :
  Char.eqc ic a b = false -> rmatch ic (Chr a) p (b :: s) c k = None.
Proof. intros Hb. simpl. rewrite Hb. reflexivity. Qed.

Lemma step_cls ic f b p s c k :
  f b = true -> rmatch ic (Cls f) p (b :: s) c k = k (Some b) s c.
Proof. intros Hb. simpl. rewrite Hb. reflexivity. Qed.

Lemma step_cls_miss ic f b p s c k :
  f b = false -> rmatch ic (Cls f) p (b :: s) c k = None.
Proof. intros Hb. simpl. rewrite Hb. reflexivity. Qed.

Lemma step_end ic r p c k :
  (exists a, r = Chr a) \/ (exists f, r = Cls f) ->
  rmatch ic r p [] c k = None.
Proof. intros [[a ->] | [f ->]]; reflexivity. Qed.

Lemma step_alt ic r1 r2 p s c k :
  rmatch ic (Alt r1 r2) p s c k
  = orelse (rmatch ic r1 p s c k) (rmatch ic r2 p s c k).
Proof. reflexivity. Qed.

Lemma step_opt ic r p s c k :
  rmatch ic (Opt r) p s c k = orelse (rmatch ic r p s c k) (k p s c).
Proof. reflexivity. Qed.

Lemma step_grp ic n r p s c k :
  rmatch ic (Grp n r) p s c k
  = rmatch ic r p s c
      (fun p' s' c' => k p' s' (set_group n (consumed s s') c')).
Proof. reflexivity. Qed.

Lemma eqc_same ic a : Char.eqc ic a a = true.
Proof. unfold Char.eqc. destruct ic; apply Ascii.eqb_refl. Qed.

(** A literal word in front of the input is consumed as it stands. *)
Lemma step_word ic (w : text) : forall p s c k,
  rmatch ic (fold_right (fun a r => Cat (Chr a) r) Eps w) p (w ++ s) c k
  = k (List.last (map Some w) p) s c.
Proof.
  induction w as [|a w IH]; intros p s c k; [reflexivity |].
  cbn [fold_right app]. rewrite step_cat, step_chr by apply eqc_same.
  rewrite IH. destruct w as [|b w]; [reflexivity |].
  cbn [map]. f_equal.
  exact (ReFacts.last_cons_default (Some b) (map Some w) (Some a) p).
Qed.

Lemma step_lit ic (w : string) p s c k :
  rmatch ic (Lit w) p (of_string w ++ s) c k
  = k (List.last (map Some (of_string w)) p) s c.
Proof. apply step_word. Qed.

(** One or more digits in front of something that is not a digit, with
    a continuation that accepts the end of the run. *)
Lemma step_digits ic (a : ascii) (run s : text) p c k o :
  Char.is_digit a = true -> forallb Char.is_digit run = true ->
  match s with b :: _ => Char.is_digit b = false | [] => True end ->
  k (List.last (map Some run) (Some a)) s c = Some o ->
  rmatch ic (Plus (Cls Char.is_digit)) p (a :: run ++ s) c k = Some o.
Proof.
  intros Ha Hrun Hs Hk.
  change (rmatch ic (Cls Char.is_digit) p (a :: run ++ s) c
            (fun p' s' c' =>
               star_loop (rmatch ic (Cls Char.is_digit)) (length s') p' s' c' k)
          = Some o).
  rewrite step_cls by exact Ha.
  eapply LeadingNumber.star_cls_greedy; [lia | | exact Hk].
  apply PatternFacts.span_run; assumption.
Qed.

End Stepping.

(** ** Welsh dates, from text to fields *)

Module DateText.

Import Text Re Stepping Rendering.

Lemma of_to_string t : of_string (to_string t) = t.
Proof. apply list_ascii_of_string_of_list_ascii. Qed.

Lemma to_of_string s : to_string (of_string s) = s.
Proof. apply string_of_list_ascii_of_string. Qed.

Lemma to_string_app a b : to_string (a ++ b) = (to_string a +:+ to_string b)%string.
Proof.
  induction a as [|x a IH]; [reflexivity |].
  simpl. rewrite IH. reflexivity.
Qed.

(** *** Digits *)

Lemma digit_char_code k :
  0 <= k <= 9 -> Char.code (ascii_of_N (Z.to_N (48 + k))) = Z.to_N (48 + k).
Proof. intros Hk. unfold Char.code. apply N_ascii_embedding. lia. Qed.

Lemma digit_char_is_digit k :
  0 <= k <= 9 -> Char.is_digit (ascii_of_N (Z.to_N (48 + k))) = true.
Proof.
  intros Hk. unfold Char.is_digit, Char.between.
  rewrite digit_char_code by exact Hk.
  apply andb_true_iff. split; apply N.leb_le; lia.
Qed.

Lemma digit_char_val k :
  0 <= k <= 9 -> Char.digit_val (ascii_of_N (Z.to_N (48 + k))) = k.
Proof.
  intros Hk. unfold Char.digit_val. rewrite digit_char_code by exact Hk. lia.
Qed.

Lemma mod_10_range x : 0 <= x mod 10 <= 9.
Proof. pose proof (Z.mod_pos_bound x 10). lia. Qed.

Lemma zero_pad_digits width n :
  forallb Char.is_digit (Datetime.zero_pad width n) = true.
Proof.
  induction width as [|w IH]; [reflexivity |].
  cbn [Datetime.zero_pad forallb]. rewrite IH, digit_char_is_digit;
    [reflexivity |].
  apply mod_10_range.
Qed.

Lemma digits_blank_free t :
  forallb Char.is_digit t = true -> blank_free t = true.
Proof.
  unfold blank_free. induction t as [|a t IH]; [reflexivity |].
  simpl. intros Ht. apply andb_true_iff in Ht as [Ha Ht].
  rewrite (PatternFacts.digit_not_space a Ha), (IH Ht). reflexivity.
Qed.

Lemma int_of_zero_pad_1 n : 0 <= n <= 9 -> int_of_digits (Datetime.zero_pad 1 n) = n.
Proof.
  intros Hn. unfold int_of_digits. cbn [Datetime.zero_pad fold_left].
  change (10 ^ Z.of_nat 0) with 1.
  rewrite digit_char_val by apply mod_10_range.
  Z.div_mod_to_equations. lia.
Qed.

Lemma int_of_zero_pad_2 n : 0 <= n <= 99 -> int_of_digits (Datetime.zero_pad 2 n) = n.
Proof.
  intros Hn. unfold int_of_digits. cbn [Datetime.zero_pad fold_left].
  change (10 ^ Z.of_nat 1) with 10. change (10 ^ Z.of_nat 0) with 1.
  rewrite !digit_char_val by apply mod_10_range.
  Z.div_mod_to_equations. lia.
Qed.

Lemma int_of_zero_pad_4 n :
  0 <= n <= 9999 -> int_of_digits (Datetime.zero_pad 4 n) = n.
Proof.
  intros Hn. unfold int_of_digits. cbn [Datetime.zero_pad fold_left].
  change (10 ^ Z.of_nat 3) with 1000. change (10 ^ Z.of_nat 2) with 100.
  change (10 ^ Z.of_nat 1) with 10. change (10 ^ Z.of_nat 0) with 1.
  rewrite !digit_char_val by apply mod_10_range.
  Z.div_mod_to_equations. lia.
Qed.

(** *** [split] on three tokens *)

Lemma split_from_token tok : forall cur rest,
  blank_free tok = true ->
  split_from cur (tok ++ rest) = split_from (rev tok ++ cur) rest.
Proof.
  induction tok as [|a tok IH]; intros cur rest Htok; [reflexivity |].
  unfold blank_free in Htok. simpl in Htok.
  apply andb_true_iff in Htok as [Ha Htok]. apply negb_true_iff in Ha.
  cbn [app split_from]. rewrite Ha, (IH _ _ Htok).
  cbn [rev]. rewrite <- app_assoc. reflexivity.
Qed.

Lemma split_three (a b c : text) :
  a <> [] -> b <> [] -> c <> [] ->
  blank_free a = true -> blank_free b = true -> blank_free c = true ->
  split (a ++ " "%char :: b ++ " "%char :: c) = [a; b; c].
Proof.
  intros Ha Hb Hc Fa Fb Fc. unfold split.
  assert (Hstep : forall (tok rest : text),
             tok <> [] -> blank_free tok = true ->
             split_from [] (tok ++ " "%char :: rest)
             = tok :: split_from [] rest).
  { intros tok rest Hne Hfree. rewrite split_from_token by exact Hfree.
    rewrite app_nil_r. cbn [split_from].
    change (Char.is_space " ") with true. cbv iota.
    destruct (rev tok) as [|x l] eqn:E.
    - apply (f_equal (@rev ascii)) in E. rewrite rev_involutive in E.
      contradiction.
    - rewrite <- E, rev_involutive. reflexivity. }
  rewrite (Hstep a _ Ha Fa), (Hstep b _ Hb Fb).
  rewrite <- (app_nil_r c) at 1. rewrite split_from_token by exact Fc.
  rewrite app_nil_r. cbn [split_from].
  destruct (rev c) as [|x l] eqn:E.
  - apply (f_equal (@rev ascii)) in E. rewrite rev_involutive in E.
    contradiction.
  - rewrite <- E, rev_involutive. reflexivity.
Qed.

(** *** [strptime] on "yyyy-mm-dd" *)

Lemma step_chr_end ic a p c k : rmatch ic (Chr a) p [] c k = None.
Proof. reflexivity. Qed.

Lemma step_cls_end ic f p c k : rmatch ic (Cls f) p [] c k = None.
Proof. reflexivity. Qed.

Lemma consumed_nil t : consumed t [] = t.
Proof. unfold consumed. simpl. rewrite Nat.sub_0_r. apply firstn_all. Qed.

Lemma consumed_2 a b rest : consumed (a :: b :: rest) rest = [a; b].
Proof. apply (LeadingNumber.consumed_app [a; b] rest). Qed.

Lemma consumed_4 a b c d rest :
  consumed (a :: b :: c :: d :: rest) rest = [a; b; c; d].
Proof. apply (LeadingNumber.consumed_app [a; b; c; d] rest). Qed.

Ltac side := vm_compute; reflexivity.

Ltac step :=
  repeat first
    [ rewrite step_cat | rewrite step_grp | rewrite step_alt | rewrite step_opt
    | rewrite step_chr by side | rewrite step_chr_miss by side
    | rewrite step_cls by side | rewrite step_cls_miss by side
    | rewrite step_chr_end | rewrite step_cls_end
    | progress cbv beta | progress cbn [orelse] ].

Lemma step_year (c1 c2 c3 c4 : ascii) rest p c k :
  Char.is_digit c1 = true -> Char.is_digit c2 = true ->
  Char.is_digit c3 = true -> Char.is_digit c4 = true ->
  rmatch true (Grp 1 Datetime.fmt_Y) p (c1 :: c2 :: c3 :: c4 :: rest) c k
  = k (Some c4) rest (set_group 1 [c1; c2; c3; c4] c).
Proof.
  intros H1 H2 H3 H4. unfold Datetime.fmt_Y, Datetime.digit.
  rewrite step_grp, step_cat, (step_cls _ _ c1) by exact H1. cbv beta.
  rewrite step_cat, (step_cls _ _ c2) by exact H2. cbv beta.
  rewrite step_cat, (step_cls _ _ c3) by exact H3. cbv beta.
  rewrite (step_cls _ _ c4) by exact H4. cbv beta.
  rewrite consumed_4. reflexivity.
Qed.

Ltac concrete_pad :=
  repeat match goal with
         | |- context [Datetime.zero_pad ?w ?n] =>
             let v := eval vm_compute in (Datetime.zero_pad w n) in
             change (Datetime.zero_pad w n) with v
         | H : context [Datetime.zero_pad ?w ?n] |- _ =>
             let v := eval vm_compute in (Datetime.zero_pad w n) in
             change (Datetime.zero_pad w n) with v in H
         end.

(** The month pattern takes both digits of a two-digit month. *)
Lemma step_month m p rest c k o :
  1 <= m <= 12 ->
  k (List.last (map Some (Datetime.zero_pad 2 m)) p) rest
    (set_group 2 (Datetime.zero_pad 2 m) c) = Some o ->
  rmatch true (Grp 2 Datetime.fmt_m) p (Datetime.zero_pad 2 m ++ rest) c k
  = Some o.
Proof.
  intros Hm.
  assert (Hcases : m = 1 \/ m = 2 \/ m = 3 \/ m = 4 \/ m = 5 \/ m = 6 \/ m = 7
                   \/ m = 8 \/ m = 9 \/ m = 10 \/ m = 11 \/ m = 12) by lia.
  repeat (destruct Hcases as [-> | Hcases]); [.. | subst m];
    concrete_pad; cbn [map List.last app]; intros Hk;
    unfold Datetime.fmt_m, Datetime.range; step;
    rewrite consumed_2, Hk; reflexivity.
Qed.

(** The day pattern, at the end of the text, takes the whole day. *)
Lemma step_day padded d p c :
  1 <= d <= 31 ->
  rmatch true (Grp 3 Datetime.fmt_d) p (day_text padded d) c
    (fun _ s' c' => Some (s', c'))
  = Some ([], set_group 3 (day_text padded d) c)
  /\ int_of_digits (lstrip (day_text padded d)) = d
  /\ day_text padded d <> []
  /\ forallb Char.is_digit (day_text padded d) = true.
Proof.
  intros Hd.
  assert (Hcases : d = 1 \/ d = 2 \/ d = 3 \/ d = 4 \/ d = 5 \/ d = 6 \/ d = 7
                   \/ d = 8 \/ d = 9 \/ d = 10 \/ d = 11 \/ d = 12 \/ d = 13
                   \/ d = 14 \/ d = 15 \/ d = 16 \/ d = 17 \/ d = 18
                   \/ d = 19 \/ d = 20 \/ d = 21 \/ d = 22 \/ d = 23
                   \/ d = 24 \/ d = 25 \/ d = 26 \/ d = 27 \/ d = 28
                   \/ d = 29 \/ d = 30 \/ d = 31) by lia.
  repeat (destruct Hcases as [-> | Hcases]); [.. | subst d];
    destruct padded; vm_compute;
    (split; [reflexivity |]); (split; [reflexivity |]);
    (split; [discriminate | reflexivity]).
Qed.

Lemma strptime_iso padded y m d :
  1 <= y <= 9999 -> 1 <= m <= 12 -> 1 <= d <= 31 ->
  Datetime.strptime_Y_m_d
    (to_string (Datetime.zero_pad 4 y ++ "-"%char :: Datetime.zero_pad 2 m
                  ++ "-"%char :: day_text padded d))
  = if d <=? Datetime._days_in_month y m then Ok (y, m, d)
    else Raise (ValueError "day is out of range for month").
Proof.
  intros Hy Hm Hd.
  destruct (step_day padded d None [] Hd) as (_ & Hdval & _ & _).
  unfold Datetime.strptime_Y_m_d. rewrite of_to_string.
  pose proof (int_of_zero_pad_4 y ltac:(lia)) as Hyval.
  pose proof (int_of_zero_pad_2 m ltac:(lia)) as Hmval.
  pose proof (zero_pad_digits 4 y) as Hdigits.
  remember (Datetime.zero_pad 4 y) as Y eqn:EY.
  cbn [Datetime.zero_pad] in EY.
  destruct Y as [|c1 [|c2 [|c3 [|c4 [|c5 Y]]]]]; try discriminate EY.
  clear EY. cbn [forallb] in Hdigits.
  apply andb_true_iff in Hdigits as [H1 Hdigits].
  apply andb_true_iff in Hdigits as [H2 Hdigits].
  apply andb_true_iff in Hdigits as [H3 Hdigits].
  apply andb_true_iff in Hdigits as [H4 _].
  set (t := [c1; c2; c3; c4] ++ "-"%char :: Datetime.zero_pad 2 m
              ++ "-"%char :: day_text padded d).
  assert (Hmatch :
            rmatch true Datetime.fmt_Y_m_d None t []
              (fun _ s' c' => Some (s', c'))
            = Some ([], set_group 3 (day_text padded d)
                          (set_group 2 (Datetime.zero_pad 2 m)
                             (set_group 1 [c1; c2; c3; c4] [])))).
  { subst t. unfold Datetime.fmt_Y_m_d. cbn [app].
    rewrite step_cat, step_year by assumption. cbv beta.
    rewrite step_cat, step_chr by side. cbv beta.
    rewrite step_cat. apply step_month; [exact Hm |]. cbv beta.
    rewrite step_cat, step_chr by side. cbv beta.
    apply (step_day padded d _ _ Hd). }
  unfold re_match, match_at. rewrite Hmatch.
  cbn [group group0 Re.groups]. rewrite consumed_nil, Nat.eqb_refl.
  cbn [negb get_group set_group Nat.eqb].
  rewrite Hyval, Hmval, Hdval.
  unfold Datetime.MINYEAR, Datetime.MAXYEAR.
  replace (1 <=? y) with true by (symmetry; apply Z.leb_le; lia).
  replace (y <=? 9999) with true by (symmetry; apply Z.leb_le; lia).
  replace (1 <=? d) with true by (symmetry; apply Z.leb_le; lia).
  cbn [andb negb].
  destruct (d <=? Datetime._days_in_month y m); reflexivity.
Qed.

(** *** From the Welsh text to the timestamp *)

Lemma month_number_cases name m :
  month_number name = Some m ->
  1 <= m <= 12
  /\ dict_get WELSH_MONTHS name = Some (to_string (Datetime.zero_pad 2 m))
  /\ of_string name <> []
  /\ blank_free (of_string name) = true.
Proof.
  unfold month_number, WELSH_MONTHS. cbn [dict_get].
  repeat match goal with
         | |- context [String.eqb ?k name] =>
             destruct (String.eqb_spec k name) as [<- | _]
         end;
    cbn [option_map]; intros Hm; try discriminate Hm;
    injection Hm as <-;
    (split; [vm_compute; split; discriminate |]);
    (split; [vm_compute; reflexivity |]);
    (split; [discriminate | vm_compute; reflexivity]).
Qed.

Lemma convert_three (day name year : text) value :
  day <> [] -> name <> [] -> year <> [] ->
  blank_free day = true -> blank_free name = true -> blank_free year = true ->
  dict_get WELSH_MONTHS (to_string name) = Some value ->
  convert_welsh_date (to_string (day ++ " "%char :: name ++ " "%char :: year))
  = Ok (to_string (year ++ "-"%char :: of_string value ++ "-"%char :: day)).
Proof.
  intros Hd Hn Hy Fd Fn Fy Hvalue. unfold convert_welsh_date.
  rewrite of_to_string, split_three by assumption.
  rewrite Hvalue. reflexivity.
Qed.

(** A well-formed Welsh date parses to local midnight of that day, or
    is refused when the month has no such day. *)
Lemma parse_text utcoffset padded d name m y :
  month_number name = Some m -> 1 <= y <= 9999 -> 1 <= d <= 31 ->
  parse_welsh_date utcoffset (welsh_date_text padded d name y)
  = if d <=? Datetime._days_in_month y m
    then datetime_timestamp utcoffset (y, m, d)
    else Raise (ValueError "day is out of range for month").
Proof.
  intros Hname Hy Hd.
  destruct (month_number_cases name m Hname) as (Hm & Hvalue & Hne & Hfree).
  destruct (step_day padded d None [] Hd) as (_ & _ & Hdne & Hddig).
  unfold parse_welsh_date, welsh_date_text.
  rewrite (convert_three _ _ _ (to_string (Datetime.zero_pad 2 m)));
    [ | exact Hdne | exact Hne | discriminate
      | apply digits_blank_free, Hddig | exact Hfree
      | apply digits_blank_free, zero_pad_digits
      | rewrite to_of_string; exact Hvalue ].
  cbn [bind]. rewrite of_to_string, (strptime_iso padded y m d Hy Hm Hd).
  destruct (d <=? Datetime._days_in_month y m); reflexivity.
Qed.

Lemma same_day_west (offset : Z) y m d :
  -86400 < offset <= 0 ->
  utcfromtimestamp (Datetime.naive_seconds (y, m, d) - offset)
  = utcfromtimestamp (Datetime.naive_seconds (y, m, d)).
Proof.
  intros Hoffset. unfold utcfromtimestamp, Datetime.naive_seconds.
  replace (((Datetime._ymd2ord y m d - Datetime.EPOCH_ORDINAL) * 86400
            - offset) / 86400)
    with (((Datetime._ymd2ord y m d - Datetime.EPOCH_ORDINAL) * 86400)
          / 86400);
    [reflexivity |].
  Z.div_mod_to_equations. lia.
Qed.

Lemma day_before_east (offset : Z) y m d :
  0 < offset <= 86400 ->
  utcfromtimestamp (Datetime.naive_seconds (y, m, d) - offset)
  = utcfromtimestamp (Datetime.naive_seconds (y, m, d - 1)).
Proof.
  intros Hoffset. unfold utcfromtimestamp, Datetime.naive_seconds.
  replace (((Datetime._ymd2ord y m d - Datetime.EPOCH_ORDINAL) * 86400
            - offset) / 86400)
    with (((Datetime._ymd2ord y m (d - 1) - Datetime.EPOCH_ORDINAL) * 86400)
          / 86400);
    [reflexivity |].
  unfold Datetime._ymd2ord. Z.div_mod_to_equations. lia.
Qed.

Lemma utcfromtimestamp_midnight y m d :
  1 <= y <= 9999 -> 1 <= m <= 12 -> 1 <= d <= Datetime._days_in_month y m ->
  utcfromtimestamp (Datetime.naive_seconds (y, m, d)) = Ok (y, m, d).
Proof.
  intros Hy Hm Hd. unfold utcfromtimestamp, Datetime.naive_seconds.
  rewrite Z.div_mul by discriminate.
  replace (Datetime._ymd2ord y m d - Datetime.EPOCH_ORDINAL
           + Datetime.EPOCH_ORDINAL)
    with (Datetime._ymd2ord y m d) by lia.
  rewrite DatetimeFacts.ord2ymd_ymd2ord by lia.
  unfold Datetime.MINYEAR, Datetime.MAXYEAR.
  replace (1 <=? y) with true by (symmetry; apply Z.leb_le; lia).
  replace (y <=? 9999) with true by (symmetry; apply Z.leb_le; lia).
  reflexivity.
Qed.

Lemma four_digit_year y : 1000 <= y -> year_width y = 4%nat.
Proof.
  intros Hy. unfold year_width.
  destruct (Z.ltb_spec y 10); [lia |].
  destruct (Z.ltb_spec y 100); [lia |].
  destruct (Z.ltb_spec y 1000); [lia | reflexivity].
Qed.

Lemma strftime_four_digit_year y m d :
  1000 <= y ->
  strftime_Ymd (y, m, d)
  = to_string (Datetime.zero_pad 4 y ++ Datetime.zero_pad 2 m
                 ++ Datetime.zero_pad 2 d).
Proof. intros Hy. unfold strftime_Ymd. rewrite four_digit_year by exact Hy. reflexivity. Qed.

(** A timestamp is made for every valid date but the first day of
    year 1. *)
Lemma timestamp_made utcoffset y m d :
  1 <= y -> 1 <= m <= 12 -> 1 <= d <= Datetime._days_in_month y m ->
  (y, m, d) <> (1, 1, 1) ->
  datetime_timestamp utcoffset (y, m, d)
  = Ok (Datetime.naive_seconds (y, m, d)
        - utcoffset (Datetime.naive_seconds (y, m, d))).
Proof.
  intros Hy Hm Hd Hfirst. unfold datetime_timestamp.
  destruct (Z.eqb_spec (Datetime._ymd2ord y m d) 1) as [Hord|_];
    [| reflexivity].
  contradiction Hfirst. apply first_ordinal; assumption.
Qed.

Lemma year_of_compact y m d :
  1000 <= y <= 9999 -> Assembly.year_of (strftime_Ymd (y, m, d)) = y.
Proof.
  intros Hy. rewrite strftime_four_digit_year by lia.
  unfold Assembly.year_of. rewrite of_to_string.
  pose proof (int_of_zero_pad_4 y ltac:(lia)) as Hval.
  remember (Datetime.zero_pad 4 y) as Y eqn:EY.
  cbn [Datetime.zero_pad] in EY.
  destruct Y as [|c1 [|c2 [|c3 [|c4 [|c5 Y]]]]]; try discriminate EY.
  exact Hval.
Qed.

Lemma days_in_month_le_31 y m : 1 <= m <= 12 -> Datetime._days_in_month y m <= 31.
Proof.
  intros Hm. unfold Datetime._days_in_month.
  assert (Hcases : m = 1 \/ m = 2 \/ m = 3 \/ m = 4 \/ m = 5 \/ m = 6 \/ m = 7
                   \/ m = 8 \/ m = 9 \/ m = 10 \/ m = 11 \/ m = 12) by lia.
  repeat (destruct Hcases as [-> | Hcases]); [.. | subst m];
    destruct (Datetime._is_leap y); vm_compute; discriminate.
Qed.

End DateText.

(** ** Welsh dates: what parses, to what, and what does not *)

(** X3. A date written as day, Welsh month name and four-digit year,
    with a day the month has, parses to local midnight of that day: the
    seconds from 1970-01-01 to the date, less the local UTC offset.  The
    one exception is the first day of year 1, which is refused with a
    ValueError. *)
Theorem parse_welsh_date_valid utcoffset padded d name m y :
  Rendering.month_number name = Some m ->
  1 <= y <= 9999 ->
  1 <= d <= Datetime._days_in_month y m ->
  ((y, m, d) <> (1, 1, 1) ->
   parse_welsh_date utcoffset (Rendering.welsh_date_text padded d name y)
   = Ok ((Datetime._ymd2ord y m d - Datetime.EPOCH_ORDINAL) * 86400
         - utcoffset
             ((Datetime._ymd2ord y m d - Datetime.EPOCH_ORDINAL) * 86400)))
  /\ ((y, m, d) = (1, 1, 1) ->
      parse_welsh_date utcoffset (Rendering.welsh_date_text padded d name y)
      = Raise (ValueError "year 0 is out of range")).
Proof.
  intros Hname Hy Hd.
  destruct (DateText.month_number_cases name m Hname) as (Hm & _).
  pose proof (DateText.days_in_month_le_31 y m Hm) as Hmax.
  rewrite (DateText.parse_text utcoffset padded d name m y Hname Hy)
    by lia.
  replace (d <=? Datetime._days_in_month y m) with true
    by (symmetry; apply Z.leb_le; lia).
  split.
  - intros Hfirst.
    rewrite DateText.timestamp_made by (assumption || lia). reflexivity.
  - intros [= -> -> ->]. reflexivity.
Qed.

Lemma parse_welsh_date_valid_witness :
  Rendering.welsh_date_text false 5 "Mai" 1999 = "5 Mai 1999"%string
  /\ parse_welsh_date Sample.utc "5 Mai 1999" = Ok 925862400.
Proof.
  split; [vm_compute; reflexivity |].
  change "5 Mai 1999"%string with (Rendering.welsh_date_text false 5 "Mai" 1999).
  rewrite (proj1 (parse_welsh_date_valid Sample.utc false 5 "Mai" 5 1999
                    eq_refl ltac:(lia)
                    ltac:(vm_compute; split; discriminate))
             ltac:(discriminate)).
  reflexivity.
Defined.

(** X4. A day from 1 to 31 that the month does not have (30 Chwefror,
    31 Ebrill, 29 Chwefror outside leap years) is refused with a
    ValueError, whatever the local clock. *)
Theorem parse_welsh_date_impossible_day utcoffset padded d name m y :
  Rendering.month_number name = Some m ->
  1 <= y <= 9999 ->
  Datetime._days_in_month y m < d <= 31 ->
  parse_welsh_date utcoffset (Rendering.welsh_date_text padded d name y)
  = Raise (ValueError "day is out of range for month").
Proof.
  intros Hname Hy Hd.
  destruct (DateText.month_number_cases name m Hname) as (Hm & _).
  assert (Hpos : 1 <= Datetime._days_in_month y m).
  { unfold Datetime._days_in_month.
    assert (Hcases : m = 1 \/ m = 2 \/ m = 3 \/ m = 4 \/ m = 5 \/ m = 6
                     \/ m = 7 \/ m = 8 \/ m = 9 \/ m = 10 \/ m = 11
                     \/ m = 12) by lia.
    repeat (destruct Hcases as [-> | Hcases]); [.. | subst m];
      destruct (Datetime._is_leap y); vm_compute; discriminate. }
  rewrite (DateText.parse_text utcoffset padded d name m y Hname Hy)
    by lia.
  replace (d <=? Datetime._days_in_month y m) with false
    by (symmetry; apply Z.leb_gt; lia).
  reflexivity.
Qed.

Lemma parse_welsh_date_impossible_day_witness :
  Rendering.welsh_date_text false 29 "Chwefror" 2021 = "29 Chwefror 2021"%string
  /\ parse_welsh_date Sample.utc_plus_1 "29 Chwefror 2021"
     = Raise (ValueError "day is out of range for month").
Proof.
  split; [vm_compute; reflexivity |].
  change "29 Chwefror 2021"%string
    with (Rendering.welsh_date_text false 29 "Chwefror" 2021).
  apply (parse_welsh_date_impossible_day Sample.utc_plus_1 false 29
           "Chwefror" 2 2021);
    [ reflexivity | lia | vm_compute; split; [reflexivity | discriminate] ].
Defined.

(** X5. On a clock at UTC or west of it by less than a day, parsing a
    valid Welsh date of the years 1000 to 9999 and formatting the
    timestamp gives eight digits: the year as written, the two digits
    the month table holds for the name, and the day in two digits. *)
Theorem round_trip_keeps_the_date utcoffset padded d name m y :
  Rendering.month_number name = Some m ->
  1000 <= y <= 9999 ->
  1 <= d <= Datetime._days_in_month y m ->
  -86400 < utcoffset ((Datetime._ymd2ord y m d - Datetime.EPOCH_ORDINAL) * 86400)
    <= 0 ->
  (let* stamp :=
     parse_welsh_date utcoffset (Rendering.welsh_date_text padded d name y) in
   format_date stamp)
  = Ok (Text.to_string (Datetime.zero_pad 4 y ++ Datetime.zero_pad 2 m
                          ++ Datetime.zero_pad 2 d))
  /\ dict_get WELSH_MONTHS name
     = Some (Text.to_string (Datetime.zero_pad 2 m)).
Proof.
  intros Hname Hy Hd Hoffset.
  destruct (DateText.month_number_cases name m Hname) as (Hm & Hvalue & _).
  split; [| exact Hvalue].
  pose proof (DateText.days_in_month_le_31 y m Hm) as Hmax.
  rewrite (DateText.parse_text utcoffset padded d name m y Hname)
    by lia.
  replace (d <=? Datetime._days_in_month y m) with true
    by (symmetry; apply Z.leb_le; lia).
  rewrite DateText.timestamp_made
    by first [assumption | lia | intros [= -> _ _]; lia].
  cbn [bind]. unfold format_date, Datetime.naive_seconds.
  rewrite (DateText.same_day_west _ y m d) by exact Hoffset.
  rewrite DateText.utcfromtimestamp_midnight by (assumption || lia).
  cbn [bind]. rewrite DateText.strftime_four_digit_year by lia.
  reflexivity.
Qed.

Lemma round_trip_keeps_the_date_witness :
  (let* stamp := parse_welsh_date (fun _ => -18000) "5 Mai 1999" in
   format_date stamp)
  = Ok "19990505"%string.
Proof.
  change "5 Mai 1999"%string with (Rendering.welsh_date_text false 5 "Mai" 1999).
  rewrite (proj1 (round_trip_keeps_the_date (fun _ => -18000) false 5 "Mai"
                    5 1999 eq_refl ltac:(lia)
                    ltac:(vm_compute; split; discriminate) ltac:(lia))).
  vm_compute. reflexivity.
Defined.

(** X6. On a clock east of UTC by up to a day, the same round trip
    gives the day before: a valid date of the years 1000 to 9999 with
    day d of at least 2 comes back with day d - 1. *)
Theorem round_trip_east_loses_a_day utcoffset padded d name m y :
  Rendering.month_number name = Some m ->
  1000 <= y <= 9999 ->
  2 <= d <= Datetime._days_in_month y m ->
  0 < utcoffset ((Datetime._ymd2ord y m d - Datetime.EPOCH_ORDINAL) * 86400)
    <= 86400 ->
  (let* stamp :=
     parse_welsh_date utcoffset (Rendering.welsh_date_text padded d name y) in
   format_date stamp)
  = Ok (Text.to_string (Datetime.zero_pad 4 y ++ Datetime.zero_pad 2 m
                          ++ Datetime.zero_pad 2 (d - 1))).
Proof.
  intros Hname Hy Hd Hoffset.
  destruct (DateText.month_number_cases name m Hname) as (Hm & _).
  pose proof (DateText.days_in_month_le_31 y m Hm) as Hmax.
  rewrite (DateText.parse_text utcoffset padded d name m y Hname)
    by lia.
  replace (d <=? Datetime._days_in_month y m) with true
    by (symmetry; apply Z.leb_le; lia).
  rewrite DateText.timestamp_made
    by first [assumption | lia | intros [= -> _ _]; lia].
  cbn [bind]. unfold format_date, Datetime.naive_seconds.
  rewrite (DateText.day_before_east _ y m d) by exact Hoffset.
  rewrite DateText.utcfromtimestamp_midnight by lia.
  cbn [bind]. rewrite DateText.strftime_four_digit_year by lia.
  reflexivity.
Qed.

Lemma round_trip_east_loses_a_day_witness :
  (let* stamp := parse_welsh_date Sample.utc_plus_1 "15 Gorffennaf 2021" in
   format_date stamp)
  = Ok "20210714"%string.
Proof.
  change "15 Gorffennaf 2021"%string
    with (Rendering.welsh_date_text false 15 "Gorffennaf" 2021).
  rewrite (round_trip_east_loses_a_day Sample.utc_plus_1 false 15 "Gorffennaf"
             7 2021 eq_refl ltac:(lia)
             ltac:(vm_compute; split; discriminate)
             ltac:(unfold Sample.utc_plus_1; lia)).
  vm_compute. reflexivity.
Defined.

(** X7. An ASCII text that does not split into exactly three
    blank-separated parts is refused with a ValueError, the empty text
    included; three parts whose middle one is not a key of the month
    table are refused with a KeyError naming it, before day or year are
    looked at. *)
Theorem parse_welsh_date_malformed utcoffset :
  (forall welsh_date,
      Plain.plain welsh_date = true ->
      length (Text.split (Text.of_string welsh_date)) <> 3%nat ->
      parse_welsh_date utcoffset welsh_date
      = Raise (ValueError "wrong number of values to unpack"))
  /\ (forall day name year : Text.text,
        Plain.text_is_ascii (day ++ name ++ year) = true ->
        day <> [] -> name <> [] -> year <> [] ->
        Rendering.blank_free day = true ->
        Rendering.blank_free name = true ->
        Rendering.blank_free year = true ->
        dict_get WELSH_MONTHS (Text.to_string name) = None ->
        parse_welsh_date utcoffset
          (Text.to_string (day ++ " "%char :: name ++ " "%char :: year))
        = Raise (KeyError (Text.to_string name))).
Proof.
  split.
  - intros welsh_date _ Hlen. unfold parse_welsh_date, convert_welsh_date.
    destruct (Text.split (Text.of_string welsh_date))
      as [|a [|b [|c [|x l]]]]; try reflexivity.
    contradiction Hlen. reflexivity.
  - intros day name year _ Hd Hn Hy Fd Fn Fy Hnone.
    unfold parse_welsh_date, convert_welsh_date.
    rewrite DateText.of_to_string, DateText.split_three by assumption.
    rewrite Hnone. reflexivity.
Qed.

Lemma parse_welsh_date_malformed_witness :
  parse_welsh_date Sample.utc ""
  = Raise (ValueError "wrong number of values to unpack")
  /\ parse_welsh_date Sample.utc "15 January 2021"
     = Raise (KeyError "January").
Proof.
  split.
  - apply (proj1 (parse_welsh_date_malformed Sample.utc) ""%string);
      [reflexivity | vm_compute; discriminate].
  - apply (proj2 (parse_welsh_date_malformed Sample.utc)
             (Text.of_string "15") (Text.of_string "January")
             (Text.of_string "2021"));
      first [discriminate | vm_compute; reflexivity].
Defined.

(** ** More on the record builder *)

(** X8. Once the configuration and the formats are there, a non-empty
    last_tx that fails to parse or format aborts the build with that
    very error; so does clic_aired, when last_tx is empty or went
    through. *)
Theorem date_error_aborts_build `{InfoExtractor} utcoffset upstream
    programme_id config_data filename e :
  let stage (field : option string) :=
    (let* stamp := parse_welsh_date utcoffset (default "" field) in
     format_date stamp) in
  download_player_configuration programme_id = Some config_data ->
  cfg_filename config_data = Some filename ->
  filename <> ""%string ->
  S4CClicBaseIE._fetch_and_validate_streaming_urls filename programme_id <> [] ->
  (truthy (ep_last_tx upstream) = true ->
   stage (ep_last_tx upstream) = Raise e ->
   S4CClicBaseIE._extract_episode_info utcoffset upstream programme_id
   = Raise e)
  /\ ((truthy (ep_last_tx upstream) = false
       \/ exists compact, stage (ep_last_tx upstream) = Ok compact) ->
      truthy (ep_clic_aired upstream) = true ->
      stage (ep_clic_aired upstream) = Raise e ->
      S4CClicBaseIE._extract_episode_info utcoffset upstream programme_id
      = Raise e).
Proof.
  cbv zeta. intros Hconfig Hfile Hne Hfetch.
  rewrite Staged.build_equation, Hconfig, Hfile. cbn [truthy].
  change (default "" (Some filename)) with filename.
  apply String.eqb_neq in Hne. rewrite Hne. cbn [negb].
  destruct (S4CClicBaseIE._fetch_and_validate_streaming_urls
              filename programme_id) as [|f fs]; [contradiction |].
  unfold Assembly.date_stage. split.
  - intros -> Hstage.
    destruct (parse_welsh_date utcoffset (default "" (ep_last_tx upstream)))
      as [rt|e1]; cbn [bind] in Hstage |- *; [| congruence].
    destruct (format_date rt) as [rd|e2]; [discriminate |].
    cbn [bind]. congruence.
  - intros Hfirst -> Hstage.
    assert (Hrel : exists release,
               (if truthy (ep_last_tx upstream)
                then
                  let* stamp :=
                    parse_welsh_date utcoffset
                      (default "" (ep_last_tx upstream)) in
                  let* compact := format_date stamp in
                  Ok (Some (stamp, compact))
                else Ok None) = Ok release).
    { destruct Hfirst as [-> | (compact & Hc)]; [eauto |].
      destruct (truthy (ep_last_tx upstream)); [| eauto].
      destruct (parse_welsh_date utcoffset (default "" (ep_last_tx upstream)))
        as [rt|e1]; cbn [bind] in Hc |- *; [| discriminate].
      destruct (format_date rt) as [rd|e2]; [| discriminate].
      cbn [bind]. eauto. }
    destruct Hrel as (release & ->). cbn [bind].
    destruct (parse_welsh_date utcoffset (default "" (ep_clic_aired upstream)))
      as [mt|e1]; cbn [bind] in Hstage |- *; [| congruence].
    destruct (format_date mt) as [md|e2]; [discriminate |].
    cbn [bind]. congruence.
Qed.

Lemma date_error_aborts_build_witness :
  S4CClicBaseIE._extract_episode_info (H := Sample.catalogue) Sample.utc
    Sample.misdated_episode "104"
  = Raise (KeyError "January").
Proof.
  apply (proj1 (date_error_aborts_build (H := Sample.catalogue) Sample.utc
                  Sample.misdated_episode "104" _ "asset.mp4"
                  (KeyError "January") eq_refl eq_refl
                  ltac:(discriminate) ltac:(vm_compute; discriminate)));
    vm_compute; reflexivity.
Defined.

(** X9. A built record has at least one format, and its formats are
    the ones fetched for the filename of the player configuration; its
    thumbnail is the configuration's poster and its subtitles are the
    configuration's; id and episode id are the programme id, series and
    title coincide, and the duration is the episode's minutes times
    sixty (zero when absent). *)
Theorem built_record_fields `{InfoExtractor} utcoffset upstream programme_id
    record :
  S4CClicBaseIE._extract_episode_info utcoffset upstream programme_id
  = Ok record ->
  exists config_data filename,
    download_player_configuration programme_id = Some config_data
    /\ cfg_filename config_data = Some filename
    /\ formats record
       = S4CClicBaseIE._fetch_and_validate_streaming_urls filename programme_id
    /\ formats record <> []
    /\ thumbnail record = cfg_poster config_data
    /\ subtitles record
       = S4CClicBaseIE.collect_subtitles (default [] (cfg_subtitles config_data))
    /\ id record = programme_id
    /\ episode_id record = programme_id
    /\ series record = title record
    /\ series_id record = ep_series_id upstream
    /\ description record = default "No Description" (ep_full_billing upstream)
    /\ duration record = default 0 (ep_duration upstream) * 60.
Proof.
  rewrite Staged.build_equation. intros Hok.
  destruct (download_player_configuration programme_id) as [config|];
    [| discriminate].
  destruct (cfg_filename config) as [filename|] eqn:Ef; [| discriminate].
  cbn [truthy] in Hok.
  change (default "" (Some filename)) with filename in Hok.
  destruct (String.eqb filename ""); [discriminate |]. cbn [negb] in Hok.
  destruct (S4CClicBaseIE._fetch_and_validate_streaming_urls
              filename programme_id) as [|f fs] eqn:Efetch; [discriminate |].
  destruct (Assembly.date_stage utcoffset (ep_last_tx upstream))
    as [release|e]; [| discriminate].
  cbn [bind] in Hok.
  destruct (Assembly.date_stage utcoffset (ep_clic_aired upstream))
    as [modified|e]; [| discriminate].
  cbn [bind] in Hok. injection Hok as <-.
  exists config, filename. unfold Assembly.assembled.
  cbn [formats thumbnail subtitles id episode_id series title series_id
       description duration].
  repeat split; try reflexivity; [exact Ef | symmetry; exact Efetch | discriminate].
Qed.

Lemma built_record_fields_witness :
  exists record,
    S4CClicBaseIE._extract_episode_info (H := Sample.catalogue) Sample.utc
      Sample.dated_episode "103" = Ok record
    /\ formats record <> [] /\ duration record = 1500.
Proof.
  destruct (S4CClicBaseIE._extract_episode_info (H := Sample.catalogue)
              Sample.utc Sample.dated_episode "103") as [record|e] eqn:E.
  - exists record. split; [reflexivity |].
    destruct (built_record_fields (H := Sample.catalogue) Sample.utc
                Sample.dated_episode "103" record E)
      as (config & filename & _ & _ & _ & Hformats & _ & _ & _ & _ & _ & _
          & _ & Hduration).
    split; [exact Hformats | exact Hduration].
  - vm_compute in E. discriminate.
Defined.

(** X10. In a built record, timestamp and upload date repeat the
    release timestamp and date.  The release fields are all absent when
    last_tx is absent or empty; otherwise the timestamp is the parsed
    last_tx and, when that moment falls in a year from 1000 on, the date
    is the eight digits of its UTC calendar date and the year is the
    year of that date.  The modified fields follow clic_aired in the
    same way. *)
Theorem built_record_dates `{InfoExtractor} utcoffset upstream programme_id
    record :
  let compact (y m d : Z) :=
    Text.to_string (Datetime.zero_pad 4 y ++ Datetime.zero_pad 2 m
                      ++ Datetime.zero_pad 2 d) in
  S4CClicBaseIE._extract_episode_info utcoffset upstream programme_id
  = Ok record ->
  timestamp record = release_timestamp record
  /\ upload_date record = release_date record
  /\ (truthy (ep_last_tx upstream) = false ->
      release_timestamp record = None /\ release_date record = None
      /\ release_year record = None)
  /\ (truthy (ep_last_tx upstream) = true ->
      exists stamp y m d,
        parse_welsh_date utcoffset (default "" (ep_last_tx upstream)) = Ok stamp
        /\ utcfromtimestamp stamp = Ok (y, m, d)
        /\ release_timestamp record = Some stamp
        /\ (1000 <= y ->
            release_date record = Some (compact y m d)
            /\ release_year record = Some y))
  /\ (truthy (ep_clic_aired upstream) = false ->
      modified_timestamp record = None /\ modified_date record = None)
  /\ (truthy (ep_clic_aired upstream) = true ->
      exists stamp y m d,
        parse_welsh_date utcoffset (default "" (ep_clic_aired upstream))
        = Ok stamp
        /\ utcfromtimestamp stamp = Ok (y, m, d)
        /\ modified_timestamp record = Some stamp
        /\ (1000 <= y -> modified_date record = Some (compact y m d))).
Proof.
  cbv zeta.
  assert (Hstage : forall field release,
             Assembly.date_stage utcoffset field = Ok release ->
             (truthy field = false -> release = None)
             /\ (truthy field = true ->
                 exists stamp y m d,
                   parse_welsh_date utcoffset (default "" field) = Ok stamp
                   /\ utcfromtimestamp stamp = Ok (y, m, d)
                   /\ release = Some (stamp, strftime_Ymd (y, m, d))
                   /\ 1 <= y <= 9999)).
  { intros field release. unfold Assembly.date_stage.
    destruct (truthy field).
    - destruct (parse_welsh_date utcoffset (default "" field)) as [stamp|e];
        cbn [bind]; [| discriminate].
      unfold format_date.
      destruct (utcfromtimestamp stamp) as [[[y m] d]|e] eqn:Eutc;
        cbn [bind]; [| discriminate].
      intros [= <-]. split; [discriminate |]. intros _.
      exists stamp, y, m, d.
      split; [reflexivity |]. split; [exact Eutc |].
      split; [reflexivity |].
      unfold utcfromtimestamp in Eutc.
      destruct (Datetime._ord2ymd _) as [[y' m'] d'].
      destruct (Z.leb_spec Datetime.MINYEAR y') as [Hlo|]; cbn [andb] in Eutc;
        [| discriminate].
      destruct (Z.leb_spec y' Datetime.MAXYEAR) as [Hhi|]; [| discriminate].
      injection Eutc as <- <- <-.
      unfold Datetime.MINYEAR in Hlo. unfold Datetime.MAXYEAR in Hhi. lia.
    - intros [= <-]. split; [reflexivity | discriminate]. }
  rewrite Staged.build_equation. intros Hok.
  destruct (download_player_configuration programme_id) as [config|];
    [| discriminate].
  destruct (truthy (cfg_filename config)); [| discriminate].
  destruct (S4CClicBaseIE._fetch_and_validate_streaming_urls _ _)
    as [|f fs]; [discriminate |].
  destruct (Assembly.date_stage utcoffset (ep_last_tx upstream))
    as [release|e] eqn:Erel; [| discriminate].
  cbn [bind] in Hok.
  destruct (Assembly.date_stage utcoffset (ep_clic_aired upstream))
    as [modified|e] eqn:Emod; [| discriminate].
  cbn [bind] in Hok. injection Hok as <-.
  unfold Assembly.assembled.
  cbn [timestamp upload_date release_timestamp release_date release_year
       modified_timestamp modified_date].
  destruct (Hstage _ _ Erel) as [Hrel0 Hrel1].
  destruct (Hstage _ _ Emod) as [Hmod0 Hmod1].
  split; [reflexivity |]. split; [reflexivity |].
  split; [intros Hf; rewrite (Hrel0 Hf); repeat split |].
  split.
  { intros Ht. destruct (Hrel1 Ht) as (stamp & y & m & d & Hp & Hu & -> & Hy).
    exists stamp, y, m, d. cbn [option_map fst snd].
    split; [exact Hp |]. split; [exact Hu |]. split; [reflexivity |].
    intros Hfour. rewrite DateText.year_of_compact by lia.
    rewrite DateText.strftime_four_digit_year by exact Hfour.
    split; reflexivity. }
  split; [intros Hf; rewrite (Hmod0 Hf); repeat split |].
  intros Ht. destruct (Hmod1 Ht) as (stamp & y & m & d & Hp & Hu & -> & Hy).
  exists stamp, y, m, d. cbn [option_map fst snd].
  split; [exact Hp |]. split; [exact Hu |]. split; [reflexivity |].
  intros Hfour. rewrite DateText.strftime_four_digit_year by exact Hfour.
  reflexivity.
Qed.

Lemma built_record_dates_witness :
  exists record,
    S4CClicBaseIE._extract_episode_info (H := Sample.catalogue) Sample.utc
      Sample.dated_episode "103" = Ok record
    /\ release_year record = Some 2021
    /\ timestamp record = release_timestamp record.
Proof.
  destruct (S4CClicBaseIE._extract_episode_info (H := Sample.catalogue)
              Sample.utc Sample.dated_episode "103") as [record|e] eqn:E.
  - exists record. split; [reflexivity |].
    destruct (built_record_dates (H := Sample.catalogue) Sample.utc
                Sample.dated_episode "103" record E)
      as (Hts & _ & _ & Hrelease & _).
    split; [| exact Hts].
    destruct (Hrelease eq_refl) as (stamp & y & m & d & _ & _ & _ & _).
    vm_compute in E. injection E as <-. reflexivity.
  - vm_compute in E. discriminate.
Defined.

(** X11. A programme title that begins with the "Pennod N"/"Episode N"
    marker gives the record its episode number and stays, marker
    included, the episode title. *)
Theorem marker_title_is_kept `{InfoExtractor} utcoffset upstream programme_id
    record n :
  S4CClicBaseIE._extract_episode_info utcoffset upstream programme_id
  = Ok record ->
  S4CClicBaseIE._extract_episode_number_from_title
    (default "" (ep_programme_title upstream)) = Some n ->
  episode_number record = Some n
  /\ episode record = default "" (ep_programme_title upstream).
Proof.
  intros Hok Hmarker.
  apply Builder.build_ok in Hok as (_ & _ & Hnumber & Hepisode).
  split.
  - rewrite Hnumber. unfold Stages.resolved_episode_number. cbv zeta.
    rewrite Hmarker. reflexivity.
  - rewrite Hepisode. unfold Stages.working_title. cbv zeta.
    rewrite Hmarker.
    destruct (String.eqb_spec (default "" (ep_programme_title upstream)) "")
      as [Hempty | _]; [| reflexivity].
    rewrite Hempty in Hmarker.
    rewrite (proj1 nothing_in_the_empty_title) in Hmarker. discriminate.
Qed.

Lemma marker_title_is_kept_witness :
  exists record,
    S4CClicBaseIE._extract_episode_info (H := Sample.catalogue) Sample.utc
      Sample.dated_episode "103" = Ok record
    /\ episode_number record = Some 5
    /\ episode record = "Pennod 5"%string.
Proof.
  destruct (S4CClicBaseIE._extract_episode_info (H := Sample.catalogue)
              Sample.utc Sample.dated_episode "103") as [record|e] eqn:E.
  - exists record. split; [reflexivity |].
    apply (marker_title_is_kept (H := Sample.catalogue) Sample.utc
             Sample.dated_episode "103" record 5 E).
    vm_compute. reflexivity.
  - vm_compute in E. discriminate.
Defined.

(** ** Addresses and the patterns that claim them *)

Module Addresses.

Import Text Re ReSpec ReFacts Stepping Routing.

Lemma of_string_app (a b : string) :
  of_string (a +:+ b) = of_string a ++ of_string b.
Proof.
  induction a as [|x a IH]; [reflexivity |].
  change (x :: of_string (a +:+ b) = x :: of_string a ++ of_string b).
  rewrite IH. reflexivity.
Qed.

Lemma app_empty_r (a : string) : (a +:+ "")%string = a.
Proof.
  induction a as [|x a IH]; [reflexivity |].
  change (String x (a +:+ "") = String x a). rewrite IH. reflexivity.
Qed.

Lemma address_of_text secure www kind id rest :
  of_string (address secure www kind id rest)
  = address_text secure www kind (of_string id ++ of_string rest).
Proof.
  unfold address, address_text.
  destruct secure, www; rewrite !of_string_app, <- ?app_assoc; reflexivity.
Qed.

Lemma orelse_some x y (o : outcome) : x = Some o -> orelse x y = Some o.
Proof. intros ->. reflexivity. Qed.

Lemma span_stops f : forall t run rest,
  Marker.span f t = (run, rest) ->
  match rest with a :: _ => f a = false | [] => True end.
Proof.
  induction t as [|a t IH]; intros run rest Hs; simpl in Hs.
  - injection Hs as <- <-. exact I.
  - destruct (f a) eqn:Ea.
    + destruct (Marker.span f t) as [run' rest'] eqn:E.
      injection Hs as <- <-. apply (IH run' rest'). reflexivity.
    + injection Hs as <- <-. exact Ea.
Qed.

Section Accepted.

Variables (kind : string) (a : ascii) (run rest : text).
Hypothesis Ha : Char.is_digit a = true.
Hypothesis Hrun : forallb Char.is_digit run = true.
Hypothesis Hrest : match rest with b :: _ => Char.is_digit b = false
                   | [] => True end.

Let path : string := ("s4c.cymru/clic/" +:+ kind +:+ "/")%string.
Let final : cont := fun _ s' c' => Some (s', c').

Lemma path_accepted p c :
  rmatch false (Cat (Lit path) (Cat (Grp 1 (Plus S4CClicBaseIE.digit)) Eps))
    p (of_string path ++ a :: run ++ rest) c final
  = Some (rest, set_group 1 (a :: run) c).
Proof.
  rewrite step_cat, step_lit, step_cat, step_grp.
  apply step_digits; [exact Ha | exact Hrun | exact Hrest |].
  cbn [rmatch]. unfold final.
  change (a :: run ++ rest) with ((a :: run) ++ rest).
  rewrite (LeadingNumber.consumed_app (a :: run) rest). reflexivity.
Qed.

Lemma host_accepted (www : bool) p c :
  rmatch false
    (Cat (Opt (Lit "www."))
       (Cat (Lit path) (Cat (Grp 1 (Plus S4CClicBaseIE.digit)) Eps)))
    p ((if www then of_string "www." else [])
       ++ of_string path ++ a :: run ++ rest) c final
  = Some (rest, set_group 1 (a :: run) c).
Proof.
  rewrite step_cat, step_opt. destruct www.
  - apply orelse_some. rewrite step_lit. apply path_accepted.
  - cbn [app].
    replace (rmatch false (Lit "www.") p (of_string path ++ a :: run ++ rest) c
               (fun p' s' c' =>
                  rmatch false
                    (Cat (Lit path)
                       (Cat (Grp 1 (Plus S4CClicBaseIE.digit)) Eps))
                    p' s' c' final))
      with (@None outcome) by reflexivity.
    apply path_accepted.
Qed.

Lemma accepted (secure www : bool) :
  match_at false (pattern kind) None
    (address_text secure www kind (a :: run ++ rest))
  = Some (MatchObject (address_text secure www kind (a :: run))
            [(1%nat, a :: run)]).
Proof.
  assert (Hm : rmatch false (pattern kind) None
                 (address_text secure www kind (a :: run ++ rest)) [] final
               = Some (rest, [(1%nat, a :: run)])).
  { unfold pattern, seq, address_text. cbn [fold_right].
    rewrite step_cat, step_lit, step_cat, step_opt.
    destruct secure.
    - apply orelse_some. cbn [app]. rewrite step_chr by reflexivity.
      rewrite step_cat, step_lit. apply host_accepted.
    - cbn [app].
      replace (rmatch false (Chr "s") (List.last (map Some (of_string "http")) None)
                 (of_string "://"
                  ++ (if www then of_string "www." else [])
                  ++ of_string path ++ a :: run ++ rest) [] _)
        with (@None outcome) by reflexivity.
      cbn [orelse]. rewrite step_cat, step_lit. apply host_accepted. }
  unfold match_at. fold final. rewrite Hm. f_equal. f_equal.
  transitivity (consumed (address_text secure www kind (a :: run) ++ rest) rest);
    [| apply LeadingNumber.consumed_app].
  f_equal. unfold address_text. rewrite <- !app_assoc. reflexivity.
Qed.

End Accepted.

Lemma lit_exact (w : text) : forall p s p' s',
  matches false (fold_right (fun a r => Cat (Chr a) r) Eps w) p s p' s' ->
  s = w ++ s'.
Proof.
  induction w as [|a w IH]; intros p s p' s' Hm; cbn [fold_right] in Hm.
  - apply eps_inv in Hm as [_ ->]. reflexivity.
  - apply cat_inv in Hm as (p1 & s1 & Hc & Hm).
    apply chr_inv in Hc as (b & -> & -> & Hb).
    apply PatternFacts.chr_exact, Ascii.eqb_eq in Hb. subst b.
    cbn [app]. f_equal. eapply IH. exact Hm.
Qed.

Lemma shape kind s p' s' :
  matches false (pattern kind) None s p' s' ->
  exists secure www b run,
    Char.is_digit b = true /\ forallb Char.is_digit run = true
    /\ s = address_text secure www kind (b :: run ++ s').
Proof.
  unfold pattern, seq. cbn [fold_right]. intros Hm.
  apply cat_inv in Hm as (p1 & s1 & Hhttp & Hm).
  apply lit_exact in Hhttp.
  apply cat_inv in Hm as (p2 & s2 & Hsecure & Hm).
  apply cat_inv in Hm as (p3 & s3 & Hcolon & Hm).
  apply lit_exact in Hcolon.
  apply cat_inv in Hm as (p4 & s4 & Hwww & Hm).
  apply cat_inv in Hm as (p5 & s5 & Hpath & Hm).
  apply lit_exact in Hpath.
  apply cat_inv in Hm as (p6 & s6 & Hid & Hm).
  apply eps_inv in Hm as [_ ->].
  apply grp_inv, plus_inv in Hid as (p7 & s7 & Hb & Hid).
  apply cls_inv in Hb as (b & Hs5 & _ & Hb).
  apply star_cls_inv in Hid as (run & Hs7 & Hrun & _).
  assert (Hsec : exists secure : bool,
             s1 = (if secure then ["s"%char] else []) ++ s2).
  { apply opt_inv in Hsecure as [Hc | [_ ->]]; [| exists false; reflexivity].
    apply chr_inv in Hc as (x & -> & _ & Hx).
    apply PatternFacts.chr_exact, Ascii.eqb_eq in Hx. subst x.
    exists true. reflexivity. }
  assert (Hhost : exists www : bool,
             s3 = (if www then of_string "www." else []) ++ s4).
  { apply opt_inv in Hwww as [Hw | [_ ->]]; [| exists false; reflexivity].
    apply lit_exact in Hw. exists true. exact Hw. }
  destruct Hsec as (secure & Hsec). destruct Hhost as (www & Hhost).
  exists secure, www, b, run. split; [exact Hb |]. split; [exact Hrun |].
  unfold address_text. subst. reflexivity.
Qed.

(** Which addresses a pattern of this shape claims, and the identifier
    it reads from them. *)
Lemma match_id_iff kind url id :
  _match_id (pattern kind) url = Some id
  <-> exists secure www rest,
        numeric id = true /\ begins_with_digit rest = false
        /\ url = address secure www kind id rest.
Proof.
  unfold _match_id, re_match. split.
  - destruct (match_at false (pattern kind) None (of_string url))
      as [mobj|] eqn:E; [| discriminate].
    intros [= <-].
    destruct (ReFacts.match_at_sound _ _ _ _ _ E) as (p' & s' & Hm).
    apply shape in Hm as (secure & www & b & run1 & Hb & _ & Hurl).
    destruct (PatternFacts.span_split Char.is_digit (run1 ++ s'))
      as (run & rest & Hspan & Hsplit & Hrun).
    apply span_stops in Hspan.
    rewrite Hsplit in Hurl. rewrite Hurl in E.
    rewrite (accepted kind b run rest Hb Hrun Hspan) in E.
    injection E as <-.
    change (group 1 (MatchObject (address_text secure www kind (b :: run))
                       [(1%nat, b :: run)])) with (b :: run).
    exists secure, www, (to_string rest). split; [| split].
    + unfold numeric. rewrite DateText.of_to_string.
      change (Char.is_digit b && forallb Char.is_digit run = true).
      rewrite Hb, Hrun. reflexivity.
    + unfold begins_with_digit. rewrite DateText.of_to_string.
      destruct rest; [reflexivity | exact Hspan].
    + rewrite <- (DateText.to_of_string url), Hurl.
      rewrite <- (DateText.to_of_string (address _ _ _ _ _)).
      rewrite address_of_text, !DateText.of_to_string. reflexivity.
  - intros (secure & www & rest & Hid & Hrest & ->).
    rewrite address_of_text. unfold numeric in Hid.
    destruct (of_string id) as [|a run] eqn:Eid; [discriminate |].
    cbn [forallb] in Hid. apply andb_true_iff in Hid as [Ha Hrun].
    rewrite <- app_comm_cons, (accepted kind a run (of_string rest) Ha Hrun).
    + change (group 1 (MatchObject (address_text secure www kind (a :: run))
                         [(1%nat, a :: run)])) with (a :: run).
      rewrite <- Eid, DateText.to_of_string. reflexivity.
    + unfold begins_with_digit in Hrest.
      destruct (of_string rest); [exact I | exact Hrest].
Qed.

Lemma series_pattern : S4CClicSeriesIE._VALID_URL = pattern "series".
Proof. reflexivity. Qed.

Lemma programme_pattern : S4CClicProgrammeIE._VALID_URL = pattern "programme".
Proof. reflexivity. Qed.

Lemma individual_pattern :
  S4CClicProgrammeIndividualIE._VALID_URL = pattern "programme".
Proof. reflexivity. Qed.

(** No address is of both kinds. *)
Lemma kinds_apart secure www id rest secure' www' id' rest' :
  address secure www "series" id rest
  <> address secure' www' "programme" id' rest'.
Proof.
  destruct secure, www, secure', www'; unfold address; cbn; discriminate.
Qed.

End Addresses.

(** X12. Among ASCII addresses, the series pattern claims exactly
    http(s)://(www.)s4c.cymru/clic/series/<digits><rest>, where rest
    does not go on with a digit, and reads <digits> as the identifier;
    the programme pattern does the same under /programme/; the two
    programme resolvers claim the same addresses. *)
Theorem valid_url_claims url video_id :
  Plain.plain url = true ->
  (_match_id S4CClicSeriesIE._VALID_URL url = Some video_id
   <-> exists secure www rest,
         Routing.numeric video_id = true
         /\ Routing.begins_with_digit rest = false
         /\ url = Routing.address secure www "series" video_id rest)
  /\ (_match_id S4CClicProgrammeIE._VALID_URL url = Some video_id
      <-> exists secure www rest,
            Routing.numeric video_id = true
            /\ Routing.begins_with_digit rest = false
            /\ url = Routing.address secure www "programme" video_id rest)
  /\ _match_id S4CClicProgrammeIndividualIE._VALID_URL url
     = _match_id S4CClicProgrammeIE._VALID_URL url.
Proof.
  intros _.
  rewrite Addresses.series_pattern, Addresses.programme_pattern,
    Addresses.individual_pattern.
  split; [apply Addresses.match_id_iff |].
  split; [apply Addresses.match_id_iff | reflexivity].
Qed.

Lemma valid_url_claims_witness :
  _match_id S4CClicSeriesIE._VALID_URL "http://s4c.cymru/clic/series/862?x=1"
  = Some "862"%string.
Proof.
  apply (proj2 (proj1 (valid_url_claims "http://s4c.cymru/clic/series/862?x=1"
                         "862" eq_refl))).
  exists false, false, "?x=1"%string.
  split; [reflexivity |]. split; reflexivity.
Defined.

(** X13. An ASCII address claimed by the series pattern is claimed
    by neither programme pattern, and the other way round. *)
Theorem series_and_programme_addresses_apart url video_id :
  Plain.plain url = true ->
  (_match_id S4CClicSeriesIE._VALID_URL url = Some video_id ->
   _match_id S4CClicProgrammeIE._VALID_URL url = None
   /\ _match_id S4CClicProgrammeIndividualIE._VALID_URL url = None)
  /\ (_match_id S4CClicProgrammeIE._VALID_URL url = Some video_id ->
      _match_id S4CClicSeriesIE._VALID_URL url = None).
Proof.
  intros _.
  rewrite Addresses.series_pattern, Addresses.programme_pattern,
    Addresses.individual_pattern.
  split.
  - intros Hs. apply Addresses.match_id_iff in Hs as (s1 & w1 & r1 & _ & _ & ->).
    assert (Hp : _match_id (Routing.pattern "programme")
                   (Routing.address s1 w1 "series" video_id r1) = None).
    { destruct (_match_id (Routing.pattern "programme") _) as [other|] eqn:E;
        [| reflexivity].
      apply Addresses.match_id_iff in E as (s2 & w2 & r2 & _ & _ & E).
      exfalso. exact (Addresses.kinds_apart _ _ _ _ _ _ _ _ E). }
    split; exact Hp.
  - intros Hp. apply Addresses.match_id_iff in Hp as (s1 & w1 & r1 & _ & _ & ->).
    destruct (_match_id (Routing.pattern "series") _) as [other|] eqn:E;
      [| reflexivity].
    apply Addresses.match_id_iff in E as (s2 & w2 & r2 & _ & _ & E).
    exfalso. symmetry in E. exact (Addresses.kinds_apart _ _ _ _ _ _ _ _ E).
Qed.

Lemma series_and_programme_addresses_apart_witness :
  _match_id S4CClicProgrammeIE._VALID_URL "https://www.s4c.cymru/clic/series/7"
  = None.
Proof.
  apply (proj1 (series_and_programme_addresses_apart
                  "https://www.s4c.cymru/clic/series/7" "7" eq_refl)).
  vm_compute. reflexivity.
Defined.

(** X14. When the programmes of a series payload carry numeric
    identifiers, every entry of its playlist has an address that the
    Programme-Individual resolver claims, and resolving that address is
    resolving the entry's programme identifier; the series resolver
    does not claim it. *)
Theorem playlist_entries_resolve `{InfoExtractor} utcoffset series_data :
  Forall (fun programme => Routing.numeric (ep_id programme) = true)
    (default [] (full_prog_details series_data)
     ++ default [] (other_progs_in_series series_data)) ->
  Forall
    (fun entry =>
       _real_extract S4CClicProgrammeIndividualIE._VALID_URL
         (S4CClicProgrammeIndividualIE._extract_video_info utcoffset)
         (ur_url entry)
       = Some (S4CClicProgrammeIndividualIE._extract_video_info utcoffset
                 (ur_video_id entry))
       /\ _match_id S4CClicSeriesIE._VALID_URL (ur_url entry) = None)
    (playlist_entries series_data).
Proof.
  intros Hids. unfold playlist_entries. apply Forall_map.
  eapply Forall_impl; [exact Hids |].
  intros programme Hid. cbn [ur_url ur_video_id].
  assert (Hurl : (S4CClicBaseIE._BASE_URL +:+ "programme/" +:+ ep_id programme)%string
                 = Routing.address true true "programme" (ep_id programme) "").
  { unfold Routing.address. rewrite Addresses.app_empty_r. reflexivity. }
  assert (Hmatch : _match_id (Routing.pattern "programme")
                     (S4CClicBaseIE._BASE_URL +:+ "programme/" +:+ ep_id programme)
                   = Some (ep_id programme)).
  { apply Addresses.match_id_iff. exists true, true, ""%string.
    split; [exact Hid |]. split; [reflexivity | exact Hurl]. }
  split.
  - unfold _real_extract. rewrite Addresses.individual_pattern, Hmatch.
    reflexivity.
  - rewrite Addresses.series_pattern.
    destruct (_match_id (Routing.pattern "series") _) as [other|] eqn:E;
      [| reflexivity].
    apply Addresses.match_id_iff in E as (s2 & w2 & r2 & _ & _ & E).
    rewrite Hurl in E. exfalso. symmetry in E.
    exact (Addresses.kinds_apart _ _ _ _ _ _ _ _ E).
Qed.

Lemma playlist_entries_resolve_witness :
  Forall
    (fun entry =>
       _real_extract S4CClicProgrammeIndividualIE._VALID_URL
         (S4CClicProgrammeIndividualIE._extract_video_info
            (H := Sample.catalogue) Sample.utc)
         (ur_url entry)
       = Some (S4CClicProgrammeIndividualIE._extract_video_info
                 (H := Sample.catalogue) Sample.utc (ur_video_id entry))
       /\ _match_id S4CClicSeriesIE._VALID_URL (ur_url entry) = None)
    (playlist_entries (download_series_details (InfoExtractor := Sample.catalogue) "8")).
Proof.
  apply (playlist_entries_resolve (H := Sample.catalogue) Sample.utc).
  repeat constructor.
Defined.

(** ** The programme resolvers *)

(** X15. With a first programme in the answer for a programme
    identifier: without siblings the programme resolver does what the
    Programme-Individual resolver does; with siblings it returns a
    playlist made from the series payload fetched for the first
    programme's series identifier (not from the programme payload), one
    entry per programme of that payload in order.  The playlist carries
    that series identifier and the series title of the payload's first
    programme, each only when it is there and not empty.  This is the
    series resolver's answer for that series whenever the identifier is
    not empty and the series payload lists siblings too. *)
Theorem programme_resolution `{InfoExtractor} utcoffset programme_id
    programme rest :
  let programme_data := download_full_prog_details programme_id in
  full_prog_details programme_data = Some (programme :: rest) ->
  (default [] (other_progs_in_series programme_data) = [] ->
   S4CClicProgrammeIE._extract_video_info utcoffset programme_id
   = S4CClicProgrammeIndividualIE._extract_video_info utcoffset programme_id)
  /\ (default [] (other_progs_in_series programme_data) <> [] ->
      let series_data :=
        download_series_details (str_of_optional (ep_series_id programme)) in
      let playlist_id :=
        if truthy (ep_series_id programme) then ep_series_id programme
        else None in
      let playlist_title :=
        match full_prog_details series_data with
        | Some (first :: _) =>
            if truthy (ep_series_title first) then ep_series_title first
            else None
        | _ => None
        end in
      S4CClicProgrammeIE._extract_video_info utcoffset programme_id
      = Ok (Playlist (playlist_entries series_data) playlist_id playlist_title)
      /\ map ur_video_id (playlist_entries series_data)
         = map ep_id (default [] (full_prog_details series_data)
                      ++ default [] (other_progs_in_series series_data))
      /\ forall series_id,
           ep_series_id programme = Some series_id ->
           series_id <> ""%string ->
           default [] (other_progs_in_series series_data) <> [] ->
           S4CClicProgrammeIE._extract_video_info utcoffset programme_id
           = S4CClicSeriesIE._extract_video_info utcoffset series_id).
Proof.
  cbv zeta. intros Hfirst.
  unfold S4CClicProgrammeIE._extract_video_info,
    S4CClicProgrammeIndividualIE._extract_video_info, first_programme.
  rewrite Hfirst. cbn [bind].
  destruct (other_progs_in_series (download_full_prog_details programme_id))
    as [[|sibling siblings]|]; cbn [falsy_list].
  - split; [reflexivity |]. intros Hne. contradiction Hne. reflexivity.
  - split; [discriminate |]. intros _.
    split; [reflexivity |]. split.
    + unfold playlist_entries. rewrite map_map. reflexivity.
    + intros series_id Hsid Hne Hsiblings. rewrite Hsid in Hsiblings |- *.
      change (str_of_optional (Some series_id)) with series_id.
      change (str_of_optional (Some series_id)) with series_id in Hsiblings.
      unfold S4CClicSeriesIE._extract_video_info, kept. cbn [truthy].
      apply String.eqb_neq in Hne. rewrite Hne. cbn [negb].
      destruct (other_progs_in_series (download_series_details series_id))
        as [[|s1 ss]|]; [contradiction Hsiblings; reflexivity | reflexivity |
                          contradiction Hsiblings; reflexivity].
  - split; [reflexivity |]. intros Hne. contradiction Hne. reflexivity.
Qed.

Lemma programme_resolution_witness :
  S4CClicProgrammeIE._extract_video_info (H := Sample.box_set) Sample.utc "301"
  = S4CClicSeriesIE._extract_video_info (H := Sample.box_set) Sample.utc "9"
  /\ S4CClicProgrammeIE._extract_video_info (H := Sample.box_set) Sample.utc
       "101"
     = S4CClicProgrammeIndividualIE._extract_video_info (H := Sample.box_set)
         Sample.utc "101".
Proof.
  split.
  - apply (proj2 (programme_resolution (H := Sample.box_set) Sample.utc "301"
                    Sample.dated_episode [] eq_refl));
      [discriminate | reflexivity | discriminate | discriminate].
  - apply (proj1 (programme_resolution (H := Sample.box_set) Sample.utc "101"
                    Sample.plain_episode [] eq_refl)).
    reflexivity.
Defined.

(** X16. An answer without the programme list makes both programme
    resolvers fail with KeyError, and one with an empty list with
    IndexError, whatever the other services answer.  The series resolver
    fails in the same way only when the payload lists no siblings; with
    siblings it returns the playlist of the programmes there are, with
    no title. *)
Theorem missing_programme_list `{InfoExtractor} utcoffset video_id :
  (full_prog_details (download_full_prog_details video_id) = None ->
   S4CClicProgrammeIE._extract_video_info utcoffset video_id
   = Raise (KeyError "full_prog_details")
   /\ S4CClicProgrammeIndividualIE._extract_video_info utcoffset video_id
      = Raise (KeyError "full_prog_details"))
  /\ (full_prog_details (download_full_prog_details video_id) = Some [] ->
      S4CClicProgrammeIE._extract_video_info utcoffset video_id
      = Raise (IndexError "list index out of range")
      /\ S4CClicProgrammeIndividualIE._extract_video_info utcoffset video_id
         = Raise (IndexError "list index out of range"))
  /\ (default [] (other_progs_in_series (download_series_details video_id)) = []
      ->
      (full_prog_details (download_series_details video_id) = None ->
       S4CClicSeriesIE._extract_video_info utcoffset video_id
       = Raise (KeyError "full_prog_details"))
      /\ (full_prog_details (download_series_details video_id) = Some [] ->
          S4CClicSeriesIE._extract_video_info utcoffset video_id
          = Raise (IndexError "list index out of range")))
  /\ (default [] (full_prog_details (download_series_details video_id)) = [] ->
      forall sibling siblings,
        other_progs_in_series (download_series_details video_id)
        = Some (sibling :: siblings) ->
        exists entries,
          S4CClicSeriesIE._extract_video_info utcoffset video_id
          = Ok (Playlist entries (Some video_id) None)
          /\ map ur_video_id entries = map ep_id (sibling :: siblings)).
Proof.
  unfold S4CClicProgrammeIE._extract_video_info,
    S4CClicProgrammeIndividualIE._extract_video_info,
    S4CClicSeriesIE._extract_video_info, first_programme.
  split; [intros ->; split; reflexivity |].
  split; [intros ->; split; reflexivity |].
  split.
  - intros Hnone.
    assert (Hfalsy : falsy_list
                       (other_progs_in_series (download_series_details video_id))
                     = true).
    { destruct (other_progs_in_series (download_series_details video_id))
        as [[|s1 ss]|]; [reflexivity | discriminate | reflexivity]. }
    rewrite Hfalsy. split; intros ->; reflexivity.
  - intros Hprimary sibling siblings Hsiblings. rewrite Hsiblings.
    cbn [falsy_list].
    exists (playlist_entries (download_series_details video_id)).
    unfold playlist_entries, playlist_title_of. rewrite Hsiblings, map_map.
    destruct (full_prog_details (download_series_details video_id))
      as [[|first rest]|]; [| discriminate |]; split; reflexivity.
Qed.

Lemma missing_programme_list_witness :
  S4CClicProgrammeIE._extract_video_info (H := Sample.box_set) Sample.utc "302"
  = Raise (KeyError "full_prog_details")
  /\ S4CClicProgrammeIndividualIE._extract_video_info (H := Sample.box_set)
       Sample.utc "303"
     = Raise (IndexError "list index out of range")
  /\ exists entries,
       S4CClicSeriesIE._extract_video_info (H := Sample.box_set) Sample.utc "10"
       = Ok (Playlist entries (Some "10"%string) None)
       /\ map ur_video_id entries = ["204"%string].
Proof.
  pose proof (missing_programme_list (H := Sample.box_set) Sample.utc "302")
    as (Hkey & _).
  pose proof (missing_programme_list (H := Sample.box_set) Sample.utc "303")
    as (_ & Hindex & _).
  pose proof (missing_programme_list (H := Sample.box_set) Sample.utc "10")
    as (_ & _ & _ & Hsiblings).
  split; [exact (proj1 (Hkey eq_refl)) |].
  split; [exact (proj2 (Hindex eq_refl)) |].
  exact (Hsiblings eq_refl (Sample.listed "204") [] eq_refl).
Defined.

(** ** Titles *)

(** X17. The fallback search of the season extractor never finds
    anything: whenever the pattern without separators matches somewhere
    in a title, the pattern with separators already did, so the
    extractor is its first branch alone. *)
Theorem season_fallback_never_taken title :
  (Re.re_search true S4CClicBaseIE.re_season_with_separators
     (Text.of_string title) = None ->
   Re.re_search true S4CClicBaseIE.re_season (Text.of_string title) = None)
  /\ S4CClicBaseIE._extract_season_number_from_title title
     = match Re.re_search true S4CClicBaseIE.re_season_with_separators
               (Text.of_string title) with
       | Some mobj =>
           (Some (Text.int_of_digits (Re.group 2 mobj)),
            Text.to_string
              (Text.strip (Text.remove_all (Re.group 0 mobj)
                             (Text.of_string title))))
       | None => (None, title)
       end.
Proof.
  assert (Hdead :
            Re.re_search true S4CClicBaseIE.re_season_with_separators
              (Text.of_string title) = None ->
            Re.re_search true S4CClicBaseIE.re_season (Text.of_string title)
            = None).
  { intros Hnone.
    destruct (Re.re_search true S4CClicBaseIE.re_season (Text.of_string title))
      as [mobj|] eqn:E; [| reflexivity].
    exfalso.
    apply (ReFacts.search_from_sound true S4CClicBaseIE.re_season
             (fun _ => Marker.season_marker_here)
             (fun p s p' s' => PatternFacts.re_season_sound p s p' s')) in E.
    exact (PatternFacts.search_some true S4CClicBaseIE.re_season_with_separators
             (fun _ => Marker.season_marker_here)
             (fun p s0 => PatternFacts.re_season_with_separators_complete p s0)
             (Text.of_string title) E Hnone). }
  split; [exact Hdead |].
  unfold S4CClicBaseIE._extract_season_number_from_title.
  destruct (Re.re_search true S4CClicBaseIE.re_season_with_separators
              (Text.of_string title)) as [mobj|]; [reflexivity |].
  rewrite (Hdead eq_refl). reflexivity.
Qed.

Lemma season_fallback_never_taken_witness :
  Re.re_search true S4CClicBaseIE.re_season (Text.of_string "Pobol y Cwm")
  = None.
Proof.
  apply (proj1 (season_fallback_never_taken "Pobol y Cwm")).
  vm_compute. reflexivity.
Defined.

(** X18. When the series title is absent or empty, a built record
    takes its title from the programme title: with no programme title
    either, title and episode title are "No Title" and the season is 0;
    with an empty programme title they are both empty. *)
Theorem title_fallbacks `{InfoExtractor} utcoffset upstream programme_id
    record :
  S4CClicBaseIE._extract_episode_info utcoffset upstream programme_id
  = Ok record ->
  truthy (ep_series_title upstream) = false ->
  (ep_programme_title upstream = None ->
   title record = "No Title"%string /\ episode record = "No Title"%string
   /\ season_number record = 0)
  /\ (ep_programme_title upstream = Some ""%string ->
      title record = ""%string /\ episode record = ""%string
      /\ season_number record = 0).
Proof.
  intros Hok Hseries.
  apply Builder.build_ok in Hok as (Htitle & Hseason & _ & Hepisode).
  unfold Stages.resolved_series_title in Htitle, Hseason.
  rewrite Hseries in Htitle, Hseason.
  unfold Stages.working_title in Hepisode. cbv zeta in Hepisode.
  split; intros Hpt; rewrite Hpt in Htitle, Hseason, Hepisode.
  - assert (Hx : S4CClicBaseIE._extract_season_number_from_title
                   (default "No Title" None) = (None, "No Title"%string))
      by (vm_compute; reflexivity).
    rewrite Hx in Htitle, Hseason.
    assert (Hy : S4CClicBaseIE._extract_episode_number_from_title
                   (default "" None) = None) by (vm_compute; reflexivity).
    assert (Hz : S4CClicBaseIE._extract_episode_number_from_text
                   (default "" None) = (None, ""%string))
      by (vm_compute; reflexivity).
    rewrite Hy, Hz in Hepisode. cbn [snd fst] in *.
    rewrite Hepisode, Htitle, Hseason. repeat split; reflexivity.
  - assert (Hx : S4CClicBaseIE._extract_season_number_from_title
                   (default "No Title" (Some ""%string)) = (None, ""%string))
      by (vm_compute; reflexivity).
    rewrite Hx in Htitle, Hseason.
    assert (Hy : S4CClicBaseIE._extract_episode_number_from_title
                   (default "" (Some ""%string)) = None)
      by (vm_compute; reflexivity).
    assert (Hz : S4CClicBaseIE._extract_episode_number_from_text
                   (default "" (Some ""%string)) = (None, ""%string))
      by (vm_compute; reflexivity).
    rewrite Hy, Hz in Hepisode. cbn [snd fst] in *.
    rewrite Hepisode, Htitle, Hseason. repeat split; reflexivity.
Qed.

Lemma title_fallbacks_witness :
  exists record,
    S4CClicBaseIE._extract_episode_info (H := Sample.catalogue) Sample.utc
      Sample.untitled_episode "105" = Ok record
    /\ title record = "No Title"%string /\ episode record = "No Title"%string.
Proof.
  destruct (S4CClicBaseIE._extract_episode_info (H := Sample.catalogue)
              Sample.utc Sample.untitled_episode "105") as [record|e] eqn:E.
  - exists record. split; [reflexivity |].
    destruct (proj1 (title_fallbacks (H := Sample.catalogue) Sample.utc
                       Sample.untitled_episode "105" record E eq_refl)
                eq_refl) as (Ht & He & _).
    split; [exact Ht | exact He].
  - vm_compute in E. discriminate.
Defined.

(** ** The numbers the extractors read *)

Module Readers.

Import Text Re ReSpec ReFacts Stepping Marker Reading S4CClicBaseIE.

(** A search reads the digits behind the first position that holds a
    marker, when the pattern matches only at markers and captures the
    digits there. *)
Lemma search_reads ic r g (here : option ascii -> text -> bool)
    (digits_from : text -> text)
    (Hsound : forall p s p' s', matches ic r p s p' s' -> here p s = true)
    (Hread : forall p t, here p t = true ->
             exists mobj, match_at ic r p t = Some mobj
                          /\ group g mobj
                             = fst (span Char.is_digit (digits_from t))) :
  forall t p,
    match search_from ic r p t with
    | Some mobj => Some (int_of_digits (group g mobj))
    | None => None
    end
    = first_number here digits_from p t.
Proof.
  assert (Hmiss : forall p t, here p t = false -> match_at ic r p t = None).
  { intros p t Hh. destruct (match_at ic r p t) as [mobj|] eqn:E;
      [| reflexivity].
    apply match_at_sound in E as (p' & s' & E).
    rewrite (Hsound _ _ _ _ E) in Hh. discriminate. }
  induction t as [|a t IH]; intros p; cbn [search_from first_number].
  - destruct (here p []) eqn:Eh.
    + destruct (Hread _ _ Eh) as (mobj & -> & Hg). rewrite Hg. reflexivity.
    + rewrite (Hmiss _ _ Eh). reflexivity.
  - destruct (here p (a :: t)) eqn:Eh.
    + destruct (Hread _ _ Eh) as (mobj & -> & Hg). rewrite Hg. reflexivity.
    + rewrite (Hmiss _ _ Eh). apply IH.
Qed.

Lemma step_wordb ic p s c k :
  xorb (word_at p) (word_at (head s)) = true ->
  rmatch ic Wordb p s c k = k p s c.
Proof. intros Hb. cbn [rmatch]. rewrite Hb. reflexivity. Qed.

(** A captured run of digits, when what follows accepts its end. *)
Lemma digits_tail ic g p d run rest c (k : cont) o :
  Char.is_digit d = true -> forallb Char.is_digit run = true ->
  match rest with b :: _ => Char.is_digit b = false | [] => True end ->
  k (List.last (map Some run) (Some d)) rest (set_group g (d :: run) c)
  = Some o ->
  rmatch ic (Grp g (Plus digit)) p (d :: run ++ rest) c k = Some o.
Proof.
  intros Hd Hrun Hrest Hk. rewrite step_grp.
  apply step_digits; [exact Hd | exact Hrun | exact Hrest |].
  change (d :: run ++ rest) with ((d :: run) ++ rest).
  rewrite LeadingNumber.consumed_app. exact Hk.
Qed.

(** The digits at the front of a text, split off. *)
Lemma digits_split t :
  exists run rest,
    t = run ++ rest /\ forallb Char.is_digit run = true
    /\ match rest with b :: _ => Char.is_digit b = false | [] => True end
    /\ span Char.is_digit t = (run, rest).
Proof.
  destruct (PatternFacts.span_split Char.is_digit t)
    as (run & rest & Hs & Ht & Hrun).
  exists run, rest. split; [exact Ht |]. split; [exact Hrun |].
  split; [exact (Addresses.span_stops _ _ _ _ Hs) | exact Hs].
Qed.

Lemma span_digits d run rest :
  Char.is_digit d = true -> span Char.is_digit (run ++ rest) = (run, rest) ->
  fst (span Char.is_digit (d :: run ++ rest)) = d :: run.
Proof. intros Hd Hs. cbn [span]. rewrite Hd, Hs. reflexivity. Qed.

Lemma consumed_front (pre rest : text) : consumed (pre ++ rest) rest = pre.
Proof. apply LeadingNumber.consumed_app. Qed.

(** *** The thumbnail marker *)

Lemma thumbnail_read p t :
  thumbnail_marker_here t = true ->
  exists mobj,
    match_at false re_thumbnail p t = Some mobj
    /\ group 1 mobj = fst (span Char.is_digit (skipn 2 t)).
Proof.
  destruct t as [|a [|b [|d t]]]; cbn [thumbnail_marker_here];
    try discriminate.
  { rewrite andb_false_r. discriminate. }
  intros Hh. apply andb_true_iff in Hh as [Hh Hd].
  apply andb_true_iff in Hh as [Ha Hb].
  apply Ascii.eqb_eq in Ha, Hb. subst a b. cbn [starts_with_digit] in Hd.
  destruct (digits_split t) as (run & rest & -> & Hrun & Hrest & Hs).
  exists (MatchObject ("_"%char :: "P"%char :: d :: run) [(1%nat, d :: run)]).
  split.
  - unfold match_at, re_thumbnail, seq. cbn [fold_right].
    rewrite step_cat, step_chr by reflexivity.
    rewrite step_cat, step_chr by reflexivity.
    rewrite step_cat.
    rewrite (digits_tail false 1 _ d run rest [] _ (rest, [(1%nat, d :: run)]))
      by (assumption || reflexivity).
    f_equal. f_equal.
    apply (consumed_front ("_"%char :: "P"%char :: d :: run) rest).
  - cbn [skipn]. rewrite (span_digits d run rest Hd Hs). reflexivity.
Qed.

Lemma thumbnail_reads thumbnail_url :
  _extract_episode_number_from_thumbnail thumbnail_url
  = thumbnail_number thumbnail_url.
Proof.
  unfold _extract_episode_number_from_thumbnail, thumbnail_number, re_search.
  apply (search_reads false re_thumbnail 1 (fun _ => thumbnail_marker_here)).
  - intros p s p' s'. apply PatternFacts.re_thumbnail_sound.
  - intros p t. apply thumbnail_read.
Qed.

(** *** The free-standing "E<digits>" *)

Lemma episode_token_read p t :
  episode_token_here p t = true ->
  exists mobj,
    match_at false re_episode p t = Some mobj
    /\ group 1 mobj = fst (span Char.is_digit (skipn 1 t)).
Proof.
  destruct t as [|a [|d t]]; cbn [episode_token_here]; try discriminate.
  { rewrite andb_false_r. discriminate. }
  intros Hh. apply andb_true_iff in Hh as [Hh Hafter].
  apply andb_true_iff in Hh as [Hh Hd].
  apply andb_true_iff in Hh as [Hbefore Ha].
  apply Ascii.eqb_eq in Ha. subst a. cbn [starts_with_digit] in Hd.
  apply negb_true_iff in Hbefore. apply negb_true_iff in Hafter.
  destruct (digits_split t) as (run & rest & -> & Hrun & Hrest & Hs).
  cbn [span] in Hafter. rewrite Hd, Hs in Hafter. cbn [snd] in Hafter.
  exists (MatchObject ("E"%char :: d :: run) [(1%nat, d :: run)]).
  split.
  - unfold match_at, re_episode, seq. cbn [fold_right].
    rewrite step_cat, step_wordb
      by (cbn [head]; rewrite Hbefore; reflexivity).
    rewrite step_cat, step_chr by reflexivity.
    rewrite step_cat.
    rewrite (digits_tail false 1 _ d run rest [] _ (rest, [(1%nat, d :: run)]));
      [| exact Hd | exact Hrun | exact Hrest |].
    + f_equal. f_equal. apply (consumed_front ("E"%char :: d :: run) rest).
    + rewrite step_cat, step_wordb; [reflexivity |].
      rewrite (PatternFacts.last_digit_is_word run d Hd Hrun), Hafter.
      reflexivity.
  - cbn [skipn]. rewrite (span_digits d run rest Hd Hs). reflexivity.
Qed.

Lemma episode_token_reads text :
  _extract_episode_number text = episode_token_number text.
Proof.
  unfold _extract_episode_number, episode_token_number, re_search.
  apply (search_reads false re_episode 1 episode_token_here).
  - intros p s p' s'. apply PatternFacts.re_episode_sound.
  - intros p t. apply episode_token_read.
Qed.

(** *** Words in any letter case, and an optional letter *)

Lemma word_step (w : text) : forall p s rest c (k : cont) o,
  after_word w s = Some rest ->
  (forall p', k p' rest c = Some o) ->
  rmatch true (fold_right (fun a r => Cat (Chr a) r) Eps w) p s c k = Some o.
Proof.
  induction w as [|a w IH]; intros p s rest c k o Hw Hk.
  - destruct s; injection Hw as <-; apply Hk.
  - destruct s as [|b s]; [discriminate |]. cbn [after_word] in Hw.
    destruct (Char.eqc true a b) eqn:Eb; [| discriminate].
    cbn [fold_right]. rewrite step_cat, step_chr by exact Eb.
    apply (IH _ _ rest); assumption.
Qed.

Lemma word_miss (w : text) : forall p s c (k : cont),
  after_word w s = None ->
  rmatch true (fold_right (fun a r => Cat (Chr a) r) Eps w) p s c k = None.
Proof.
  induction w as [|a w IH]; intros p s c k Hw.
  - destruct s; discriminate.
  - destruct s as [|b s]; [reflexivity |]. cbn [after_word] in Hw.
    cbn [fold_right]. rewrite step_cat.
    destruct (Char.eqc true a b) eqn:Eb.
    + rewrite step_chr by exact Eb. apply IH, Hw.
    + apply step_chr_miss, Eb.
Qed.

(** One of two words that begin with different letters. *)
Lemma either_word (w w' : string) (tail : text -> bool) t
    (Hapart : forall a b x l l', of_string w = a :: l ->
              of_string w' = b :: l' ->
              Char.eqc true a x = true -> Char.eqc true b x = false) :
  of_string w <> [] -> of_string w' <> [] ->
  word_then w tail t || word_then w' tail t = true ->
  tail (after_either w w' t) = true
  /\ (after_word (of_string w) t = Some (after_either w w' t)
      \/ (after_word (of_string w) t = None
          /\ after_word (of_string w') t = Some (after_either w w' t))).
Proof.
  unfold word_then, after_either. intros Hw Hw' Hh.
  destruct (after_word (of_string w) t) as [rest|] eqn:E1.
  - split; [| left; reflexivity].
    destruct (tail rest) eqn:Et; [reflexivity |]. cbn [orb] in Hh.
    destruct (after_word (of_string w') t) as [rest'|] eqn:E2;
      [| discriminate].
    exfalso.
    destruct (of_string w) as [|a l] eqn:Ea; [contradiction |].
    destruct (of_string w') as [|b l'] eqn:Eb; [contradiction |].
    destruct t as [|x t]; [discriminate |]. cbn [after_word] in E1, E2.
    destruct (Char.eqc true a x) eqn:Eax; [| discriminate].
    rewrite (Hapart a b x l l' eq_refl eq_refl Eax) in E2. discriminate.
  - cbn [orb] in Hh.
    destruct (after_word (of_string w') t) as [rest'|] eqn:E2;
      [| discriminate].
    split; [exact Hh | right; split; reflexivity].
Qed.

Lemma alt_words_step (w w' : string) t p c (k : cont) o :
  (after_word (of_string w) t = Some (after_either w w' t)
   \/ (after_word (of_string w) t = None
       /\ after_word (of_string w') t = Some (after_either w w' t))) ->
  (forall p', k p' (after_either w w' t) c = Some o) ->
  rmatch true (Alt (Lit w) (Lit w')) p t c k = Some o.
Proof.
  intros Hw Hk. rewrite step_alt. unfold Lit.
  destruct Hw as [Hw | [Hw Hw']].
  - apply Addresses.orelse_some. eapply word_step; [exact Hw | exact Hk].
  - rewrite (word_miss _ _ _ _ _ Hw). cbn [orelse].
    eapply word_step; [exact Hw' | exact Hk].
Qed.

(** An optional letter that no digit equals, then the captured digits. *)
Lemma opt_digits_read x g rest
    (Hx : forall d, Char.is_digit d = true -> Char.eqc true x d = false) :
  x_then_digit true x rest = true ->
  exists d run rest',
    span Char.is_digit (without x rest) = (d :: run, rest')
    /\ forall p c,
         rmatch true (Cat (Opt (Chr x)) (Cat (Grp g (Plus digit)) Eps))
           p rest c (fun _ s' c' => Some (s', c'))
         = Some (rest', set_group g (d :: run) c).
Proof.
  unfold x_then_digit. intros Hh.
  destruct rest as [|a rest]; [discriminate |]. cbn [starts_with_digit] in Hh.
  destruct (Char.is_digit a) eqn:Ea.
  - destruct (digits_split rest) as (run & rest' & -> & Hrun & Hrest & Hs).
    exists a, run, rest'. split.
    + cbn [without]. rewrite (Hx a Ea). cbn [span]. rewrite Ea, Hs.
      reflexivity.
    + intros p c. rewrite step_cat, step_opt.
      rewrite (step_chr_miss true x a) by exact (Hx a Ea). cbn [orelse].
      rewrite step_cat. apply digits_tail; try assumption. reflexivity.
  - cbn [orb] in Hh. apply andb_true_iff in Hh as [Hxa Hd].
    destruct rest as [|d rest]; [discriminate |]. cbn [starts_with_digit] in Hd.
    destruct (digits_split rest) as (run & rest' & -> & Hrun & Hrest & Hs).
    exists d, run, rest'. split.
    + cbn [without]. rewrite Hxa. cbn [span]. rewrite Hd, Hs. reflexivity.
    + intros p c. rewrite step_cat, step_opt.
      apply Addresses.orelse_some. rewrite step_chr by exact Hxa.
      rewrite step_cat. apply digits_tail; try assumption. reflexivity.
Qed.

Lemma read_of_rmatch ic r p t (g : nat) digits s' c' :
  g <> O ->
  rmatch ic r p t [] (fun _ s0 c0 => Some (s0, c0)) = Some (s', c') ->
  get_group g c' = digits ->
  exists mobj, match_at ic r p t = Some mobj /\ group g mobj = digits.
Proof.
  intros Hg Hm Hd. unfold match_at. rewrite Hm.
  eexists. split; [reflexivity |].
  destruct g as [|g]; [contradiction | exact Hd].
Qed.

Lemma underscore_no_digit d :
  Char.is_digit d = true -> Char.eqc true "_" d = false.
Proof. PatternFacts.each_ascii d; vm_compute; congruence. Qed.

Lemma X_no_digit d : Char.is_digit d = true -> Char.eqc true "X" d = false.
Proof. PatternFacts.each_ascii d; vm_compute; congruence. Qed.

Lemma p_or_e x : Char.eqc true "p" x = true -> Char.eqc true "e" x = false.
Proof. PatternFacts.each_ascii x; vm_compute; congruence. Qed.

Lemma C_or_S x : Char.eqc true "C" x = true -> Char.eqc true "S" x = false.
Proof. PatternFacts.each_ascii x; vm_compute; congruence. Qed.

(** *** The filename marker *)

Lemma filename_read p t :
  filename_marker_here t = true ->
  exists mobj,
    match_at true re_filename p t = Some mobj
    /\ group 1 mobj
       = fst (span Char.is_digit
                (without "_" (after_either "pennod" "episode" (skipn 1 t)))).
Proof.
  destruct t as [|a t]; cbn [filename_marker_here]; [discriminate |].
  intros Hh. apply andb_true_iff in Hh as [Ha Hh].
  apply (either_word "pennod" "episode") in Hh as [Htail Hword];
    [| intros a0 b0 x l l' [= <- _] [= <- _]; apply p_or_e
     | discriminate | discriminate].
  destruct (opt_digits_read "_" 1 _ underscore_no_digit Htail)
    as (d & run & rest' & Hdigits & Hm).
  change (skipn 1 (a :: t)) with t. rewrite Hdigits. cbn [fst].
  apply (read_of_rmatch true re_filename p (a :: t) 1 (d :: run) rest'
           (set_group 1 (d :: run) []));
    [discriminate | | apply Captures.get_set_group].
  unfold re_filename, seq. cbn [fold_right].
  rewrite step_cat, step_cls by exact Ha. rewrite step_cat.
  apply (alt_words_step "pennod" "episode"); [exact Hword |].
  intros p'. apply Hm.
Qed.

Lemma filename_reads filename :
  _extract_episode_number_from_filename filename = filename_number filename.
Proof.
  unfold _extract_episode_number_from_filename, filename_number, re_search.
  apply (search_reads true re_filename 1 (fun _ => filename_marker_here)).
  - intros p s p' s'. apply PatternFacts.re_filename_sound.
  - intros p t. apply filename_read.
Qed.

(** *** The season marker *)

Lemma span_spec f : forall t run rest,
  span f t = (run, rest) ->
  t = run ++ rest /\ forallb f run = true
  /\ match rest with a :: _ => f a = false | [] => True end.
Proof.
  intros t run rest Hs.
  split; [exact (LeadingNumber.span_app f t run rest Hs) |].
  split; [| exact (Addresses.span_stops f t run rest Hs)].
  destruct (PatternFacts.span_split f t) as (run' & rest' & Hs' & _ & Hrun).
  rewrite Hs in Hs'. injection Hs' as <- <-. exact Hrun.
Qed.

Lemma span_prefix f run : forall t,
  forallb f run = true ->
  span f (run ++ t) = (run ++ fst (span f t), snd (span f t)).
Proof.
  induction run as [|a run IH]; intros t Hrun.
  - cbn [app]. destruct (span f t). reflexivity.
  - cbn [forallb] in Hrun. apply andb_true_iff in Hrun as [Ha Hrun].
    cbn [app span]. rewrite Ha, (IH t Hrun). reflexivity.
Qed.

Lemma span_none f (t : text) :
  match t with a :: _ => f a = false | [] => True end -> span f t = ([], t).
Proof. destruct t as [|a t]; [reflexivity |]. cbn [span]. intros ->. reflexivity. Qed.

Lemma lstrip_span : forall t, span Char.is_space t = (fst (span Char.is_space t), lstrip t).
Proof.
  induction t as [|a t IH]; [reflexivity |].
  cbn [span lstrip]. destruct (Char.is_space a); [| reflexivity].
  rewrite IH. reflexivity.
Qed.

Lemma step_star_cls ic f p t c (k : cont) o run rest :
  span f t = (run, rest) ->
  k (List.last (map Some run) p) rest c = Some o ->
  rmatch ic (Star (Cls f)) p t c k = Some o.
Proof.
  intros Hs Hk. cbn [rmatch].
  exact (LeadingNumber.star_cls_greedy ic f k o c t (length t) p run rest
           (Nat.le_refl _) Hs Hk).
Qed.

Lemma space_is_separator a : Char.is_space a = true -> separator a = true.
Proof. unfold separator. intros ->. apply orb_true_r. Qed.

Lemma spaces_are_separators run :
  forallb Char.is_space run = true -> forallb separator run = true.
Proof.
  induction run as [|a run IH]; [reflexivity |]. cbn [forallb].
  intros Hrun. apply andb_true_iff in Hrun as [Ha Hrun].
  rewrite (space_is_separator a Ha), (IH Hrun). reflexivity.
Qed.

Lemma not_separator_not_space (t : text) :
  match t with a :: _ => separator a = false | [] => True end ->
  match t with a :: _ => Char.is_space a = false | [] => True end.
Proof.
  destruct t as [|a t]; [trivial |]. intros Ha.
  destruct (Char.is_space a) eqn:E; [| reflexivity].
  rewrite (space_is_separator a E) in Ha. discriminate.
Qed.

Lemma C_not_separator x : Char.eqc true "C" x = true -> separator x = false.
Proof. PatternFacts.each_ascii x; vm_compute; congruence. Qed.

Lemma S_not_separator x : Char.eqc true "S" x = true -> separator x = false.
Proof. PatternFacts.each_ascii x; vm_compute; congruence. Qed.

Lemma marker_not_separator t :
  season_marker_here t = true ->
  match t with a :: _ => separator a = false | [] => True end.
Proof.
  destruct t as [|a t]; [trivial |].
  unfold season_marker_here, word_then. intros Hh.
  apply orb_true_iff in Hh as [Hh | Hh].
  - change (of_string "Cyfres") with ("C"%char :: of_string "yfres") in Hh.
    cbn [after_word] in Hh.
    destruct (Char.eqc true "C" a) eqn:E; [| discriminate].
    apply C_not_separator, E.
  - change (of_string "Season") with ("S"%char :: of_string "eason") in Hh.
    cbn [after_word] in Hh.
    destruct (Char.eqc true "S" a) eqn:E; [| discriminate].
    apply S_not_separator, E.
Qed.

Lemma season_here_sound p s p' s' :
  matches true re_season_with_separators p s p' s' -> season_here s = true.
Proof.
  intros Hm.
  change (matches true
            (Cat (Star space)
               (Cat (Star (Cls separator)) (Cat (Star space) re_season)))
            p s p' s') in Hm.
  apply cat_inv in Hm as (p1 & s1 & H1 & Hm).
  apply star_cls_inv in H1 as (run1 & -> & Hrun1 & _).
  apply cat_inv in Hm as (p2 & s2 & H2 & Hm).
  apply star_cls_inv in H2 as (run2 & -> & Hrun2 & _).
  apply cat_inv in Hm as (p3 & s3 & H3 & Hm).
  apply star_cls_inv in H3 as (run3 & -> & Hrun3 & _).
  apply PatternFacts.re_season_sound in Hm.
  unfold season_here.
  rewrite !app_assoc.
  rewrite (PatternFacts.span_run separator ((run1 ++ run2) ++ run3) s3).
  - exact Hm.
  - rewrite !forallb_app, Hrun2, (spaces_are_separators _ Hrun1),
      (spaces_are_separators _ Hrun3). reflexivity.
  - apply marker_not_separator, Hm.
Qed.

Lemma season_read_whole p t :
  season_here t = true ->
  exists c',
    match_at true re_season_with_separators p t
    = Some (MatchObject
              (consumed t (snd (span Char.is_digit (season_digits t)))) c')
    /\ get_group 2 c' = fst (span Char.is_digit (season_digits t)).
Proof.
  unfold season_here, season_digits.
  destruct (span separator t) as [seps s1] eqn:Esep. cbn [snd].
  destruct (span_spec _ _ _ _ Esep) as (Ht & Hseps & Hstop).
  unfold season_marker_here. intros Hh.
  apply (either_word "Cyfres" "Season") in Hh as [Htail Hword];
    [| intros a0 b0 x l l' [= <- _] [= <- _]; apply C_or_S
     | discriminate | discriminate].
  unfold season_tail in Htail.
  destruct (opt_digits_read "X" 2 _ X_no_digit Htail)
    as (d & run & rest' & Hdigits & Hm).
  rewrite Hdigits. cbn [fst snd].
  exists (set_group 2 (d :: run)
            (set_group 1
               (consumed s1 (after_either "Cyfres" "Season" s1)) [])).
  split; [| apply Captures.get_set_group].
  assert (Hfull : forall o : outcome,
             rmatch true re_season_with_separators p t []
               (fun _ s0 c0 => Some (s0, c0)) = Some o ->
             match_at true re_season_with_separators p t
             = Some (MatchObject (consumed t (fst o)) (snd o))).
  { intros [s0 c0] Ho. unfold match_at. rewrite Ho. reflexivity. }
  apply (Hfull (rest', _)).
  unfold re_season_with_separators, seq. cbn [fold_right].
  destruct (span Char.is_space t) as [ws t2] eqn:Ews.
  destruct (span_spec _ _ _ _ Ews) as (Ht2 & Hws & _).
  assert (E2 : span separator t2 = (fst (span separator t2), s1)).
  { pose proof (span_prefix separator ws t2 (spaces_are_separators _ Hws))
      as Hp.
    rewrite <- Ht2, Esep in Hp. injection Hp as _ Hs1.
    rewrite Hs1. destruct (span separator t2); reflexivity. }
  rewrite step_cat. eapply step_star_cls; [exact Ews |]. cbv beta.
  rewrite step_cat. eapply step_star_cls; [exact E2 |]. cbv beta.
  rewrite step_cat.
  eapply step_star_cls;
    [apply span_none, not_separator_not_space, Hstop |]. cbv beta.
  rewrite step_cat, step_grp.
  apply (alt_words_step "Cyfres" "Season"); [exact Hword |].
  intros p'. rewrite step_cat.
  eapply step_star_cls; [apply lstrip_span |]. cbv beta.
  apply Hm.
Qed.

Lemma season_read p t :
  season_here t = true ->
  exists mobj,
    match_at true re_season_with_separators p t = Some mobj
    /\ group 2 mobj = fst (span Char.is_digit (season_digits t)).
Proof.
  intros Hh. destruct (season_read_whole p t Hh) as (c' & Hm & Hg).
  eexists. split; [exact Hm | exact Hg].
Qed.

(** A search stops at the first position that holds a marker. *)
Lemma search_place ic r (here : option ascii -> text -> bool)
    (Hsound : forall p s p' s', matches ic r p s p' s' -> here p s = true)
    (Hread : forall p t, here p t = true -> match_at ic r p t <> None) :
  forall t p,
    match first_place here p t with
    | Some t' =>
        exists p', search_from ic r p t = match_at ic r p' t'
                   /\ here p' t' = true
    | None => search_from ic r p t = None
    end.
Proof.
  assert (Hmiss : forall p t, here p t = false -> match_at ic r p t = None).
  { intros p t Hh. destruct (match_at ic r p t) as [mobj|] eqn:E;
      [| reflexivity].
    apply match_at_sound in E as (p' & s' & E).
    rewrite (Hsound _ _ _ _ E) in Hh. discriminate. }
  induction t as [|a t IH]; intros p; cbn [search_from first_place].
  - destruct (here p []) eqn:Eh.
    + exists p. split; [| exact Eh].
      destruct (match_at ic r p []) eqn:Em; [reflexivity |].
      contradiction (Hread _ _ Eh).
    + rewrite (Hmiss _ _ Eh). reflexivity.
  - destruct (here p (a :: t)) eqn:Eh.
    + exists p. split; [| exact Eh].
      destruct (match_at ic r p (a :: t)) eqn:Em; [reflexivity |].
      contradiction (Hread _ _ Eh).
    + rewrite (Hmiss _ _ Eh). apply IH.
Qed.

(** The search without separators finds nothing that the search with
    them missed. *)
Lemma fallback_finds_nothing (t : text) :
  re_search true re_season_with_separators t = None ->
  re_search true re_season t = None.
Proof.
  intros Hnone.
  destruct (re_search true re_season t) as [mobj|] eqn:E; [| reflexivity].
  exfalso.
  apply (search_from_sound true re_season (fun _ => season_marker_here)
           (fun p s p' s' => PatternFacts.re_season_sound p s p' s')) in E.
  exact (PatternFacts.search_some true re_season_with_separators
           (fun _ => season_marker_here)
           (fun p s0 => PatternFacts.re_season_with_separators_complete p s0)
           t E Hnone).
Qed.

Lemma season_reads title :
  fst (_extract_season_number_from_title title) = season_number_of title.
Proof.
  unfold season_number_of.
  rewrite <- (search_reads true re_season_with_separators 2
                (fun _ => season_here) season_digits
                (fun p s p' s' => season_here_sound p s p' s')
                (fun p t => season_read p t)).
  unfold _extract_season_number_from_title.
  fold (re_search true re_season_with_separators (of_string title)).
  destruct (re_search true re_season_with_separators (of_string title))
    as [mobj|] eqn:E; [reflexivity |].
  rewrite (fallback_finds_nothing _ E). reflexivity.
Qed.

Lemma season_whole title :
  _extract_season_number_from_title title = season_of title.
Proof.
  unfold _extract_season_number_from_title, season_of.
  fold (re_search true re_season_with_separators (of_string title)).
  pose proof (search_place true re_season_with_separators
                (fun _ => season_here)
                (fun p s p' s' => season_here_sound p s p' s')
                (fun p t Hh =>
                   match season_read p t Hh with
                   | ex_intro _ mobj (conj Hm _) =>
                       fun Hnone : match_at true re_season_with_separators p t
                                   = None =>
                         eq_ind (Some mobj)
                           (fun o => match o with Some _ => True
                                     | None => False end)
                           I None (eq_trans (eq_sym Hm) Hnone)
                   end)
                (of_string title) None) as Hplace.
  fold (re_search true re_season_with_separators (of_string title)) in Hplace.
  destruct (first_place (fun _ => season_here) None (of_string title))
    as [t|].
  - destruct Hplace as (p' & -> & Hh).
    destruct (season_read_whole p' t Hh) as (c' & -> & Hg).
    unfold group. cbn [group0 groups]. rewrite Hg.
    destruct (span Char.is_digit (season_digits t)) as [digits rest].
    reflexivity.
  - rewrite Hplace, (fallback_finds_nothing _ Hplace). reflexivity.
Qed.

(** *** The marker at the front of a programme title *)

Lemma starts_with_split (w : text) : forall t,
  starts_with w t = true -> t = w ++ skipn (length w) t.
Proof.
  induction w as [|a w IH]; intros t Hw; [reflexivity |].
  destruct t as [|b t]; [discriminate |]. cbn [starts_with] in Hw.
  apply andb_true_iff in Hw as [Hab Hw]. apply Ascii.eqb_eq in Hab. subst b.
  cbn [length skipn app]. f_equal. apply IH, Hw.
Qed.

Lemma starts_with_app (w : text) s : starts_with w (w ++ s) = true.
Proof.
  induction w as [|a w IH]; [reflexivity |].
  cbn [app starts_with]. rewrite Ascii.eqb_refl, IH. reflexivity.
Qed.

Lemma lit_miss (w : text) : forall p t c (k : cont),
  starts_with w t = false ->
  rmatch false (fold_right (fun a r => Cat (Chr a) r) Eps w) p t c k = None.
Proof.
  induction w as [|a w IH]; intros p t c k Hw; [discriminate |].
  destruct t as [|b t]; [reflexivity |]. cbn [starts_with] in Hw.
  cbn [fold_right]. rewrite step_cat.
  destruct (Ascii.eqb a b) eqn:Eab.
  - rewrite step_chr by exact Eab. apply IH. exact Hw.
  - apply step_chr_miss. exact Eab.
Qed.

Lemma step_bol ic s c (k : cont) : rmatch ic Bol None s c k = k None s c.
Proof. reflexivity. Qed.

Lemma title_marker_sound t p' s' :
  matches false re_episode_title None t p' s' ->
  exists (w : string) rest,
    (w = "Pennod"%string \/ w = "Episode"%string)
    /\ t = of_string w ++ rest
    /\ starts_with_digit (lstrip rest) = true.
Proof.
  unfold re_episode_title, seq. cbn [fold_right]. intros Hm.
  apply cat_inv in Hm as (p1 & s1 & Hb & Hm).
  apply bol_inv in Hb as (_ & -> & ->).
  apply cat_inv in Hm as (p2 & s2 & Hw & Hm).
  apply cat_inv in Hm as (p3 & s3 & Hs & Hm).
  apply star_cls_inv in Hs as (run & -> & Hrun & _).
  apply cat_inv in Hm as (p4 & s4 & Hd & _).
  apply grp_inv, plus_digit_inv in Hd.
  assert (Hstrip : starts_with_digit (lstrip (run ++ s3)) = true).
  { rewrite PatternFacts.lstrip_run; [exact Hd | exact Hrun |].
    destruct s3 as [|a s3]; [trivial |].
    apply PatternFacts.digit_not_space, Hd. }
  apply alt_inv in Hw as [Hw | Hw]; apply Addresses.lit_exact in Hw.
  - exists "Pennod"%string, (run ++ s3). split; [left; reflexivity |].
    split; [exact Hw | exact Hstrip].
  - exists "Episode"%string, (run ++ s3). split; [right; reflexivity |].
    split; [exact Hw | exact Hstrip].
Qed.

Lemma title_marker_read (w : text) rest :
  starts_with_digit (lstrip rest) = true ->
  forall k : cont,
    (forall p s c, k p s c = Some (s, c)) ->
    exists rest',
      rmatch false
        (Cat (fold_right (fun a r => Cat (Chr a) r) Eps w)
           (Cat (Star space) (Cat (Grp 1 (Plus digit)) Eps)))
        None (w ++ rest) [] k
      = Some (rest', [(1%nat, fst (span Char.is_digit (lstrip rest)))]).
Proof.
  intros Hd k Hk.
  destruct (lstrip rest) as [|d t] eqn:El; [discriminate |].
  cbn [starts_with_digit] in Hd.
  destruct (digits_split t) as (run & rest' & -> & Hrun & Hrest & Hs).
  exists rest'. rewrite (span_digits d run rest' Hd Hs).
  rewrite step_cat, step_word, step_cat.
  eapply step_star_cls; [apply lstrip_span |]. cbv beta. rewrite El.
  rewrite step_cat. apply digits_tail; try assumption.
  cbn [rmatch]. apply Hk.
Qed.

Lemma title_reads title :
  _extract_episode_number_from_title title = title_marker_number title.
Proof.
  unfold _extract_episode_number_from_title, title_marker_number, re_match,
    match_at.
  cbv zeta. remember (of_string title) as t eqn:Et. clear Et title.
  assert (Hnone :
            (forall (w : string) rest,
                (w = "Pennod"%string \/ w = "Episode"%string) ->
                t = of_string w ++ rest ->
                starts_with_digit (lstrip rest) = false) ->
            rmatch false re_episode_title None t []
              (fun _ s' c' => Some (s', c')) = None).
  { intros Hno.
    destruct (rmatch false re_episode_title None t [] _) as [[s' c']|] eqn:E;
      [| reflexivity].
    apply rmatch_sound in E as (p1 & s1 & c1 & E & _).
    apply title_marker_sound in E as (w & rest & Hw & Ht & Hd).
    rewrite (Hno w rest Hw Ht) in Hd. discriminate. }
  destruct (starts_with (of_string "Pennod") t) eqn:EP.
  - pose proof (starts_with_split _ _ EP) as Ht.
    change (length (of_string "Pennod")) with 6%nat in Ht.
    remember (skipn 6 t) as rest eqn:Er. clear Er.
    destruct (starts_with_digit (lstrip rest)) eqn:Ed.
    + destruct (title_marker_read (of_string "Pennod") rest Ed
                  (fun _ s' c' => Some (s', c')) (fun _ _ _ => eq_refl))
        as (rest' & Hm).
      assert (Hfull : rmatch false re_episode_title None t []
                        (fun _ s' c' => Some (s', c'))
                      = Some (rest',
                              [(1%nat, fst (span Char.is_digit (lstrip rest)))])).
      { rewrite Ht. unfold re_episode_title, seq. cbn [fold_right].
        rewrite step_cat, step_bol, step_cat, step_alt.
        apply Addresses.orelse_some. rewrite step_cat in Hm. exact Hm. }
      rewrite Hfull. reflexivity.
    + rewrite Hnone; [reflexivity |].
      intros w rest0 [-> | ->] Ht0.
      * rewrite Ht in Ht0. apply app_inv_head in Ht0. subst rest0. exact Ed.
      * rewrite Ht in Ht0. discriminate.
  - destruct (starts_with (of_string "Episode") t) eqn:EE.
    + pose proof (starts_with_split _ _ EE) as Ht.
      change (length (of_string "Episode")) with 7%nat in Ht.
      remember (skipn 7 t) as rest eqn:Er. clear Er.
      destruct (starts_with_digit (lstrip rest)) eqn:Ed.
      * destruct (title_marker_read (of_string "Episode") rest Ed
                    (fun _ s' c' => Some (s', c')) (fun _ _ _ => eq_refl))
          as (rest' & Hm).
        assert (Hfull : rmatch false re_episode_title None t []
                          (fun _ s' c' => Some (s', c'))
                        = Some (rest',
                                [(1%nat,
                                  fst (span Char.is_digit (lstrip rest)))])).
        { unfold re_episode_title, seq. cbn [fold_right].
          rewrite step_cat, step_bol, step_cat, step_alt.
          unfold Lit at 1. rewrite (lit_miss _ _ _ _ _ EP). cbn [orelse].
          rewrite step_cat in Hm. rewrite Ht. exact Hm. }
        rewrite Hfull. reflexivity.
      * rewrite Hnone; [reflexivity |].
        intros w rest0 [-> | ->] Ht0.
        -- rewrite Ht0, starts_with_app in EP. discriminate.
        -- rewrite Ht in Ht0. apply app_inv_head in Ht0. subst rest0. exact Ed.
    + rewrite Hnone; [reflexivity |].
      intros w rest0 [-> | ->] Ht0.
      * rewrite Ht0, starts_with_app in EP. discriminate.
      * rewrite Ht0, starts_with_app in EE. discriminate.
Qed.

End Readers.

(** X19. On ASCII text of at most 4300 characters, so that [int]
    takes every run of digits, the thumbnail extractor returns the number
    written by all the digits that follow the first "_P", from the left,
    that a digit follows; nothing when there is none. *)
Theorem thumbnail_number_read thumbnail_url :
  Plain.plain thumbnail_url = true ->
  (String.length thumbnail_url <= 4300)%nat ->
  S4CClicBaseIE._extract_episode_number_from_thumbnail thumbnail_url
  = Reading.thumbnail_number thumbnail_url.
Proof. intros _ _. apply Readers.thumbnail_reads. Qed.

Lemma thumbnail_number_read_witness :
  S4CClicBaseIE._extract_episode_number_from_thumbnail
    "https://www.s4c.cymru/amg/pobol_P_a_P012_P7.jpg"
  = Some 12.
Proof.
  apply (thumbnail_number_read
           "https://www.s4c.cymru/amg/pobol_P_a_P012_P7.jpg" eq_refl).
  simpl. lia.
Defined.

(** X20. On ASCII text of at most 4300 characters the free-text
    extractor returns the number
    written by the digits of the first "E<digits>", from the left, that
    has no word character just before it or just after its last
    digit. *)
Theorem episode_token_number_read text :
  Plain.plain text = true ->
  (String.length text <= 4300)%nat ->
  S4CClicBaseIE._extract_episode_number text
  = Reading.episode_token_number text.
Proof. intros _ _. apply Readers.episode_token_reads. Qed.

Lemma episode_token_number_read_witness :
  S4CClicBaseIE._extract_episode_number "cyfres_E3-E4x-E05.mpg" = Some 5.
Proof.
  apply (episode_token_number_read "cyfres_E3-E4x-E05.mpg" eq_refl).
  simpl. lia.
Defined.

(** X21. On ASCII text of at most 4300 characters the filename
    extractor returns the number
    written by all the digits behind the first hyphen or underscore that
    is followed by "pennod" or "episode" in any letter case, an optional
    underscore and a digit. *)
Theorem filename_number_read filename :
  Plain.plain filename = true ->
  (String.length filename <= 4300)%nat ->
  S4CClicBaseIE._extract_episode_number_from_filename filename
  = Reading.filename_number filename.
Proof. intros _ _. apply Readers.filename_reads. Qed.

Lemma filename_number_read_witness :
  S4CClicBaseIE._extract_episode_number_from_filename
    "rownd-pennod-x_Episode_08-pennod9.mpg"
  = Some 8.
Proof.
  apply (filename_number_read "rownd-pennod-x_Episode_08-pennod9.mpg" eq_refl).
  simpl. lia.
Defined.

(** X22. On ASCII titles of at most 4300 characters the season
    extractor finds the first season
    marker of the title ("Cyfres" or "Season" in any letter case, blanks,
    an optional "X" or "x", digits) and returns the number written by
    all its digits; the title it returns is the given one with that
    marker, taken from the first of the separators right in front of it
    to its last digit, deleted wherever it occurs, and then trimmed.
    Without a marker the title comes back unchanged. *)
Theorem season_and_title_read title :
  Plain.plain title = true ->
  (String.length title <= 4300)%nat ->
  S4CClicBaseIE._extract_season_number_from_title title
  = Reading.season_of title
  /\ fst (S4CClicBaseIE._extract_season_number_from_title title)
     = Reading.season_number_of title.
Proof.
  intros _ _.
  split; [apply Readers.season_whole | apply Readers.season_reads].
Qed.

Lemma season_and_title_read_witness :
  S4CClicBaseIE._extract_season_number_from_title
    "Pobol - Cyfres 2, Season x04 - Cyfres 2 "
  = (Some 2, "Pobol, Season x04"%string).
Proof.
  apply (proj1 (season_and_title_read
                  "Pobol - Cyfres 2, Season x04 - Cyfres 2 " eq_refl
                  ltac:(simpl; lia))).
Defined.

(** X23. On ASCII titles of at most 4300 characters the title-marker
    extractor returns a number
    exactly for the titles that begin with "Pennod" or "Episode",
    spelled so, then blanks, then a digit; the number is the one written
    by all the digits there. *)
Theorem title_marker_number_read title :
  Plain.plain title = true ->
  (String.length title <= 4300)%nat ->
  S4CClicBaseIE._extract_episode_number_from_title title
  = Reading.title_marker_number title.
Proof. intros _ _. apply Readers.title_reads. Qed.

Lemma title_marker_number_read_witness :
  S4CClicBaseIE._extract_episode_number_from_title "Episode  012a" = Some 12
  /\ S4CClicBaseIE._extract_episode_number_from_title "pennod 3" = None.
Proof.
  split.
  - apply (title_marker_number_read "Episode  012a" eq_refl). simpl. lia.
  - apply (title_marker_number_read "pennod 3" eq_refl). simpl. lia.
Defined.

(** ** Subtitles and dates, once more *)

(** X24. In the subtitles of a record no language code is empty, no
    language holds an empty list, and every track has format "vtt" and
    a non-empty address. *)
Theorem subtitle_tracks_well_formed (subtitles_list : list SubtitleDescriptor)
    (lang_code : string) (tracks : list SubtitleTrack) :
  S4CClicBaseIE.collect_subtitles subtitles_list !! lang_code = Some tracks ->
  lang_code <> ""%string
  /\ tracks <> []
  /\ Forall (fun track => ext track = "vtt"%string /\ url track <> ""%string)
       tracks.
Proof.
  unfold S4CClicBaseIE.collect_subtitles. rewrite collect_from, lookup_empty.
  assert (Hall : Forall (fun track => ext track = "vtt"%string
                                      /\ url track <> ""%string)
                   (Written.tracks_for lang_code subtitles_list)).
  { unfold Written.tracks_for.
    induction subtitles_list as [|subtitle rest IH]; [constructor |].
    cbn [flat_map]. apply Forall_app. split; [| exact IH].
    destruct (truthy (subtitle !! "3"%string)); cbn [andb]; [| constructor].
    destruct (subtitle !! "0"%string) as [address|]; cbn [truthy andb];
      [| constructor].
    destruct (String.eqb_spec address ""); cbn [negb andb]; [constructor |].
    destruct (String.eqb _ lang_code); [| constructor].
    constructor; [| constructor].
    split; [reflexivity | assumption]. }
  assert (Hcode : lang_code = ""%string ->
                  Written.tracks_for lang_code subtitles_list = []).
  { clear Hall. intros ->. unfold Written.tracks_for.
    induction subtitles_list as [|subtitle rest IH]; [reflexivity |].
    cbn [flat_map]. rewrite IH, app_nil_r.
    destruct (subtitle !! "3"%string) as [code|]; cbn [truthy andb];
      [| reflexivity].
    change (default "" (Some code)) with code.
    destruct (String.eqb code ""); cbn [negb andb]; [reflexivity |].
    destruct (truthy (subtitle !! "0"%string)); reflexivity. }
  destruct (Written.tracks_for lang_code subtitles_list) as [|track more]
    eqn:E; cbn [Written.extended]; [discriminate |].
  intros [= <-]. cbn [default from_option Datatypes.id app].
  split; [| split; [discriminate | exact Hall]].
  intros Hempty. specialize (Hcode Hempty). discriminate.
Qed.

Lemma subtitle_tracks_well_formed_witness :
  Forall (fun track => ext track = "vtt"%string /\ url track <> ""%string)
    [ {| url := "https://www.s4c.cymru/sub/cy.vtt"; ext := "vtt" |} ].
Proof.
  apply (subtitle_tracks_well_formed
           [Sample.welsh_track; Sample.empty_address_track;
            Sample.english_track] "cym").
  vm_compute. reflexivity.
Defined.

(** X25. For every moment of a UTC calendar day of the years 1000 to
    9999, before 1970 as well, format_date gives the eight digits
    YYYYMMDD of that day. *)
Theorem format_date_of_any_moment y m d seconds :
  1000 <= y <= 9999 -> 1 <= m <= 12 ->
  1 <= d <= Datetime._days_in_month y m ->
  0 <= seconds < 86400 ->
  format_date ((Datetime._ymd2ord y m d - Datetime.EPOCH_ORDINAL) * 86400
               + seconds)
  = Ok (Text.to_string (Datetime.zero_pad 4 y ++ Datetime.zero_pad 2 m
                          ++ Datetime.zero_pad 2 d))
  /\ forallb Char.is_digit
       (Datetime.zero_pad 4 y ++ Datetime.zero_pad 2 m ++ Datetime.zero_pad 2 d)
     = true
  /\ length (Datetime.zero_pad 4 y ++ Datetime.zero_pad 2 m
             ++ Datetime.zero_pad 2 d) = 8%nat.
Proof.
  intros Hy Hm Hd Hs. split; [| split].
  - unfold format_date.
    replace (utcfromtimestamp
               ((Datetime._ymd2ord y m d - Datetime.EPOCH_ORDINAL) * 86400
                + seconds))
      with (utcfromtimestamp (Datetime.naive_seconds (y, m, d))).
    + rewrite DateText.utcfromtimestamp_midnight by (assumption || lia).
      cbn [bind]. rewrite DateText.strftime_four_digit_year by lia.
      reflexivity.
    + unfold utcfromtimestamp, Datetime.naive_seconds.
      replace (((Datetime._ymd2ord y m d - Datetime.EPOCH_ORDINAL) * 86400
                + seconds) / 86400)
        with (((Datetime._ymd2ord y m d - Datetime.EPOCH_ORDINAL) * 86400)
              / 86400);
        [reflexivity |].
      Z.div_mod_to_equations. lia.
  - rewrite !forallb_app, !DateText.zero_pad_digits. reflexivity.
  - reflexivity.
Qed.

Lemma format_date_of_any_moment_witness :
  format_date (-1) = Ok "19691231"%string.
Proof.
  apply (proj1 (format_date_of_any_moment 1969 12 31 86399
                  ltac:(lia) ltac:(lia) ltac:(vm_compute; split; discriminate)
                  ltac:(lia))).
Defined.

Module Blanks.

Import Text Rendering.

Lemma split_blanks_fresh ws rest :
  forallb Char.is_space ws = true ->
  split_from [] (ws ++ rest) = split_from [] rest.
Proof.
  induction ws as [|a ws IH]; [reflexivity |]. cbn [forallb].
  intros Hws. apply andb_true_iff in Hws as [Ha Hws].
  cbn [app split_from]. rewrite Ha. apply IH, Hws.
Qed.

Lemma split_blanks_after (cur ws rest : text) :
  cur <> [] -> ws <> [] -> forallb Char.is_space ws = true ->
  split_from cur (ws ++ rest) = rev cur :: split_from [] rest.
Proof.
  intros Hcur Hne Hws. destruct ws as [|a ws]; [contradiction |].
  cbn [forallb] in Hws. apply andb_true_iff in Hws as [Ha Hws].
  cbn [app split_from]. rewrite Ha.
  destruct cur as [|x cur]; [contradiction |].
  rewrite (split_blanks_fresh ws rest Hws). reflexivity.
Qed.

Lemma split_blanks_end (cur ws : text) :
  cur <> [] -> forallb Char.is_space ws = true ->
  split_from cur ws = [rev cur].
Proof.
  intros Hcur Hws. destruct ws as [|a ws].
  - destruct cur; [contradiction | reflexivity].
  - rewrite <- (app_nil_r (a :: ws)).
    rewrite split_blanks_after; [reflexivity | exact Hcur | discriminate
                                | exact Hws].
Qed.

Lemma rev_token (tok : text) : tok <> [] -> rev tok ++ [] <> [].
Proof.
  intros Hne Hrev. rewrite app_nil_r in Hrev.
  apply (f_equal (@rev ascii)) in Hrev. rewrite rev_involutive in Hrev.
  contradiction.
Qed.

Lemma split_three_blanks (a b c ws0 ws1 ws2 ws3 : text) :
  a <> [] -> b <> [] -> c <> [] ->
  blank_free a = true -> blank_free b = true -> blank_free c = true ->
  forallb Char.is_space ws0 = true -> forallb Char.is_space ws1 = true ->
  forallb Char.is_space ws2 = true -> forallb Char.is_space ws3 = true ->
  ws1 <> [] -> ws2 <> [] ->
  split (ws0 ++ a ++ ws1 ++ b ++ ws2 ++ c ++ ws3) = [a; b; c].
Proof.
  intros Ha Hb Hc Fa Fb Fc H0 H1 H2 H3 N1 N2. unfold split.
  rewrite split_blanks_fresh by exact H0.
  rewrite DateText.split_from_token by exact Fa.
  rewrite split_blanks_after by (try apply rev_token; assumption).
  rewrite DateText.split_from_token by exact Fb.
  rewrite split_blanks_after by (try apply rev_token; assumption).
  rewrite DateText.split_from_token by exact Fc.
  rewrite split_blanks_end by (try apply rev_token; assumption).
  rewrite !app_nil_r, !rev_involutive. reflexivity.
Qed.

End Blanks.

(** X26. In ASCII text, blanks around the three tokens of a Welsh
    date, and runs of blanks between them, change nothing: the text
    converts and parses as the same tokens joined by single spaces. *)
Theorem welsh_date_blanks_do_not_matter utcoffset
    (day month year ws0 ws1 ws2 ws3 : Text.text) :
  Plain.text_is_ascii (day ++ month ++ year) = true ->
  day <> [] -> month <> [] -> year <> [] ->
  Rendering.blank_free day = true -> Rendering.blank_free month = true ->
  Rendering.blank_free year = true ->
  forallb Char.is_space ws0 = true -> forallb Char.is_space ws1 = true ->
  forallb Char.is_space ws2 = true -> forallb Char.is_space ws3 = true ->
  ws1 <> [] -> ws2 <> [] ->
  convert_welsh_date
    (Text.to_string (ws0 ++ day ++ ws1 ++ month ++ ws2 ++ year ++ ws3))
  = convert_welsh_date
      (Text.to_string (day ++ " "%char :: month ++ " "%char :: year))
  /\ parse_welsh_date utcoffset
       (Text.to_string (ws0 ++ day ++ ws1 ++ month ++ ws2 ++ year ++ ws3))
     = parse_welsh_date utcoffset
         (Text.to_string (day ++ " "%char :: month ++ " "%char :: year)).
Proof.
  intros _ Hd Hm Hy Fd Fm Fy H0 H1 H2 H3 N1 N2.
  assert (Hconvert :
            convert_welsh_date
              (Text.to_string (ws0 ++ day ++ ws1 ++ month ++ ws2 ++ year ++ ws3))
            = convert_welsh_date
                (Text.to_string (day ++ " "%char :: month ++ " "%char :: year))).
  { unfold convert_welsh_date. rewrite !DateText.of_to_string.
    rewrite Blanks.split_three_blanks by assumption.
    rewrite DateText.split_three by assumption. reflexivity. }
  split; [exact Hconvert |].
  unfold parse_welsh_date. rewrite Hconvert. reflexivity.
Qed.

Lemma welsh_date_blanks_do_not_matter_witness :
  parse_welsh_date Sample.utc "  15   Ionawr 2021 "
  = parse_welsh_date Sample.utc "15 Ionawr 2021".
Proof.
  apply (proj2 (welsh_date_blanks_do_not_matter Sample.utc
                  (Text.of_string "15") (Text.of_string "Ionawr")
                  (Text.of_string "2021") (Text.of_string "  ")
                  (Text.of_string "   ") (Text.of_string " ")
                  (Text.of_string " ") eq_refl
                  ltac:(discriminate) ltac:(discriminate) ltac:(discriminate)
                  eq_refl eq_refl eq_refl eq_refl eq_refl eq_refl eq_refl
                  ltac:(discriminate) ltac:(discriminate))).
Defined.
